(** * Car-Parking client: the backend integration layer

    A shallow embedding of [src/services/api.ts] and of the two page
    handlers that drive it ([handleEndParking] in [pages/ActiveBooking.tsx],
    [handlePayment] in [pages/Payment.tsx]).

    Backend payloads are untyped JSON, and the code inspects them with
    JavaScript's dynamic operators ([||], [??], [?.], [typeof],
    [Array.isArray], [String], [Number]).  The embedding therefore starts
    with a small model of JavaScript values and of those operators, then
    translates each function of the source over it.  An [async] function
    that can reject is a function into [Exc]; [try]/[catch] is [try_catch].

    Modelling conventions:
    - text is a [string] that holds the UTF-8 encoding of the JavaScript
      string: [js_length] counts its UTF-16 code units, as [.length] does,
      and [trim] removes the white space and the line terminators of
      ECMA-262; [toLowerCase] is exact on what a comparison with ASCII
      text can see;
    - numbers in payloads are integers, printed in plain decimal; the
      result of [Number(...)] is a [JsNum], an integer or [NaN];
    - what the JavaScript engine decides (the text of a [TypeError], the
      string-to-number grammar, the clock, the local calendar, the order
      of a sort whose comparator is not consistent) is a field of the
      [Engine] record, over which everything is parametrised. *)

From Stdlib Require Import ZArith List String Ascii Bool Lia.
From Stdlib Require Import DecimalString Sorted Permutation.
From Stdlib Require DecimalZ.
Import ListNotations.

Local Open Scope string_scope.
Local Open Scope list_scope.
Local Open Scope Z_scope.

(** ** JavaScript values *)

(** The result of a numeric coercion. *)
Inductive JsNum : Type :=
| NaN
| Fin (z : Z).

(** A JSON payload, plus [undefined] for what a lookup returns when the
    property is missing.  An object is an association list; the first
    binding of a key is the one a lookup sees. *)
#[warnings="-register-all"]
Inductive JsVal : Type :=
| JUndefined
| JNull
| JBool (b : bool)
| JNum (z : Z)
| JStr (s : string)
| JArr (items : list JsVal)
| JObj (fields : list (string * JsVal)).

Inductive JsType : Type :=
| TUndefined | TObject | TBoolean | TNumber | TString.

Definition JsType_eqb (a b : JsType) : bool :=
  match a, b with
  | TUndefined, TUndefined | TObject, TObject | TBoolean, TBoolean
  | TNumber, TNumber | TString, TString => true
  | _, _ => false
  end.

(** [typeof v] *)
Definition typeof (v : JsVal) : JsType :=
  match v with
  | JUndefined => TUndefined
  | JNull | JArr _ | JObj _ => TObject
  | JBool _ => TBoolean
  | JNum _ => TNumber
  | JStr _ => TString
  end.

Definition is_object (v : JsVal) : bool := JsType_eqb (typeof v) TObject.

(** [Array.isArray(v)] *)
Definition isArray (v : JsVal) : bool :=
  match v with JArr _ => true | _ => false end.

(** The elements of an array (used only under [isArray]). *)
Definition items_of (v : JsVal) : list JsVal :=
  match v with JArr l => l | _ => [] end.

(** ToBoolean: what [if (v)], [!v], [||] and [? :] test. *)
Definition truthy (v : JsVal) : bool :=
  match v with
  | JUndefined | JNull => false
  | JBool b => b
  | JNum z => negb (z =? 0)%Z
  | JStr s => negb (s =? "")%string
  | JArr _ | JObj _ => true
  end.

Definition nullish (v : JsVal) : bool :=
  match v with JUndefined | JNull => true | _ => false end.

(** [a || b] and [a ?? b].  Operands here are property reads, which have no
    effect, so evaluating the right operand eagerly changes nothing. *)
Definition js_or (a b : JsVal) : JsVal := if truthy a then a else b.
Definition js_coalesce (a b : JsVal) : JsVal := if nullish a then b else a.

Infix "<||>" := js_or (at level 51, right associativity).
Infix "<??>" := js_coalesce (at level 51, right associativity).

(** [v !== undefined] *)
Definition is_defined (v : JsVal) : bool :=
  match v with JUndefined => false | _ => true end.

(** *** Strings *)

Definition string_of_Z (z : Z) : string := NilZero.string_of_int (Z.to_int z).

Definition string_of_JsNum (n : JsNum) : string :=
  match n with NaN => "NaN" | Fin z => string_of_Z z end.

(** [s.length], the number of UTF-16 code units of the text.  The first
    byte of a character counts for one unit, or for two when the character
    takes four bytes (it is outside the basic plane, a surrogate pair in
    JavaScript); a continuation byte counts for none. *)
Definition units_of_byte (c : ascii) : nat :=
  let n := nat_of_ascii c in
  if (n <? 128)%nat then 1%nat
  else if (n <? 192)%nat then 0%nat
  else if (n <? 240)%nat then 1%nat
  else 2%nat.

Fixpoint js_length (s : string) : nat :=
  match s with
  | EmptyString => 0%nat
  | String c rest => (units_of_byte c + js_length rest)%nat
  end.

Definition lower_ascii (c : ascii) : ascii :=
  let n := nat_of_ascii c in
  if ((65 <=? n) && (n <=? 90))%nat then ascii_of_nat (n + 32) else c.

(** [s.toLowerCase()], as far as a comparison with a text of ASCII
    letters can tell.  The characters whose lower case has an ASCII letter
    are the ASCII capitals, the Kelvin sign U+212A (bytes 226, 132, 170),
    which gives [k], and the dotted capital I U+0130 (bytes 196, 176),
    which gives [i] followed by U+0307 (bytes 204, 135).  The other
    characters are left as they are: their lower case has no ASCII
    letter either. *)
Definition is_dotted_I (c d : ascii) : bool :=
  ((nat_of_ascii c =? 196) && (nat_of_ascii d =? 176))%nat.

Definition is_kelvin (c d e : ascii) : bool :=
  ((nat_of_ascii c =? 226) && (nat_of_ascii d =? 132)
   && (nat_of_ascii e =? 170))%nat.

Fixpoint toLowerCase (s : string) : string :=
  match s with
  | EmptyString => EmptyString
  | String c rest =>
      match rest with
      | EmptyString => String (lower_ascii c) EmptyString
      | String d rest2 =>
          if is_dotted_I c d
          then String "i" (String (ascii_of_nat 204)
                             (String (ascii_of_nat 135) (toLowerCase rest2)))
          else
            match rest2 with
            | EmptyString => String (lower_ascii c) (toLowerCase rest)
            | String e rest3 =>
                if is_kelvin c d e then String "k" (toLowerCase rest3)
                else String (lower_ascii c) (toLowerCase rest)
            end
      end
  end.

(** [s.includes(sub)] *)
Fixpoint includes (s sub : string) : bool :=
  if String.prefix sub s then true
  else match s with
       | EmptyString => false
       | String _ s' => includes s' sub
       end.

Fixpoint join (sep : string) (l : list string) : string :=
  match l with
  | [] => ""
  | [x] => x
  | x :: rest => (x ++ sep ++ join sep rest)%string
  end.

(** [String(v)]: an array prints its elements separated by commas, with
    [null] and [undefined] elements printed as nothing. *)
Fixpoint ToString (v : JsVal) : string :=
  match v with
  | JUndefined => "undefined"
  | JNull => "null"
  | JBool true => "true"
  | JBool false => "false"
  | JNum z => string_of_Z z
  | JStr s => s
  | JArr l =>
      join "," ((fix elems (l : list JsVal) : list string :=
                   match l with
                   | [] => []
                   | x :: rest =>
                       (if nullish x then "" else ToString x) :: elems rest
                   end) l)
  | JObj _ => "[object Object]"
  end.

(** *** Property access *)

(** A property key that is a canonical array index: ["0"], ["1"], ... *)
Definition index_of_key (k : string) : option nat :=
  match NilZero.uint_of_string k with
  | Some u =>
      let n := Nat.of_uint u in
      if (NilZero.string_of_uint (Nat.to_uint n) =? k)%string
      then Some n else None
  | None => None
  end.

Fixpoint assoc (k : string) (fs : list (string * JsVal)) : option JsVal :=
  match fs with
  | [] => None
  | (k', v) :: rest => if (k' =? k)%string then Some v else assoc k rest
  end.

(** [s[n]] for a text of one-byte characters.  The source indexes a text
    in one place, [extractedData[0]] at login, where only the type of the
    result is read: a string, or [undefined] for the empty text. *)
Definition char_at (s : string) (n : nat) : JsVal :=
  match String.get n s with
  | Some c => JStr (String c EmptyString)
  | None => JUndefined
  end.

(** [v.k] (or [v[k]]) for a [v] that is neither [null] nor [undefined].
    None of the keys the source reads is a method of a prototype, so on a
    primitive or an array only indices and [length] are found. *)
Definition field (v : JsVal) (k : string) : JsVal :=
  match v with
  | JObj fs => match assoc k fs with Some x => x | None => JUndefined end
  | JArr l =>
      if (k =? "length")%string then JNum (Z.of_nat (List.length l))
      else match index_of_key k with
           | Some n => nth n l JUndefined
           | None => JUndefined
           end
  | JStr s =>
      if (k =? "length")%string then JNum (Z.of_nat (js_length s))
      else match index_of_key k with
           | Some n => char_at s n
           | None => JUndefined
           end
  | _ => JUndefined
  end.

(** [v?.k] *)
Definition field_opt (v : JsVal) (k : string) : JsVal :=
  if nullish v then JUndefined else field v k.

Notation "v @. k" := (field v k) (at level 20, left associativity).
Notation "v @? k" := (field_opt v k) (at level 20, left associativity).

(** [k in v], for a [v] whose [typeof] is ["object"] and which is not
    [null]. *)
Definition has_property (v : JsVal) (k : string) : bool :=
  match v with
  | JObj fs => match assoc k fs with Some _ => true | None => false end
  | JArr l =>
      (k =? "length")%string ||
      match index_of_key k with
      | Some n => (n <? List.length l)%nat
      | None => false
      end
  | _ => false
  end.

(** ** Errors and rejected promises *)

(** An axios response: HTTP status and parsed body. *)
Record Response : Type := mkResponse {
  status : Z;
  data : JsVal
}.

(** What can be thrown.  [AxiosError] is what the transport rejects with;
    [Error] is [new Error(message)], and also the engine's [TypeError],
    which the code only ever reads through [instanceof Error] and
    [.message]. *)
Inductive JsError : Type :=
| AxiosError (response : option Response) (code : option string)
             (message : string)
| Error (message : string).

Definition Exc (A : Type) : Type := (JsError + A)%type.

Definition ret {A} (x : A) : Exc A := inr x.
Definition throw {A} (e : JsError) : Exc A := inl e.

Definition bind {A B} (m : Exc A) (f : A -> Exc B) : Exc B :=
  match m with
  | inl e => inl e
  | inr x => f x
  end.

(** [try { body } catch (error) { handler(error) }] *)
Definition try_catch {A} (body : Exc A) (handler : JsError -> Exc A) : Exc A :=
  match body with
  | inl e => handler e
  | inr x => inr x
  end.

Notation "x <- m ;; k" := (bind m (fun x => k))
  (at level 61, m at next level, right associativity).
Notation "m ;;; k" := (bind m (fun _ => k))
  (at level 61, right associativity).

Fixpoint mapM {A B} (f : A -> Exc B) (l : list A) : Exc (list B) :=
  match l with
  | [] => ret []
  | x :: rest => y <- f x ;; ys <- mapM f rest ;; ret (y :: ys)
  end.

(** [l.map((x, index) => f(x, index))], indices counted from [i]. *)
Fixpoint mapM_index {A B} (f : A -> Z -> Exc B) (i : Z) (l : list A)
  : Exc (list B) :=
  match l with
  | [] => ret []
  | x :: rest => y <- f x i ;; ys <- mapM_index f (i + 1) rest ;; ret (y :: ys)
  end.

Fixpoint filterM {A} (p : A -> Exc bool) (l : list A) : Exc (list A) :=
  match l with
  | [] => ret []
  | x :: rest =>
      b <- p x ;; ys <- filterM p rest ;; ret (if b then x :: ys else ys)
  end.

(** ** The engine and the transport: what the platform decides *)

Record Engine : Type := mkEngine {
  (** the string-to-number grammar of [Number(s)] *)
  StringToNumber : string -> JsNum;
  (** the message of the [TypeError] raised by reading property [k] of
      [null] or [undefined] *)
  nullReadMessage : JsVal -> string -> string;
  (** the message of the [TypeError] raised by calling [v.m()] when [v.m]
      is not a function *)
  notFunctionMessage : JsVal -> string -> string;
  (** [new Date().toISOString()] *)
  nowISO : string;
  (** [new Date().getTime()] *)
  nowTime : Z;
  (** the local calendar: [getFullYear], [getMonth], [getDate], [getHours],
      [getMinutes] and [getSeconds] of the date with a given time value *)
  getFullYear : JsNum -> JsNum;
  getMonth : JsNum -> JsNum;
  getDate : JsNum -> JsNum;
  getHours : JsNum -> JsNum;
  getMinutes : JsNum -> JsNum;
  getSeconds : JsNum -> JsNum;
  (** [error.status] of an [AxiosError] built with a given response; which
      value it has depends on the version of axios *)
  axiosErrorStatus : option Response -> JsVal;
  (** the order in which [Array.prototype.sort] leaves an array whose
      comparator is not consistent, which ECMA-262 leaves to the
      implementation: from the keys that the comparator reads, in the
      order of the array, the rank of each position in the result
      (positions of equal rank keep their order, and a position without a
      rank has rank 0) *)
  sortRanks : list JsNum -> list Z
}.

Inductive Method : Type := GET | POST | PUT | DELETE.

(** A call on the axios instance: [api.get(url)], [api.post(url, body)],
    [api.put(url)].  A call without a body carries [JUndefined]. *)
Record Request : Type := mkRequest {
  method : Method;
  url : string;
  body : JsVal
}.

(** The backend as the client sees it: a request resolves with a response
    (a 2xx status) or rejects with an [AxiosError]. *)
Definition Transport : Type := Request -> Exc Response.

(** *** The calls of the service layer *)

Definition login_request (payload : JsVal) : Request :=
  mkRequest POST "/auth-access-token" payload.

Definition parking_url (placeId : string) : string :=
  ("/garages/" ++ placeId ++ "/parking")%string.

Definition parking_request (placeId : string) : Request :=
  mkRequest GET (parking_url placeId) JUndefined.

Definition bookings_request : Request := mkRequest GET "/bookings" JUndefined.

Definition booking_request (id : string) : Request :=
  mkRequest GET ("/bookings/" ++ id)%string JUndefined.

Definition end_request (id : string) : Request :=
  mkRequest PUT ("/bookings/" ++ id ++ "/end")%string JUndefined.

(** ** Entities *)

Module User.
Record t : Type := mk {
  id : string;
  name : string;
  email : string;
  phone : JsVal;
  avatarUrl : JsVal;
  role : JsVal
}.
End User.

Module Slot.
Inductive Status : Type := available | occupied | reserved.
Inductive VehicleSize : Type := compact | standard | large.

Record t : Type := mk {
  id : string;
  number : string;
  status : Status;
  level : JsNum;
  vehicleSize : VehicleSize;
  pricePerHour : JsNum
}.

Definition is_available (s : t) : bool :=
  match status s with available => true | _ => false end.
End Slot.

Module Floor.
Record t : Type := mk {
  id : string;
  name : string;
  level : JsNum;
  totalSlots : Z;
  availableSlots : Z;
  layout : list Slot.t
}.
End Floor.

Module Booking.
Record Time : Type := mkTime {
  start : JsVal;
  end_ : JsVal;
  durationHours : JsNum
}.

(** [status] is the backend's value under a type cast: nothing checks
    that it is one of the five statuses. *)
Record t : Type := mk {
  id : string;
  garageId : string;
  userId : string;
  slotId : string;
  status : JsVal;
  totalPrice : JsNum;
  vehiclePlate : string;
  time : Time;
  place : option JsVal;
  garage : option JsVal
}.

End Booking.

(** The two buckets of the bookings listing. *)
Record Buckets : Type := mkBuckets {
  current : list Booking.t;
  past : list Booking.t
}.

(** What the client keeps between calls: [localStorage]'s [auth_token] and
    [user], and the default [Authorization] header of the axios instance. *)
Record Session : Type := mkSession {
  auth_token : option string;
  stored_user : option User.t;
  authorization : option string
}.

Definition anonymous : Session := mkSession None None None.

(** ** The service layer: [services/api.ts] *)

Section Api.

Variable E : Engine.
Variable api : Transport.

(** [Number(v)] *)
Definition ToNumber (v : JsVal) : JsNum :=
  match v with
  | JUndefined => NaN
  | JNull => Fin 0
  | JBool b => Fin (if b then 1 else 0)
  | JNum z => Fin z
  | JStr s => StringToNumber E s
  | JArr _ | JObj _ => StringToNumber E (ToString v)
  end.

(** [v.k] where [v] may be [null] or [undefined]: the read throws. *)
Definition read (v : JsVal) (k : string) : Exc JsVal :=
  if nullish v then throw (Error (nullReadMessage E v k)) else ret (v @. k).

(** [extractData]: the payload under the envelope. *)
Definition extractData (response : Response) : JsVal :=
  let d := data response in
  if truthy d && is_object d && has_property d "data"
  then d @. "data"
  else d.

Definition status_message (s : Z) : option string :=
  if s =? 404 then Some "Resource not found"
  else if s =? 403 then Some "Access forbidden"
  else if s =? 401 then Some "Unauthorized. Please login again"
  else if s =? 500 then Some "Server error. Please try again later"
  else if (400 <=? s) && (s <? 500) then Some "Invalid request"
  else if 500 <=? s then Some "Server error"
  else None.

Definition code_is (code : option string) (c : string) : bool :=
  match code with Some c' => (c' =? c)%string | None => false end.

(** [formatError].  The declared result is a string, but a backend
    [message] or [error] field is returned as it is, whatever its type. *)
Definition formatError (error : JsError) : JsVal :=
  match error with
  | AxiosError response code message =>
      let d := match response with Some r => data r | None => JUndefined end in
      if truthy (d @? "message") then d @? "message"
      else if truthy (d @? "error") then d @? "error"
      else
        let by_status :=
          match response with
          | Some r => if status r =? 0 then None else status_message (status r)
          | None => None
          end in
        match by_status with
        | Some m => JStr m
        | None =>
            if code_is code "ECONNABORTED"
            then JStr "Request timeout. Please try again"
            else if code_is code "ERR_NETWORK"
            then JStr "Network error. Check your connection"
            else JStr message <||> JStr "An error occurred"
        end
  | Error message => JStr message
  end.

(** [throw new Error(formatError(error))], the [catch] of every operation
    but the bookings listing. *)
Definition rethrow {A} (error : JsError) : Exc A :=
  throw (Error (ToString (formatError error))).

(** *** Authentication *)

Definition is_user_object (v : JsVal) : bool := truthy v && is_object v.

(** The flexible user extraction of [login].  [extractedData[0]] and
    [extractedData["0"]] read the same property, so the two tests of the
    source are one here. *)
Definition login_rawUser (extractedData : JsVal) : JsVal :=
  if is_user_object (extractedData @. "user") then extractedData @. "user"
  else if is_user_object (extractedData @. "0") then extractedData @. "0"
  else if is_user_object (extractedData @. "data" @? "user")
  then extractedData @. "data" @? "user"
  else if is_user_object (extractedData @. "data" @? "0")
  then extractedData @. "data" @? "0"
  else JNull.

Definition login_normalizedUser (rawUser : JsVal) : User.t :=
  {| User.id := ToString (rawUser @. "id" <||> rawUser @. "user_id" <||> JStr "");
     User.name := ToString (rawUser @. "name" <||> rawUser @. "full_name"
                            <||> rawUser @. "username" <||> JStr "");
     User.email := ToString (rawUser @. "email" <||> JStr "");
     User.phone := rawUser @. "phone" <||> rawUser @. "phone_number" <||> JUndefined;
     User.avatarUrl := rawUser @. "avatarUrl" <||> rawUser @. "avatar_url"
                       <||> rawUser @. "avatar" <||> JUndefined;
     User.role := rawUser @. "role" <||> rawUser @. "user_role" <||> JStr "user" |}.

(** The flexible token extraction of [login]; [None] is [null]. *)
Definition login_token (extractedData : JsVal) : option string :=
  if truthy (extractedData @. "token")
  then Some (ToString (extractedData @. "token"))
  else if truthy (extractedData @. "access_token")
  then Some (ToString (extractedData @. "access_token"))
  else if truthy (extractedData @. "data" @? "token")
  then Some (ToString (extractedData @. "data" @? "token"))
  else if truthy (extractedData @. "data" @? "access_token")
  then Some (ToString (extractedData @. "data" @? "access_token"))
  else None.

(** The [try] block of [login], up to the writes to the session. *)
Definition login_try (payload : JsVal) : Exc (User.t * string) :=
  response <- api (login_request payload) ;;
  let extractedData := extractData response in
  read extractedData "user" ;;;
  let rawUser := login_rawUser extractedData in
  if negb (truthy rawUser)
  then throw (Error "Login failed: No user data received from server")
  else
    let normalizedUser := login_normalizedUser rawUser in
    if (User.id normalizedUser =? "")%string
       || (User.email normalizedUser =? "")%string
    then throw (Error "Login failed: Invalid user data structure")
    else
      match login_token extractedData with
      | None =>
          throw (Error "Login failed: No authentication token received from server")
      | Some token =>
          if (token =? "")%string
          then throw (Error "Login failed: No authentication token received from server")
          else if (token =? "undefined")%string || (token =? "null")%string
          then throw (Error "Login failed: Invalid authentication token")
          else ret (normalizedUser, token)
      end.

(** [login]: on success the token and the user are stored; on any failure
    the stored token and user are cleared and the error is re-thrown.  The
    [sessionStorage] copy of the token, which [login] never touches, is not
    part of [Session]. *)
Definition login (payload : JsVal) (s : Session)
  : Session * Exc (User.t * string) :=
  match login_try payload with
  | inr (user, token) =>
      (mkSession (Some token) (Some user) (Some ("Bearer " ++ token)%string),
       ret (user, token))
  | inl error => (anonymous, rethrow error)
  end.

(** *** Parking slots *)

(** The raw slots of a payload: the payload itself when it is an array, or
    the array under [slots], [data], [parking] or [parkingSlots]; no slots
    otherwise. *)
Definition slotsArray_of (rawData : JsVal) : list JsVal :=
  if isArray rawData then items_of rawData
  else if truthy rawData && is_object rawData then
    if isArray (rawData @. "slots") then items_of (rawData @. "slots")
    else if isArray (rawData @. "data") then items_of (rawData @. "data")
    else if isArray (rawData @. "parking") then items_of (rawData @. "parking")
    else if isArray (rawData @. "parkingSlots")
    then items_of (rawData @. "parkingSlots")
    else []
  else [].

(** The status mapping: a truthy [status] decides alone; otherwise
    [is_booked] when it is present, otherwise [is_available] when it is
    present, otherwise available. *)
Definition slot_status (slot : JsVal) : Slot.Status :=
  if truthy (slot @. "status") then
    let statusLower := toLowerCase (ToString (slot @. "status")) in
    if (statusLower =? "available")%string || (statusLower =? "free")%string
    then Slot.available
    else if (statusLower =? "occupied")%string
            || (statusLower =? "booked")%string
            || (statusLower =? "taken")%string
    then Slot.occupied
    else if (statusLower =? "reserved")%string then Slot.reserved
    else Slot.available
  else if is_defined (slot @. "is_booked") then
    if truthy (slot @. "is_booked") then Slot.occupied else Slot.available
  else if is_defined (slot @. "is_available") then
    if truthy (slot @. "is_available") then Slot.available else Slot.occupied
  else Slot.available.

Definition slot_level (slot : JsVal) : JsNum :=
  ToNumber (slot @. "level" <??> slot @. "floor" <??> slot @. "floor_number"
            <??> slot @. "floor_id" <??> slot @. "floor_level" <??> JNum 0).

(** [(slot.vehicleSize || slot.vehicle_size || slot.size || "standard")
    .toLowerCase()]: a truthy value that is not a string has no
    [toLowerCase], and the call throws. *)
Definition slot_sizeField (slot : JsVal) : Exc string :=
  let v := slot @. "vehicleSize" <||> slot @. "vehicle_size"
           <||> slot @. "size" <||> JStr "standard" in
  match v with
  | JStr s => ret (toLowerCase s)
  | _ => throw (Error (notFunctionMessage E v "toLowerCase"))
  end.

Definition slot_vehicleSize (sizeField : string) : Slot.VehicleSize :=
  if includes sizeField "compact" || includes sizeField "small"
  then Slot.compact
  else if includes sizeField "large" || includes sizeField "big"
  then Slot.large
  else Slot.standard.

(** The callback of [slotsArray.map] in [fetchParkingSlots]. *)
Definition normalizeSlot (slot : JsVal) (index : Z) : Exc Slot.t :=
  read slot "status" ;;;
  sizeField <- slot_sizeField slot ;;
  ret {| Slot.id :=
           ToString (slot @. "id" <||> slot @. "slot_id"
                     <||> JStr ("slot-" ++ string_of_Z (index + 1))%string);
         Slot.number :=
           ToString (slot @. "number" <||> slot @. "slot_number"
                     <||> slot @. "name" <||> slot @. "id"
                     <||> JNum (index + 1));
         Slot.status := slot_status slot;
         Slot.level := slot_level slot;
         Slot.vehicleSize := slot_vehicleSize sizeField;
         Slot.pricePerHour :=
           ToNumber (slot @. "pricePerHour" <||> slot @. "price_per_hour"
                     <||> slot @. "price" <||> JNum 5) |}.

Definition fetchParkingSlots (placeId : string) : Exc (list Slot.t) :=
  try_catch
    (response <- api (parking_request placeId) ;;
     let rawData := extractData response in
     let slotsArray := slotsArray_of rawData in
     if (List.length slotsArray =? 0)%nat then ret []
     else mapM_index normalizeSlot 0 slotsArray)
    rethrow.

(** *** Floors *)

Definition general_parking : Floor.t :=
  {| Floor.id := "general-parking";
     Floor.name := "General Parking";
     Floor.level := Fin 0;
     Floor.totalSlots := 0;
     Floor.availableSlots := 0;
     Floor.layout := [] |}.

(** Key equality of a [Map]: SameValueZero, under which [NaN] equals
    itself. *)
Definition JsNum_eqb (a b : JsNum) : bool :=
  match a, b with
  | NaN, NaN => true
  | Fin x, Fin y => x =? y
  | _, _ => false
  end.

(** A [Map<number, Slot[]>], entries in insertion order. *)
Definition FloorMap : Type := list (JsNum * list Slot.t).

(** One step of the [forEach]: create the level's entry when it is new,
    then push the slot at the end of the level's array. *)
Fixpoint floorMap_push (level : JsNum) (slot : Slot.t) (m : FloorMap)
  : FloorMap :=
  match m with
  | [] => [(level, [slot])]
  | (l, floorSlots) :: rest =>
      if JsNum_eqb l level then (l, floorSlots ++ [slot]) :: rest
      else (l, floorSlots) :: floorMap_push level slot rest
  end.

(** [slot.level ?? 0] is [slot.level]: a normalized level is a number. *)
Definition floorMap_of (slots : list Slot.t) : FloorMap :=
  fold_left (fun m slot => floorMap_push (Slot.level slot) slot m) slots [].

(** The comparator [levelA - levelB] as [sort] reads it: a [NaN] result
    counts as zero. *)
Definition level_compare (a b : JsNum) : Z :=
  match a, b with
  | Fin x, Fin y => x - y
  | _, _ => 0
  end.

(** [Array.prototype.sort] under a consistent comparator: the sort is
    stable, and its result is that of insertion sort.  The keys of a map
    are distinct, so when no level is [NaN] the comparator is a strict
    total order on them. *)
Fixpoint sort_insert (x : JsNum * list Slot.t) (l : FloorMap) : FloorMap :=
  match l with
  | [] => [x]
  | y :: rest =>
      if level_compare (fst x) (fst y) <=? 0 then x :: y :: rest
      else y :: sort_insert x rest
  end.

Definition sort_consistent (l : FloorMap) : FloorMap :=
  fold_right sort_insert [] l.

(** The order of the engine: the entries by ascending rank, entries of
    equal rank in the order they had. *)
Fixpoint rank_insert (x : Z * (JsNum * list Slot.t))
                     (l : list (Z * (JsNum * list Slot.t)))
  : list (Z * (JsNum * list Slot.t)) :=
  match l with
  | [] => [x]
  | y :: rest =>
      if fst x <=? fst y then x :: y :: rest
      else y :: rank_insert x rest
  end.

Definition arrange (ranks : list Z) (l : FloorMap) : FloorMap :=
  map snd
      (fold_right rank_insert []
                  (combine (ranks ++ repeat 0 (List.length l)) l)).

Definition is_NaN (n : JsNum) : bool :=
  match n with NaN => true | Fin _ => false end.

(** [entries.sort(([levelA], [levelB]) => levelA - levelB)].  With a [NaN]
    level the comparator answers zero wherever [NaN] is an argument, so it
    is not consistent as soon as two other levels differ, and the order of
    the result is the engine's. *)
Definition sort_by_level (l : FloorMap) : FloorMap :=
  if existsb is_NaN (map fst l) then arrange (sortRanks E (map fst l)) l
  else sort_consistent l.

Definition floor_name (level : JsNum) : string :=
  match level with
  | Fin 0 => "Ground Floor"
  | Fin 1 => "1st Floor"
  | Fin 2 => "2nd Floor"
  | _ => ("Floor " ++ string_of_JsNum level)%string
  end.

Definition floor_of_entry (entry : JsNum * list Slot.t) : Floor.t :=
  let (level, floorSlots) := entry in
  {| Floor.id := ("floor-" ++ string_of_JsNum level)%string;
     Floor.name := floor_name level;
     Floor.level := level;
     Floor.totalSlots := Z.of_nat (List.length floorSlots);
     Floor.availableSlots :=
       Z.of_nat (List.length (filter Slot.is_available floorSlots));
     Floor.layout := floorSlots |}.

(** What [fetchFloors] makes of the fetched slots. *)
Definition floors_of (slots : list Slot.t) : list Floor.t :=
  if (List.length slots =? 0)%nat then [general_parking]
  else map floor_of_entry (sort_by_level (floorMap_of slots)).

Definition fetchFloors (garageId : string) : Exc (list Floor.t) :=
  try_catch
    (slots <- fetchParkingSlots garageId ;;
     ret (floors_of slots))
    rethrow.

(** *** Bookings *)

(** The field extractions that [endBooking], [normalizeBooking] and
    [fetchBookingById] each spell out, in the same words. *)
Definition booking_garageId (rawBooking : JsVal) : string :=
  ToString (rawBooking @. "garage" @? "id" <||> rawBooking @. "place" @? "id"
            <||> rawBooking @. "garage_id" <||> rawBooking @. "place_id"
            <||> rawBooking @. "garageId" <||> rawBooking @. "placeId"
            <||> JStr "").

Definition booking_userId (rawBooking : JsVal) : string :=
  ToString (rawBooking @. "user" @? "id" <||> rawBooking @. "user_id"
            <||> rawBooking @. "userId" <||> JStr "").

Definition booking_slotId (rawBooking : JsVal) : string :=
  ToString (rawBooking @. "parking_spot" @? "id" <||> rawBooking @. "spot" @? "id"
            <||> rawBooking @. "slot" @? "id"
            <||> rawBooking @. "parking_spot_id" <||> rawBooking @. "spot_id"
            <||> rawBooking @. "slot_id" <||> rawBooking @. "slotId"
            <||> rawBooking @. "spotId" <||> rawBooking @. "parkingSpotId"
            <||> JStr "").

Definition booking_totalPrice (rawBooking : JsVal) : JsNum :=
  ToNumber (rawBooking @. "total_amount" <||> rawBooking @. "total_price"
            <||> rawBooking @. "totalPrice" <||> rawBooking @. "amount"
            <||> JNum 0).

Definition booking_vehiclePlate (rawBooking : JsVal) : string :=
  ToString (rawBooking @. "vehicle_plate" <||> rawBooking @. "vehiclePlate"
            <||> rawBooking @. "plate" <||> rawBooking @. "license_plate"
            <||> JStr "N/A").

Definition booking_time (rawBooking : JsVal) : Booking.Time :=
  {| Booking.start :=
       rawBooking @. "start_time" <||> rawBooking @. "startTime"
       <||> rawBooking @. "time" @? "start" <||> JStr (nowISO E);
     Booking.end_ :=
       rawBooking @. "end_time" <||> rawBooking @. "endTime"
       <||> rawBooking @. "time" @? "end" <||> JStr (nowISO E);
     Booking.durationHours :=
       ToNumber (rawBooking @. "duration_hours" <||> rawBooking @. "durationHours"
                 <||> rawBooking @. "duration"
                 <||> rawBooking @. "time" @? "durationHours" <||> JNum 1) |}.

(** [if (v && typeof v === 'object') normalized.k = v] *)
Definition preserved_object (v : JsVal) : option JsVal :=
  if truthy v && is_object v then Some v else None.

(** [normalizeBooking]: its first read, [rawBooking.garage], throws on
    [null] and [undefined]. *)
Definition normalizeBooking (rawBooking : JsVal) : Exc Booking.t :=
  read rawBooking "garage" ;;;
  ret {| Booking.id := ToString (rawBooking @. "id" <||> JStr "");
         Booking.garageId := booking_garageId rawBooking;
         Booking.userId := booking_userId rawBooking;
         Booking.slotId := booking_slotId rawBooking;
         Booking.status := rawBooking @. "status" <||> JStr "pending";
         Booking.totalPrice := booking_totalPrice rawBooking;
         Booking.vehiclePlate := booking_vehiclePlate rawBooking;
         Booking.time := booking_time rawBooking;
         Booking.place := preserved_object (rawBooking @. "place");
         Booking.garage := preserved_object (rawBooking @. "garage") |}.

(** [list.includes(v)] for a list of strings. *)
Definition status_in (statuses : list string) (v : JsVal) : bool :=
  match v with
  | JStr s => existsb (String.eqb s) statuses
  | _ => false
  end.

Definition filter_by_status (statuses : list string) (bookings : list JsVal)
  : Exc (list JsVal) :=
  filterM (fun b => s <- read b "status" ;; ret (status_in statuses s)) bookings.

(** The [try] block of [fetchUserBookings]. *)
Definition fetchUserBookings_try : Exc Buckets :=
  response <- api bookings_request ;;
  let rawData := extractData response in
  if truthy rawData && is_object rawData then
    let currentRaw :=
      if isArray (rawData @. "current") then items_of (rawData @. "current")
      else [] in
    let pastRaw :=
      if isArray (rawData @. "past") then items_of (rawData @. "past")
      else [] in
    current <- mapM normalizeBooking currentRaw ;;
    past <- mapM normalizeBooking pastRaw ;;
    ret (mkBuckets current past)
  else
    let bookingsArray :=
      if isArray rawData then items_of rawData
      else if truthy rawData && is_object rawData then
        if isArray (rawData @. "bookings") then items_of (rawData @. "bookings")
        else if isArray (rawData @. "data") then items_of (rawData @. "data")
        else []
      else [] in
    currentRaw <- filter_by_status
                    ["active"; "upcoming"; "confirmed"; "pending"]
                    bookingsArray ;;
    pastRaw <- filter_by_status ["completed"; "cancelled"] bookingsArray ;;
    current <- mapM normalizeBooking currentRaw ;;
    past <- mapM normalizeBooking pastRaw ;;
    ret (mkBuckets current past).

(** [fetchUserBookings]; its [userId] argument is not used.  The [catch]
    returns two empty buckets instead of re-throwing. *)
Definition fetchUserBookings : Exc Buckets :=
  try_catch fetchUserBookings_try (fun _ => ret (mkBuckets [] [])).

(** The booking located in the payload of [fetchBookingById]; [JNull] when
    none is. *)
Definition fetchBookingById_rawBooking (rawData : JsVal) : JsVal :=
  if truthy rawData && is_object rawData then
    if truthy (rawData @. "id") then rawData
    else if truthy (rawData @. "booking") && is_object (rawData @. "booking")
    then rawData @. "booking"
    else if truthy (rawData @. "data" @? "booking")
    then rawData @. "data" @? "booking"
    else if truthy (rawData @. "data" @? "id") then rawData @. "data"
    else JNull
  else JNull.

Definition fetchBookingById (id : string) : Exc Booking.t :=
  try_catch
    (response <- api (booking_request id) ;;
     let rawData := extractData response in
     let rawBooking := fetchBookingById_rawBooking rawData in
     if negb (truthy rawBooking)
     then throw (Error ("Booking #" ++ id ++ " not found")%string)
     else
       let normalizedBooking :=
         {| Booking.id := ToString (rawBooking @. "id");
            Booking.garageId := booking_garageId rawBooking;
            Booking.userId := booking_userId rawBooking;
            Booking.slotId := booking_slotId rawBooking;
            Booking.status := rawBooking @. "status" <||> JStr "pending";
            Booking.totalPrice := booking_totalPrice rawBooking;
            Booking.vehiclePlate := booking_vehiclePlate rawBooking;
            Booking.time := booking_time rawBooking;
            Booking.place := None;
            Booking.garage := None |} in
       if (Booking.id normalizedBooking =? "")%string
       then throw (Error "Invalid booking data: Missing ID")
       else if (Booking.garageId normalizedBooking =? "")%string
       then throw (Error "Invalid booking data: Missing garage ID")
       else ret normalizedBooking)
    rethrow.

(** The booking located in the payload of [endBooking]. *)
Definition endBooking_rawBooking (rawData : JsVal) : JsVal :=
  if truthy rawData && is_object rawData then
    if truthy (rawData @. "id") then rawData
    else if truthy (rawData @. "booking") then rawData @. "booking"
    else if truthy (rawData @. "data" @? "booking")
    then rawData @. "data" @? "booking"
    else if truthy (rawData @. "data" @? "id") then rawData @. "data"
    else JNull
  else JNull.

Definition endBooking (id : string) : Exc Booking.t :=
  try_catch
    (response <- api (end_request id) ;;
     let rawData := extractData response in
     let rawBooking := endBooking_rawBooking rawData in
     if negb (truthy rawBooking)
     then throw (Error "Invalid response from server")
     else
       ret {| Booking.id := ToString (rawBooking @. "id");
              Booking.garageId := booking_garageId rawBooking;
              Booking.userId := booking_userId rawBooking;
              Booking.slotId := booking_slotId rawBooking;
              Booking.status := rawBooking @. "status" <||> JStr "completed";
              Booking.totalPrice := booking_totalPrice rawBooking;
              Booking.vehiclePlate := booking_vehiclePlate rawBooking;
              Booking.time := booking_time rawBooking;
              Booking.place := None;
              Booking.garage := None |})
    rethrow.

(** *** Payment *)

(** The argument of [processPayment]. *)
Record PaymentPayload : Type := mkPaymentPayload {
  parkingSpotId : string;
  pay_garageId : string;
  pay_userId : string;
  totalAmount : JsNum;
  startTime : string;
  endTime : string;
  pay_durationHours : JsNum;
  paymentMethod : string;
  pay_vehiclePlate : option string
}.

(** A number as the request body carries it: JSON has no [NaN], which is
    written [null]. *)
Definition json_of_JsNum (n : JsNum) : JsVal :=
  match n with Fin z => JNum z | NaN => JNull end.

Definition json_of_optional (s : option string) : JsVal :=
  match s with Some x => JStr x | None => JUndefined end.

(** [backendPayload]: the camelCase fields under their snake_case names. *)
Definition backendPayload (payload : PaymentPayload) : JsVal :=
  JObj [("parking_spot_id", JStr (parkingSpotId payload));
        ("garage_id", JStr (pay_garageId payload));
        ("user_id", JStr (pay_userId payload));
        ("total_amount", json_of_JsNum (totalAmount payload));
        ("start_time", JStr (startTime payload));
        ("end_time", JStr (endTime payload));
        ("duration_hours", json_of_JsNum (pay_durationHours payload));
        ("payment_method", JStr (paymentMethod payload));
        ("vehicle_plate", json_of_optional (pay_vehiclePlate payload))].

(** The call that [processPayment] puts on the wire. *)
Definition processPayment_request (payload : PaymentPayload) : Request :=
  mkRequest POST "/bookings/pay" (backendPayload payload).

Definition processPayment (payload : PaymentPayload) : Exc JsVal :=
  try_catch
    (response <- api (processPayment_request payload) ;;
     ret (extractData response))
    rethrow.

End Api.

(** ** The pages that drive the service layer *)

Module Garage.
(** The fields of a garage that the payment page reads. *)
Record t : Type := mk {
  id : string;
  name : string
}.
End Garage.

(** *** Text and number helpers of the pages *)

(** White space as [trim] sees it: the WhiteSpace and LineTerminator
    characters of ECMA-262.  TAB, LF, VT, FF, CR and SP take one byte;
    U+00A0 takes two; U+1680, U+2000 to U+200A, U+2028, U+2029, U+202F,
    U+205F, U+3000 and U+FEFF take three. *)
Definition is_whitespace (c : ascii) : bool :=
  let n := nat_of_ascii c in
  ((n =? 32) || ((9 <=? n) && (n <=? 13)))%nat.

Definition is_whitespace2 (c d : ascii) : bool :=
  ((nat_of_ascii c =? 194) && (nat_of_ascii d =? 160))%nat.

Definition is_whitespace3 (c d e : ascii) : bool :=
  let c := nat_of_ascii c in
  let d := nat_of_ascii d in
  let e := nat_of_ascii e in
  (((c =? 225) && (d =? 154) && (e =? 128))
   || ((c =? 226) && (d =? 128)
       && (((128 <=? e) && (e <=? 138)) || (e =? 168) || (e =? 169)
           || (e =? 175)))
   || ((c =? 226) && (d =? 129) && (e =? 159))
   || ((c =? 227) && (d =? 128) && (e =? 128))
   || ((c =? 239) && (d =? 187) && (e =? 191)))%nat.

(** The text without the white space it starts with.  With [back] the
    bytes are read from the end of the text, last byte first. *)
Fixpoint strip_white (back : bool) (l : list ascii) : list ascii :=
  match l with
  | [] => []
  | c :: rest =>
      if is_whitespace c then strip_white back rest
      else
        match rest with
        | [] => l
        | d :: rest2 =>
            if (if back then is_whitespace2 d c else is_whitespace2 c d)
            then strip_white back rest2
            else
              match rest2 with
              | [] => l
              | e :: rest3 =>
                  if (if back then is_whitespace3 e d c
                      else is_whitespace3 c d e)
                  then strip_white back rest3
                  else l
              end
        end
  end.

(** [s.trim()] *)
Definition trim (s : string) : string :=
  string_of_list_ascii
    (rev (strip_white true
            (rev (strip_white false (list_ascii_of_string s))))).

Definition is_digit (c : ascii) : bool :=
  let n := nat_of_ascii c in ((48 <=? n) && (n <=? 57))%nat.

Fixpoint take_digits (s : string) : string :=
  match s with
  | EmptyString => EmptyString
  | String c rest =>
      if is_digit c then String c (take_digits rest) else EmptyString
  end.

(** [s.match(/\d+/)]: the first maximal run of digits, if there is one. *)
Fixpoint match_digits (s : string) : option string :=
  match s with
  | EmptyString => None
  | String c rest =>
      if is_digit c then Some (take_digits s) else match_digits rest
  end.

(** [parseInt(digits, 10)] on a run of digits. *)
Definition parseInt (digits : string) : JsNum :=
  match NilZero.uint_of_string digits with
  | Some u => Fin (Z.of_uint u)
  | None => NaN
  end.

Definition num_add (a b : JsNum) : JsNum :=
  match a, b with Fin x, Fin y => Fin (x + y) | _, _ => NaN end.

Definition num_mul (a b : JsNum) : JsNum :=
  match a, b with Fin x, Fin y => Fin (x * y) | _, _ => NaN end.

(** [a > 0] *)
Definition num_positive (a : JsNum) : bool :=
  match a with Fin x => 0 <? x | NaN => false end.

(** ToBoolean of a number *)
Definition num_truthy (a : JsNum) : bool :=
  match a with Fin x => negb (x =? 0) | NaN => false end.

(** [s.padStart(2, '0')] for the text of a number, which has one byte per
    code unit. *)
Definition padStart2 (s : string) : string :=
  match String.length s with
  | 0%nat => "00"
  | 1%nat => ("0" ++ s)%string
  | _ => s
  end.

Section Pages.

Variable E : Engine.
Variable api : Transport.

(** *** [pages/ActiveBooking.tsx] *)

(** What a handler leaves on the page. *)
Inductive PageEffect : Type :=
| Nothing
| Navigate (path : string)
| ShowError (message : JsVal)
| Uncaught (message : string).

(** [err?.response?.status], [err?.status], [err?.response?.data?.message]
    and [err?.message] of a caught error. *)
Definition err_response_status (err : JsError) : JsVal :=
  match err with
  | AxiosError (Some r) _ _ => JNum (status r)
  | _ => JUndefined
  end.

Definition err_status (err : JsError) : JsVal :=
  match err with
  | AxiosError response _ _ => axiosErrorStatus E response
  | Error _ => JUndefined
  end.

Definition err_response_message (err : JsError) : JsVal :=
  match err with
  | AxiosError (Some r) _ _ => data r @? "message"
  | _ => JUndefined
  end.

Definition err_message (err : JsError) : JsVal :=
  match err with
  | AxiosError _ _ message => JStr message
  | Error message => JStr message
  end.

(** [v === 400] *)
Definition is_400 (v : JsVal) : bool :=
  match v with JNum z => z =? 400 | _ => false end.

(** [handleEndParking], from the page's [booking] and [endingParking]. *)
Definition handleEndParking (booking : option Booking.t) (endingParking : bool)
  : PageEffect :=
  match booking with
  | None => Nothing
  | Some b =>
      if endingParking then Nothing
      else
        match endBooking E api (Booking.id b) with
        | inr updatedBooking => Navigate "/bookings"
        | inl err =>
            let is400Error :=
              is_400 (err_response_status err) || is_400 (err_status err) in
            let errorMessage :=
              err_response_message err <||> err_message err <||> JStr "" in
            let shown :=
              err_response_message err <||> err_message err
              <||> JStr "Failed to end parking. Please try again." in
            if is400Error then
              match errorMessage with
              | JStr m =>
                  if includes (toLowerCase m) "already completed"
                     || includes (toLowerCase m) "already ended"
                     || includes (toLowerCase m) "already finished"
                  then Navigate "/bookings"
                  else ShowError shown
              | _ => Uncaught (notFunctionMessage E errorMessage "toLowerCase")
              end
            else ShowError shown
        end
  end.

(** *** [pages/Payment.tsx] *)

Record LocationState : Type := mkLocationState {
  ls_booking : option Booking.t;
  ls_price : option JsNum;
  ls_totalPrice : option JsNum;
  ls_garage : option Garage.t;
  ls_slot : option Slot.t;
  ls_duration : JsVal
}.

(** What [handlePayment] closes over: the router's location state, the
    context's active booking, the user the page resolved, and the two
    controlled inputs. *)
Record PaymentPage : Type := mkPaymentPage {
  locationState : option LocationState;
  activeBooking : option Booking.t;
  currentUser : option User.t;
  vehiclePlate : string;
  method_ : string
}.

(** [locationState?.booking ?? state.activeBooking] *)
Definition apiBooking (page : PaymentPage) : option Booking.t :=
  match locationState page with
  | Some ls =>
      match ls_booking ls with
      | Some b => Some b
      | None => activeBooking page
      end
  | None => activeBooking page
  end.

(** [locationState?.price ?? locationState?.totalPrice
     ?? apiBooking?.totalPrice ?? 0] *)
Definition page_totalPrice (page : PaymentPage) : JsNum :=
  let from_booking :=
    match apiBooking page with
    | Some b => Booking.totalPrice b
    | None => Fin 0
    end in
  match locationState page with
  | Some ls =>
      match ls_price ls with
      | Some p => p
      | None =>
          match ls_totalPrice ls with
          | Some p => p
          | None => from_booking
          end
      end
  | None => from_booking
  end.

Definition extract_durationHours (duration : JsVal) (booking : Booking.t)
  : JsNum :=
  match duration with
  | JNum z => Fin z
  | JStr s =>
      match match_digits s with
      | Some digits => parseInt digits
      | None => Fin 2
      end
  | _ =>
      let d := Booking.durationHours (Booking.time booking) in
      if num_truthy d then d else Fin 2
  end.

Definition pad (n : JsNum) : string := padStart2 (string_of_JsNum n).

(** [formatMySQLTimestamp] of the date with time value [t]:
    [YYYY-MM-DD HH:mm:ss]. *)
Definition formatMySQLTimestamp (t : JsNum) : string :=
  (string_of_JsNum (getFullYear E t) ++ "-"
   ++ pad (num_add (getMonth E t) (Fin 1)) ++ "-"
   ++ pad (getDate E t) ++ " "
   ++ pad (getHours E t) ++ ":"
   ++ pad (getMinutes E t) ++ ":"
   ++ pad (getSeconds E t))%string.

(** [handlePayment] up to the call of [processPayment]: the message of the
    check that refuses the payment, or the payload handed over. *)
Definition handlePayment_payload (page : PaymentPage)
  : string + PaymentPayload :=
  match apiBooking page with
  | None => inl "❌ Missing booking data. Please try again."
  | Some booking =>
  match locationState page with
  | None => inl "❌ Missing garage data. Please restart the booking."
  | Some ls =>
  match ls_garage ls with
  | None => inl "❌ Missing garage data. Please restart the booking."
  | Some garage =>
  match ls_slot ls with
  | None => inl "❌ Missing slot data. Please restart the booking."
  | Some slot =>
  match currentUser page with
  | None => inl "❌ User not logged in. Redirecting to login..."
  | Some user =>
      if (User.id user =? "")%string
      then inl "❌ User not logged in. Redirecting to login..."
      else
        let trimmedPlate := trim (vehiclePlate page) in
        if (trimmedPlate =? "")%string
        then inl "❌ Please enter your vehicle plate number."
        else if (js_length trimmedPlate <? 3)%nat
        then inl "❌ Vehicle plate must be at least 3 characters."
        else if (Slot.id slot =? "")%string
        then inl "❌ Invalid slot data. Please restart the booking."
        else if (Garage.id garage =? "")%string
        then inl "❌ Invalid garage data. Please restart the booking."
        else
          let durationHours := extract_durationHours (ls_duration ls) booking in
          let startDate := Fin (nowTime E) in
          let endDate :=
            num_add startDate (num_mul durationHours (Fin (60 * 60 * 1000))) in
          let paymentMethodValue :=
            if (method_ page =? "card")%string then "credit_card"
            else method_ page in
          let totalPrice := page_totalPrice page in
          inr {| parkingSpotId := Slot.id slot;
                 pay_garageId := Garage.id garage;
                 pay_userId := User.id user;
                 totalAmount :=
                   if num_positive totalPrice then totalPrice
                   else Booking.totalPrice booking;
                 startTime := formatMySQLTimestamp startDate;
                 endTime := formatMySQLTimestamp endDate;
                 pay_durationHours := durationHours;
                 paymentMethod := paymentMethodValue;
                 pay_vehiclePlate := Some (trim (vehiclePlate page)) |}
  end end end end end.

(** The request that a click on the pay button puts on the wire, if any. *)
Definition handlePayment_request (page : PaymentPage) : option Request :=
  match handlePayment_payload page with
  | inl _ => None
  | inr payload => Some (processPayment_request payload)
  end.

(** [handlePayment]: the status line it leaves.  On success the page also
    records the booking and navigates to the bookings list. *)
Definition handlePayment (page : PaymentPage) : string :=
  match handlePayment_payload page with
  | inl refused => refused
  | inr payload =>
      match processPayment api payload with
      | inr paymentResult => "✅ Payment successful! Redirecting..."
      | inl err => ("❌ " ++ ToString (err_message err))%string
      end
  end.

End Pages.

(** ** The rest of the service layer *)

(** A garage as [fetchGarages], [searchPlaces] and [fetchGarage] build it.
    [name], [description], [address] and [city] are the backend's values
    when they are truthy, whatever their type. *)
Module GarageData.
Record Location : Type := mkLocation {
  lat : JsNum;
  lng : JsNum;
  address : JsVal;
  city : JsVal
}.

Record t : Type := mk {
  id : string;
  name : JsVal;
  description : JsVal;
  image : JsVal;
  rating : option JsNum;
  pricePerHour : JsNum;
  amenities : list JsVal;
  totalSlots : JsNum;
  availableSlots : JsNum;
  location : Location;
  floors : JsVal
}.
End GarageData.

(** The argument of [createBooking], a [Partial<Booking>]: every field may
    be missing. *)
Module Draft.
Record t : Type := mk {
  garageId : option string;
  slotId : option string;
  userId : option string;
  vehiclePlate : option string;
  totalPrice : option JsNum;
  time : option Booking.Time
}.
End Draft.

(** [{...booking, status}] *)
Definition set_status (b : Booking.t) (s : JsVal) : Booking.t :=
  {| Booking.id := Booking.id b;
     Booking.garageId := Booking.garageId b;
     Booking.userId := Booking.userId b;
     Booking.slotId := Booking.slotId b;
     Booking.status := s;
     Booking.totalPrice := Booking.totalPrice b;
     Booking.vehiclePlate := Booking.vehiclePlate b;
     Booking.time := Booking.time b;
     Booking.place := Booking.place b;
     Booking.garage := Booking.garage b |}.

(** [!s] for an optional string: missing or empty. *)
Definition missing (s : option string) : bool :=
  match s with
  | Some x => (x =? "")%string
  | None => true
  end.

Definition text_or_empty (s : option string) : string :=
  match s with Some x => x | None => "" end.

(** The calls; a GET carries its query parameters where another call
    carries its body. *)
Definition garages_request (params : JsVal) : Request :=
  mkRequest GET "/garages" params.

Definition search_request (name : string) : Request :=
  mkRequest GET "/garages/search" (JObj [("name", JStr name)]).

Definition garage_request (id : string) : Request :=
  mkRequest GET ("/garages/" ++ id)%string JUndefined.

Definition reserve_request (placeId slotId : string) (payload : JsVal)
  : Request :=
  mkRequest POST
    ("/garages/" ++ placeId ++ "/parking/" ++ slotId ++ "/reserve")%string
    payload.

Definition release_request (placeId slotId : string) : Request :=
  mkRequest POST
    ("/garages/" ++ placeId ++ "/parking/" ++ slotId ++ "/release")%string
    JUndefined.

Section ApiRest.

Variable E : Engine.
Variable api : Transport.

(** *** Garages *)

(** The image of a garage in [fetchGarages] and [fetchGarage]: nine field
    names, then [null]. *)
Definition garage_image (garage : JsVal) : JsVal :=
  garage @. "image" <||> garage @. "image_url" <||> garage @. "imageUrl"
  <||> garage @. "photo" <||> garage @. "photo_url" <||> garage @. "photoUrl"
  <||> garage @. "picture" <||> garage @. "picture_url" <||> garage @. "img"
  <||> JNull.

(** The image of a garage in [searchPlaces]: seven field names, then
    [undefined]. *)
Definition garage_image_search (garage : JsVal) : JsVal :=
  garage @. "image" <||> garage @. "image_url" <||> garage @. "imageUrl"
  <||> garage @. "photo" <||> garage @. "photo_url"
  <||> garage @. "picture" <||> garage @. "img"
  <||> JUndefined.

(** The object literal that the three functions return, which differs
    between them by the image only. *)
Definition garage_of (garage imageUrl : JsVal) : GarageData.t :=
  {| GarageData.id := ToString (garage @. "id");
     GarageData.name := garage @. "name" <||> JStr "";
     GarageData.description := garage @. "description" <||> JStr "";
     GarageData.image := imageUrl;
     GarageData.rating :=
       if truthy (garage @. "rating")
       then Some (ToNumber E (garage @. "rating")) else None;
     GarageData.pricePerHour :=
       ToNumber E (garage @. "pricePerHour" <||> garage @. "price_per_hour"
                   <||> JNum 0);
     GarageData.amenities :=
       if isArray (garage @. "amenities") then items_of (garage @. "amenities")
       else [];
     GarageData.totalSlots :=
       ToNumber E (garage @. "totalSlots" <||> garage @. "total_slots"
                   <||> JNum 0);
     GarageData.availableSlots :=
       ToNumber E (garage @. "availableSlots" <||> garage @. "available_slots"
                   <||> garage @. "real_available_slots" <||> JNum 0);
     GarageData.location :=
       {| GarageData.lat :=
            ToNumber E (garage @. "location" @? "lat" <||> garage @. "latitude"
                        <||> JNum 0);
          GarageData.lng :=
            ToNumber E (garage @. "location" @? "lng" <||> garage @. "longitude"
                        <||> JNum 0);
          GarageData.address :=
            garage @. "location" @? "address" <||> garage @. "address"
            <||> JStr "";
          GarageData.city :=
            garage @. "location" @? "city" <||> garage @. "city"
            <||> JUndefined |};
     GarageData.floors := garage @. "floors" <||> JUndefined |}.

(** The mapping of one raw garage; its first read, [garage.image], throws
    on [null] and [undefined]. *)
Definition normalizeGarage (garage : JsVal) : Exc GarageData.t :=
  read E garage "image" ;;;
  ret (garage_of garage (garage_image garage)).

Definition normalizeGarage_search (garage : JsVal) : Exc GarageData.t :=
  read E garage "image" ;;;
  ret (garage_of garage (garage_image_search garage)).

(** [rawData.map(f)]: [rawData] is whatever the backend sent, and only an
    array has a [map]. *)
Definition array_map {B} (rawData : JsVal) (f : JsVal -> Exc B)
  : Exc (list B) :=
  match rawData with
  | JArr l => mapM f l
  | JUndefined | JNull => throw (Error (nullReadMessage E rawData "map"))
  | _ => throw (Error (notFunctionMessage E rawData "map"))
  end.

Definition fetchGarages (params : JsVal) : Exc (list GarageData.t) :=
  try_catch
    (response <- api (garages_request params) ;;
     array_map (extractData response) normalizeGarage)
    rethrow.

Definition searchPlaces (name : string) : Exc (list GarageData.t) :=
  try_catch
    (response <- api (search_request name) ;;
     array_map (extractData response) normalizeGarage_search)
    rethrow.

Definition fetchGarage (id : string) : Exc GarageData.t :=
  try_catch
    (response <- api (garage_request id) ;;
     normalizeGarage (extractData response))
    rethrow.

(** *** One slot, reserving and releasing *)

(** [fetchParkingSlot]: the first slot of the garage with the given id. *)
Definition fetchParkingSlot (placeId slotId : string) : Exc Slot.t :=
  try_catch
    (slots <- fetchParkingSlots E api placeId ;;
     match find (fun s => (Slot.id s =? slotId)%string) slots with
     | Some slot => ret slot
     | None => throw (Error "Slot not found")
     end)
    rethrow.

(** [reserveSlot]: the payload of the answer, under a type cast. *)
Definition reserveSlot (placeId slotId : string) (payload : JsVal)
  : Exc JsVal :=
  try_catch
    (response <- api (reserve_request placeId slotId payload) ;;
     ret (extractData response))
    rethrow.

Definition releaseSlot (placeId slotId : string) : Exc unit :=
  try_catch
    (api (release_request placeId slotId) ;;;
     ret tt)
    rethrow.

(** The object literal that [createBooking] hands to [reserveSlot]. *)
Definition reserve_payload (payload : Draft.t) : JsVal :=
  JObj [("vehiclePlate", json_of_optional (Draft.vehiclePlate payload));
        ("durationHours",
         match Draft.time payload with
         | Some t => json_of_JsNum (Booking.durationHours t)
         | None => JUndefined
         end)].

Definition createBooking (payload : Draft.t) : Exc JsVal :=
  try_catch
    (if missing (Draft.garageId payload) || missing (Draft.slotId payload)
     then throw (Error "Garage ID and Slot ID are required")
     else reserveSlot (text_or_empty (Draft.garageId payload))
                      (text_or_empty (Draft.slotId payload))
                      (reserve_payload payload))
    rethrow.

(** [fetchActiveBooking], deprecated, is [fetchBookingById]. *)
Definition fetchActiveBooking (id : string) : Exc Booking.t :=
  fetchBookingById E api id.

Definition cancelBooking (id : string) : Exc Booking.t :=
  try_catch
    (booking <- fetchActiveBooking id ;;
     releaseSlot (Booking.garageId booking) (Booking.slotId booking) ;;;
     ret (set_status booking (JStr "cancelled")))
    rethrow.

(** [fetchSlots] throws before it sends anything. *)
Definition fetchSlots (floorId : string) : Exc (list Slot.t) :=
  try_catch
    (throw (Error "fetchSlots by floorId alone is not supported. Use fetchParkingSlots with garageId instead."))
    rethrow.

End ApiRest.

(** ** The session across page loads *)

(** The browser around the client: what [Session] holds, the
    [sessionStorage] copy of the token, and the address the window was last
    sent to. *)
Record Browser : Type := mkBrowser {
  local : Session;
  session_token : option string;
  location_href : option string
}.

(** [localStorage.getItem("auth_token") || sessionStorage.getItem("auth_token")] *)
Definition stored_token (b : Browser) : option string :=
  if missing (auth_token (local b)) then session_token b
  else auth_token (local b).

(** [token && token !== "undefined" && token !== "null"] *)
Definition usable (token : option string) : bool :=
  match token with
  | Some t =>
      negb (t =? "")%string && negb (t =? "undefined")%string
      && negb (t =? "null")%string
  | None => false
  end.

Definition bearer (token : string) : string := ("Bearer " ++ token)%string.

Definition set_authorization (s : Session) (header : option string) : Session :=
  mkSession (auth_token s) (stored_user s) header.

(** [hydrateAuthToken], run when the module is loaded. *)
Definition hydrateAuthToken (b : Browser) : Browser :=
  if usable (stored_token b)
  then mkBrowser (set_authorization (local b)
                    (Some (bearer (text_or_empty (stored_token b)))))
                 (session_token b) (location_href b)
  else b.

(** A page load: the module starts with no default header, then hydrates. *)
Definition page_load (b : Browser) : Browser :=
  hydrateAuthToken
    (mkBrowser (set_authorization (local b) None)
               (session_token b) (location_href b)).

(** The request interceptor, on the [Authorization] header of the
    configuration it is given. *)
Definition requestInterceptor (b : Browser) (header : option string)
  : option string :=
  if usable (stored_token b)
  then Some (bearer (text_or_empty (stored_token b)))
  else header.

(** The [Authorization] header of a call that sets none itself: the
    default header, as the request interceptor leaves it. *)
Definition outgoing_authorization (b : Browser) : option string :=
  requestInterceptor b (authorization (local b)).

(** [error.response?.status === 401] *)
Definition is_401 (error : JsError) : bool :=
  match error with
  | AxiosError (Some r) _ _ => status r =? 401
  | _ => false
  end.

(** The response interceptor on a rejection: on a 401 both copies of the
    token and the user are removed and the window is sent to [/login]; the
    default header is left as it is.  The rejection goes on to the
    caller. *)
Definition responseInterceptor (error : JsError) (b : Browser) : Browser :=
  if is_401 error
  then mkBrowser (mkSession None None (authorization (local b)))
                 None (Some "/login")
  else b.

(** What [logout] and [deleteProfile] leave: no token, no user, no default
    header. *)
Definition cleared (b : Browser) : Browser :=
  mkBrowser anonymous None (location_href b).

(** The argument of [register]. *)
Record Registration : Type := mkRegistration {
  reg_name : string;
  reg_email : string;
  reg_password : string
}.

Definition register_request (payload : Registration) : Request :=
  mkRequest POST "/register"
    (JObj [("name", JStr (reg_name payload));
           ("email", JStr (reg_email payload));
           ("password", JStr (reg_password payload))]).

Definition logout_request (token : option string) : Request :=
  mkRequest DELETE ("/logout/" ++ text_or_empty token)%string JUndefined.

Definition delete_profile_request (userId : string) : Request :=
  mkRequest DELETE ("/profile/" ++ userId)%string JUndefined.

Definition refresh_request : Request := mkRequest POST "/auth/refresh" JUndefined.

Section SessionManager.

Variable E : Engine.
Variable api : Transport.

(** A call on the axios instance with the response interceptor in place. *)
Definition api_call (request : Request) (b : Browser)
  : Browser * Exc Response :=
  match api request with
  | inr response => (b, inr response)
  | inl error => (responseInterceptor error b, inl error)
  end.

(** [logout]: the answer of the server is logged and dropped; the
    [finally] clears everything. *)
Definition logout (b : Browser) : Browser * Exc unit :=
  let (b', _) := api_call (logout_request (auth_token (local b))) b in
  (cleared b', ret tt).

(** [deleteProfile]: cleared only once the server has accepted. *)
Definition deleteProfile (userId : string) (b : Browser)
  : Browser * Exc unit :=
  match api_call (delete_profile_request userId) b with
  | (b', inr _) => (cleared b', ret tt)
  | (b', inl error) => (b', rethrow error)
  end.

(** The flexible user extraction of [register]; the last place is not
    asked to hold an object. *)
Definition register_rawUser (extractedData : JsVal) : JsVal :=
  if is_user_object (extractedData @. "user") then extractedData @. "user"
  else if is_user_object (extractedData @. "0") then extractedData @. "0"
  else if truthy (extractedData @. "data" @? "user")
  then extractedData @. "data" @? "user"
  else JNull.

Definition register_normalizedUser (rawUser : JsVal) (payload : Registration)
  : User.t :=
  {| User.id := ToString (rawUser @. "id" <||> rawUser @. "user_id" <||> JStr "");
     User.name := ToString (rawUser @. "name" <||> rawUser @. "full_name"
                            <||> rawUser @. "username"
                            <||> JStr (reg_name payload));
     User.email := ToString (rawUser @. "email" <||> JStr (reg_email payload));
     User.phone := rawUser @. "phone" <||> rawUser @. "phone_number" <||> JUndefined;
     User.avatarUrl := rawUser @. "avatarUrl" <||> rawUser @. "avatar_url"
                       <||> rawUser @. "avatar" <||> JUndefined;
     User.role := rawUser @. "role" <||> rawUser @. "user_role" <||> JStr "user" |}.

Definition register_token (extractedData : JsVal) : option string :=
  if truthy (extractedData @. "token")
  then Some (ToString (extractedData @. "token"))
  else if truthy (extractedData @. "access_token")
  then Some (ToString (extractedData @. "access_token"))
  else if truthy (extractedData @. "data" @? "token")
  then Some (ToString (extractedData @. "data" @? "token"))
  else None.

(** What [register] makes of a response: the user, and the token if one
    was found. *)
Definition register_response (payload : Registration) (response : Response)
  : Exc (User.t * option string) :=
  let extractedData := extractData response in
  read E extractedData "user" ;;;
  let rawUser := register_rawUser extractedData in
  if negb (truthy rawUser)
  then throw (Error "Registration failed: No user data received")
  else ret (register_normalizedUser rawUser payload,
            register_token extractedData).

(** [register]: the token and the user are stored when the token is
    usable; a failure is re-thrown and clears nothing. *)
Definition register (payload : Registration) (b : Browser)
  : Browser * Exc User.t :=
  match api_call (register_request payload) b with
  | (b', inl error) => (b', rethrow error)
  | (b', inr response) =>
      match register_response payload response with
      | inl error => (b', rethrow error)
      | inr (normalizedUser, token) =>
          (if usable token
           then mkBrowser
                  (mkSession token (Some normalizedUser)
                             (Some (bearer (text_or_empty token))))
                  (session_token b') (location_href b')
           else b',
           ret normalizedUser)
      end
  end.

(** [refresh]: [data.token] is stored as the text it prints to, checked
    by nothing. *)
Definition refresh (b : Browser) : Browser * Exc JsVal :=
  match api_call refresh_request b with
  | (b', inl error) => (b', rethrow error)
  | (b', inr response) =>
      let data := extractData response in
      match read E data "token" with
      | inl error => (b', rethrow error)
      | inr token =>
          (mkBrowser
             (mkSession (Some (ToString token)) (stored_user (local b'))
                        (Some (bearer (ToString token))))
             (session_token b') (location_href b'),
           ret data)
      end
  end.

(** [login] in the browser: the response interceptor sees the answer
    first; [login] then writes [localStorage] and the default header, and
    nothing else. *)
Definition login_in (payload : JsVal) (b : Browser)
  : Browser * Exc (User.t * string) :=
  let b' := fst (api_call (login_request payload) b) in
  let (s, result) := login E api payload (local b') in
  (mkBrowser s (session_token b') (location_href b'), result).

End SessionManager.

(** ** The pages around the listings *)

(** [err.message] *)
Definition message_of (err : JsError) : string :=
  match err with
  | AxiosError _ _ message => message
  | Error message => message
  end.

(** *** The bookings page *)

Record BookingsPage : Type := mkBookingsPage {
  currentBookings : list Booking.t;
  pastBookings : list Booking.t;
  bookings_loading : bool;
  bookings_error : option string
}.

(** [handleCancel]: the first current booking with the given id goes to the
    end of the past bookings, as cancelled; every current booking with the
    id leaves the current ones.  Nothing is asked of the backend. *)
Definition handleCancel (id : string) (page : BookingsPage) : BookingsPage :=
  let prev := currentBookings page in
  mkBookingsPage
    (filter (fun b => negb (Booking.id b =? id)%string) prev)
    (match find (fun b => (Booking.id b =? id)%string) prev with
     | Some cancelled =>
         pastBookings page ++ [set_status cancelled (JStr "cancelled")]
     | None => pastBookings page
     end)
    (bookings_loading page)
    (bookings_error page).

(** *** The active-booking page *)

Record ActiveBookingPage : Type := mkActiveBookingPage {
  ab_booking : option Booking.t;
  ab_garage : option GarageData.t;
  ab_slot : option Slot.t;
  ab_statusMessage : string;
  ab_error : option string;
  ab_loading : bool
}.

(** *** The home page *)

Record HomePage : Type := mkHomePage {
  home_garages : list GarageData.t;
  selectedGarage : option GarageData.t;
  selectedGarageSlots : list Slot.t;
  selectedSlot : option Slot.t;
  home_loading : bool;
  loadingSlots : bool;
  home_error : option string
}.

Section ListingPages.

Variable E : Engine.
Variable api : Transport.

(** [loadBookings] of the bookings page. *)
Definition loadBookings (page : BookingsPage) : BookingsPage :=
  match fetchUserBookings E api with
  | inr buckets => mkBookingsPage (current buckets) (past buckets) false None
  | inl err =>
      mkBookingsPage [] [] false
        (Some (if (message_of err =? "")%string
               then "Failed to load bookings" else message_of err))
  end.

Definition not_found_text (id : string) : string :=
  ("Booking #" ++ id
   ++ " not found. It may have been cancelled or does not exist.")%string.

(** The garage and the slot of the active booking: each is fetched inside
    its own [try], and a failure leaves what the page had. *)
Definition load_details (active : Booking.t) (page : ActiveBookingPage)
  : option GarageData.t * option Slot.t :=
  if (Booking.garageId active =? "")%string
  then (ab_garage page, ab_slot page)
  else
    match fetchGarage E api (Booking.garageId active) with
    | inl _ => (ab_garage page, ab_slot page)
    | inr details =>
        (Some details,
         if (Booking.slotId active =? "")%string then ab_slot page
         else
           match fetchParkingSlot E api (Booking.garageId active)
                                  (Booking.slotId active) with
           | inr slotDetails => Some slotDetails
           | inl _ => ab_slot page
           end)
    end.

(** [load] of the active-booking page, for the [id] of the route. *)
Definition load (id : option string) (page : ActiveBookingPage)
  : ActiveBookingPage :=
  if missing id
  then mkActiveBookingPage (ab_booking page) (ab_garage page) (ab_slot page)
         (ab_statusMessage page) (Some "No booking ID provided") false
  else
    match fetchBookingById E api (text_or_empty id) with
    | inr active =>
        let (garage, slot) := load_details active page in
        mkActiveBookingPage (Some active) garage slot
          ("Booking Status: " ++ ToString (Booking.status active))%string
          None false
    | inl err =>
        let errorMessage := message_of err in
        mkActiveBookingPage (ab_booking page) (ab_garage page) (ab_slot page)
          (ab_statusMessage page)
          (Some (if includes errorMessage "404"
                    || includes errorMessage "not found"
                 then not_found_text (text_or_empty id)
                 else errorMessage))
          false
    end.

(** [handleGarageSelect] of the home page: a failure to fetch the slots is
    logged and leaves the list empty. *)
Definition handleGarageSelect (garage : option GarageData.t) (page : HomePage)
  : HomePage :=
  mkHomePage (home_garages page) garage
    (match garage with
     | Some g =>
         match fetchParkingSlots E api (GarageData.id g) with
         | inr slots => slots
         | inl _ => []
         end
     | None => []
     end)
    None (home_loading page)
    (match garage with Some _ => false | None => loadingSlots page end)
    (home_error page).

(** [loadGarages] of the home page, with the [search] of the form. *)
Definition loadGarages (search : option string) (page : HomePage) : HomePage :=
  match fetchGarages E api (JObj [("q", json_of_optional search)]) with
  | inr list =>
      let listed :=
        mkHomePage list (selectedGarage page) (selectedGarageSlots page)
                   (selectedSlot page) true (loadingSlots page) None in
      let selected :=
        match list with
        | firstGarage :: _ => handleGarageSelect (Some firstGarage) listed
        | [] => listed
        end in
      mkHomePage (home_garages selected) (selectedGarage selected)
                 (selectedGarageSlots selected) (selectedSlot selected)
                 false (loadingSlots selected) (home_error selected)
  | inl err =>
      mkHomePage (home_garages page) (selectedGarage page)
                 (selectedGarageSlots page) (selectedSlot page)
                 false (loadingSlots page) (Some (message_of err))
  end.

End ListingPages.

(** ** An engine to run the model on examples

    Decimal integers for [Number(s)], V8's wording for the two
    [TypeError]s, a clock stopped at the start of 2024, the UTC calendar,
    an axios whose errors carry the status of their response, and V8's
    order for a sort under an inconsistent comparator. *)

Definition exampleStringToNumber (s : string) : JsNum :=
  if (s =? "")%string then Fin 0
  else match NilZero.int_of_string s with
       | Some i => Fin (Z.of_int i)
       | None => NaN
       end.

(** Year, month (from 1) and day of the day [days] after 1970-01-01. *)
Definition civil_from_days (days : Z) : Z * Z * Z :=
  let z := days + 719468 in
  let era := z / 146097 in
  let doe := z - era * 146097 in
  let yoe := (doe - doe / 1460 + doe / 36524 - doe / 146096) / 365 in
  let doy := doe - (365 * yoe + yoe / 4 - yoe / 100) in
  let mp := (5 * doy + 2) / 153 in
  let d := doy - (153 * mp + 2) / 5 + 1 in
  let m := if mp <? 10 then mp + 3 else mp - 9 in
  (yoe + era * 400 + (if m <=? 2 then 1 else 0), m, d).

Definition on_time (f : Z -> Z) (t : JsNum) : JsNum :=
  match t with Fin ms => Fin (f ms) | NaN => NaN end.

(** The order of V8 on an array of fewer than 64 elements, which its
    TimSort treats as one run: the leading run, ascending or strictly
    descending, is found and put in ascending order, and every later
    element is placed in it by binary search.  Elements are paired with
    the position they had. *)
Definition key_compare (a b : nat * JsNum) : Z :=
  level_compare (snd a) (snd b).

Fixpoint run_length (descending : bool) (previous : nat * JsNum)
                    (l : list (nat * JsNum)) : nat :=
  match l with
  | [] => 0%nat
  | current :: rest =>
      let order := key_compare current previous in
      if (if descending then 0 <=? order else order <? 0) then 0%nat
      else S (run_length descending current rest)
  end.

Fixpoint binary_search (fuel : nat) (pivot : nat * JsNum)
                       (run : list (nat * JsNum)) (left right : nat) : nat :=
  match fuel with
  | O => left
  | S fuel' =>
      if (left <? right)%nat then
        let mid := (left + (right - left) / 2)%nat in
        if key_compare pivot (nth mid run pivot) <? 0
        then binary_search fuel' pivot run left mid
        else binary_search fuel' pivot run (mid + 1)%nat right
      else left
  end.

Definition binary_insert (run : list (nat * JsNum)) (pivot : nat * JsNum)
  : list (nat * JsNum) :=
  let left :=
    binary_search (S (List.length run)) pivot run 0%nat (List.length run) in
  firstn left run ++ pivot :: skipn left run.

Definition short_sort (l : list (nat * JsNum)) : list (nat * JsNum) :=
  match l with
  | first :: second :: rest =>
      let descending := key_compare second first <? 0 in
      let n := (2 + run_length descending second rest)%nat in
      let run := firstn n l in
      fold_left binary_insert (skipn n l)
                (if descending then rev run else run)
  | _ => l
  end.

Fixpoint position (i : nat) (l : list nat) : Z :=
  match l with
  | [] => 0
  | j :: rest => if (i =? j)%nat then 0 else 1 + position i rest
  end.

Definition exampleSortRanks (keys : list JsNum) : list Z :=
  let positions := seq 0 (List.length keys) in
  let sorted := map fst (short_sort (combine positions keys)) in
  map (fun i => position i sorted) positions.

Definition exampleEngine : Engine :=
  {| StringToNumber := exampleStringToNumber;
     nullReadMessage := fun v k =>
       ("Cannot read properties of " ++ ToString v
        ++ " (reading '" ++ k ++ "')")%string;
     notFunctionMessage := fun _ m => (m ++ " is not a function")%string;
     nowISO := "2024-01-01T00:00:00.000Z";
     nowTime := 1704067200000;
     getFullYear := on_time (fun ms => fst (fst (civil_from_days (ms / 86400000))));
     getMonth := on_time (fun ms => snd (fst (civil_from_days (ms / 86400000))) - 1);
     getDate := on_time (fun ms => snd (civil_from_days (ms / 86400000)));
     getHours := on_time (fun ms => (ms / 3600000) mod 24);
     getMinutes := on_time (fun ms => (ms / 60000) mod 60);
     getSeconds := on_time (fun ms => (ms / 1000) mod 60);
     axiosErrorStatus := fun response =>
       match response with
       | Some r => JNum (status r)
       | None => JUndefined
       end;
     sortRanks := exampleSortRanks |}.

(** A backend that answers every request with the same response. *)
Definition always (response : Response) : Transport := fun _ => inr response.

(** A backend that rejects every request with the same error. *)
Definition always_rejects (error : JsError) : Transport := fun _ => inl error.

(** ** The vocabulary of the statements *)

(** Strictly ascending levels. *)
Definition JsNum_lt (a b : JsNum) : Prop :=
  match a, b with
  | Fin x, Fin y => x < y
  | _, _ => False
  end.

(** The slots of a level. *)
Definition at_level (level : JsNum) (s : Slot.t) : bool :=
  JsNum_eqb level (Slot.level s).

(** The two shapes of C7: the user and the token two levels under [data],
    and the user and the token at the top. *)
Definition nested_login_body (u t : JsVal) : JsVal :=
  JObj [("data", JObj [("data", JObj [("user", u); ("token", t)])])].

Definition flat_login_body (u t : JsVal) : JsVal :=
  JObj [("user", u); ("token", t)].

(** ** Payloads for the examples *)

(** The failing input of C1: one active and one completed booking, sent as
    a flat list. *)
Definition flat_bookings : JsVal :=
  JArr [JObj [("id", JNum 1); ("status", JStr "active")];
        JObj [("id", JNum 2); ("status", JStr "completed")]].

(** The failing input of C2: status 400, body
    [{message: "Booking already completed"}]. *)
Definition already_completed : JsError :=
  AxiosError
    (Some (mkResponse 400 (JObj [("message", JStr "Booking already completed")])))
    (Some "ERR_BAD_REQUEST") "Request failed with status code 400".

Definition a_booking : Booking.t :=
  {| Booking.id := "9";
     Booking.garageId := "G1";
     Booking.userId := "U1";
     Booking.slotId := "S1";
     Booking.status := JStr "active";
     Booking.totalPrice := Fin 10;
     Booking.vehiclePlate := "ABC 123";
     Booking.time :=
       {| Booking.start := JStr "2024-01-01 00:00:00";
          Booking.end_ := JStr "2024-01-01 02:00:00";
          Booking.durationHours := Fin 2 |};
     Booking.place := None;
     Booking.garage := None |}.

Definition a_raw_user : JsVal :=
  JObj [("id", JNum 4); ("full_name", JStr "Mona"); ("email", JStr "mona@example.org")].

Definition a_payment_page (chosen : string) : PaymentPage :=
  {| locationState :=
       Some {| ls_booking := Some a_booking;
               ls_price := Some (Fin 10);
               ls_totalPrice := None;
               ls_garage := Some (Garage.mk "G1" "Central Garage");
               ls_slot := Some (Slot.mk "S1" "A1" Slot.available (Fin 0)
                                        Slot.standard (Fin 5));
               ls_duration := JNum 2 |};
     activeBooking := None;
     currentUser := Some (User.mk "U1" "Mona" "mona@example.org"
                                  JUndefined JUndefined (JStr "user"));
     vehiclePlate := " ABC 123 ";
     method_ := chosen |}.

Definition a_payment_request (sent : string) : Request :=
  mkRequest POST "/bookings/pay"
    (JObj [("parking_spot_id", JStr "S1");
           ("garage_id", JStr "G1");
           ("user_id", JStr "U1");
           ("total_amount", JNum 10);
           ("start_time", JStr "2024-01-01 00:00:00");
           ("end_time", JStr "2024-01-01 02:00:00");
           ("duration_hours", JNum 2);
           ("payment_method", JStr sent);
           ("vehicle_plate", JStr "ABC 123")]).

Definition slot_of_status (status : Slot.Status) : Slot.t :=
  {| Slot.id := "slot-1";
     Slot.number := "1";
     Slot.status := status;
     Slot.level := Fin 0;
     Slot.vehicleSize := Slot.standard;
     Slot.pricePerHour := Fin 5 |}.

Definition a_user_without_id : Response :=
  mkResponse 200
    (JObj [("user", JObj [("email", JStr "mona@example.org")]);
           ("token", JStr "abc")]).

Definition a_booking_without_garage : Response :=
  mkResponse 200 (JObj [("booking", JObj [("id", JNum 5)])]).

Definition a_slot_payload (level : Z) (status : string) : JsVal :=
  JObj [("level", JNum level); ("status", JStr status)].

(** Four slots, at levels 2, 0, 1 and 0, out of order. *)
Definition four_slots : Response :=
  mkResponse 200
    (JObj [("data",
            JArr [a_slot_payload 2 "free"; a_slot_payload 0 "reserved";
                  a_slot_payload 1 "booked"; a_slot_payload 0 "available"])]).

Definition four_slots_normalized : list Slot.t :=
  [Slot.mk "slot-1" "1" Slot.available (Fin 2) Slot.standard (Fin 5);
   Slot.mk "slot-2" "2" Slot.reserved (Fin 0) Slot.standard (Fin 5);
   Slot.mk "slot-3" "3" Slot.occupied (Fin 1) Slot.standard (Fin 5);
   Slot.mk "slot-4" "4" Slot.available (Fin 0) Slot.standard (Fin 5)].

(** The failing input of C5: three slots, at the levels 2, "B1" and 1. *)
Definition slots_with_a_named_level : Response :=
  mkResponse 200
    (JArr [JObj [("level", JNum 2)]; JObj [("level", JStr "B1")];
           JObj [("level", JNum 1)]]).

(** ** More vocabulary and payloads

    For the properties of the code around the claims. *)

(** [list.reduce((a, b) => a + b, 0)] *)
Definition sum_Z (l : list Z) : Z := fold_right Z.add 0 l.

Definition a_404 : JsError :=
  AxiosError (Some (mkResponse 404 (JStr "<html>Not Found</html>")))
             (Some "ERR_BAD_REQUEST") "Request failed with status code 404".

Definition a_timeout : JsError :=
  AxiosError None (Some "ECONNABORTED") "timeout of 15000ms exceeded".

Definition raw_slots_without_ids : Response :=
  mkResponse 200
    (JArr [JObj [("number", JStr "A1")];
           JObj [("number", JStr "A2"); ("is_booked", JBool true)];
           JObj [("number", JStr "A3"); ("level", JNum 1)]]).

Definition slots_without_ids : list Slot.t :=
  [Slot.mk "slot-1" "A1" Slot.available (Fin 0) Slot.standard (Fin 5);
   Slot.mk "slot-2" "A2" Slot.occupied (Fin 0) Slot.standard (Fin 5);
   Slot.mk "slot-3" "A3" Slot.available (Fin 1) Slot.standard (Fin 5)].

Definition a_free_slot_payload : JsVal :=
  JObj [("id", JNum 12); ("level", JNum 0); ("floor", JNum 3);
        ("price", JNum 0); ("status", JStr "Maintenance");
        ("is_booked", JBool true)].

Definition a_draft : Draft.t :=
  {| Draft.garageId := Some "G1";
     Draft.slotId := Some "S1";
     Draft.userId := Some "U1";
     Draft.vehiclePlate := Some "ABC 123";
     Draft.totalPrice := Some (Fin 10);
     Draft.time := Some (Booking.time a_booking) |}.

Definition a_draft_without_slot : Draft.t :=
  {| Draft.garageId := Some "G1";
     Draft.slotId := None;
     Draft.userId := Some "U1";
     Draft.vehiclePlate := Some "ABC 123";
     Draft.totalPrice := Some (Fin 10);
     Draft.time := None |}.

(** A backend with one booking, number 9, in garage 3 on slot 4, which
    accepts the release of that slot and rejects every other call. *)
Definition a_backend_with_a_booking : Transport :=
  fun request =>
    if (url request =? "/bookings/9")%string
    then inr (mkResponse 200
                (JObj [("data",
                        JObj [("id", JNum 9); ("garage_id", JNum 3);
                              ("slot_id", JNum 4);
                              ("status", JStr "active")])]))
    else if (url request =? "/garages/3/parking/4/release")%string
    then inr (mkResponse 200 (JObj [("message", JStr "released")]))
    else inl a_404.

Definition the_booking_of_the_backend : Booking.t :=
  {| Booking.id := "9";
     Booking.garageId := "3";
     Booking.userId := "";
     Booking.slotId := "4";
     Booking.status := JStr "active";
     Booking.totalPrice := Fin 0;
     Booking.vehiclePlate := "N/A";
     Booking.time :=
       {| Booking.start := JStr "2024-01-01T00:00:00.000Z";
          Booking.end_ := JStr "2024-01-01T00:00:00.000Z";
          Booking.durationHours := Fin 1 |};
     Booking.place := None;
     Booking.garage := None |}.

Definition mona : User.t :=
  {| User.id := "4";
     User.name := "Mona";
     User.email := "mona@example.org";
     User.phone := JUndefined;
     User.avatarUrl := JUndefined;
     User.role := JStr "user" |}.

(** A browser in which Mona is logged in with the token [abc]. *)
Definition a_logged_in_browser : Browser :=
  mkBrowser (mkSession (Some "abc") (Some mona) (Some "Bearer abc"))
            None None.

(** A browser whose [localStorage] holds the text [undefined] for a token,
    next to a good token in [sessionStorage]. *)
Definition a_browser_with_a_placeholder : Browser :=
  mkBrowser (mkSession (Some "undefined") None None) (Some "xyz") None.

Definition a_fresh_browser : Browser := mkBrowser anonymous None None.

Definition a_401 : JsError :=
  AxiosError (Some (mkResponse 401 (JObj [("message", JStr "Unauthenticated.")])))
             (Some "ERR_BAD_REQUEST") "Request failed with status code 401".

Definition a_500 : JsError :=
  AxiosError (Some (mkResponse 500 (JObj [])))
             (Some "ERR_BAD_RESPONSE") "Request failed with status code 500".

Definition a_registration : Registration :=
  mkRegistration "Mona" "mona@example.org" "secret".

Definition a_registered_answer : Response :=
  mkResponse 201
    (JObj [("user", JObj [("id", JNum 4)]); ("token", JStr "null")]).

Definition a_raw_garage : JsVal :=
  JObj [("id", JNum 3); ("name", JStr "Central Garage");
        ("photoUrl", JStr "/img/central.png"); ("price_per_hour", JNum 5);
        ("latitude", JNum 30); ("longitude", JNum 31)].

Definition a_bucketed_answer : Response :=
  mkResponse 200
    (JObj [("current",
            JArr [JObj [("id", JNum 1); ("status", JStr "completed")]]);
           ("past", JArr [])]).

Definition a_booking_without_id : Response :=
  mkResponse 200 (JObj [("booking", JObj [("garage_id", JNum 3)])]).

(** [/^\d+$/] *)
Definition all_digits (s : string) : bool :=
  negb (s =? "")%string && forallb is_digit (list_ascii_of_string s).

Definition digits_of_length (n : nat) (s : string) : bool :=
  (String.length s =? n)%nat && all_digits s.

(** [P] on the [n] integers from [lo] on. *)
Fixpoint all_from (P : Z -> bool) (lo : Z) (n : nat) : bool :=
  match n with
  | O => true
  | S n' => P lo && all_from P (lo + 1) n'
  end.

Definition a_bookings_page : BookingsPage :=
  mkBookingsPage [a_booking; the_booking_of_the_backend] [] false None.

Definition a_blank_active_page : ActiveBookingPage :=
  mkActiveBookingPage None None None "Connecting to live updates..." None true.

Definition a_blank_home : HomePage :=
  mkHomePage [] None [] None true false None.

(** A backend that lists one garage and fails on everything else. *)
Definition a_backend_with_a_garage : Transport :=
  fun request =>
    if (url request =? "/garages")%string
    then inr (mkResponse 200 (JArr [a_raw_garage]))
    else inl a_500.

(** * Properties *)

(** ** Bookings listing *)

(** C1, as the code has it: when the payload of the bookings listing is a
    flat list of bookings, [fetchUserBookings] does not partition it.  An
    array is an object for [typeof], so the list is taken for the
    [{current, past}] format, has neither property, and both buckets come
    back empty, whatever the statuses of the bookings in the list. *)
Theorem fetchUserBookings_flat_list_is_dropped
  (E : Engine) (api : Transport) (response : Response) (l : list JsVal) :
  api bookings_request = inr response ->
  extractData response = JArr l ->
  fetchUserBookings E api = inr (mkBuckets [] []).
Proof.
  intros Hapi Hraw.
  unfold fetchUserBookings, fetchUserBookings_try, bookings_request in *.
  rewrite Hapi; cbn [bind try_catch].
  rewrite Hraw.
  reflexivity.
Qed.

Lemma fetchUserBookings_flat_list_is_dropped_witness :
  fetchUserBookings exampleEngine (always (mkResponse 200 flat_bookings))
  = inr (mkBuckets [] []).
Proof.
  apply (fetchUserBookings_flat_list_is_dropped exampleEngine
           (always (mkResponse 200 flat_bookings))
           (mkResponse 200 flat_bookings)
           (items_of flat_bookings));
    reflexivity.
Defined.

(** C6: the bookings listing never throws.  Whatever the backend answers,
    [fetchUserBookings] returns two buckets; and when its [try] block
    fails, for whatever reason (the transport rejects, a booking of the
    payload cannot be read, anything else), the two buckets are empty. *)
Theorem fetchUserBookings_never_throws (E : Engine) (api : Transport) :
  (exists buckets, fetchUserBookings E api = inr buckets)
  /\ (forall error, fetchUserBookings_try E api = inl error ->
        fetchUserBookings E api = inr (mkBuckets [] []))
  /\ (forall error, api bookings_request = inl error ->
        fetchUserBookings E api = inr (mkBuckets [] [])).
Proof.
  unfold fetchUserBookings.
  split; [| split].
  - destruct (fetchUserBookings_try E api) as [e | b]; cbn; eauto.
  - intros error H. rewrite H. reflexivity.
  - intros error H. unfold fetchUserBookings_try, bookings_request in *.
    rewrite H. reflexivity.
Qed.

(** A transport failure and a malformed payload (a [null] where a booking
    should be), both answered with two empty buckets. *)
Lemma fetchUserBookings_never_throws_witness :
  fetchUserBookings exampleEngine
    (always_rejects (AxiosError None (Some "ERR_NETWORK") "Network Error"))
  = inr (mkBuckets [] [])
  /\ fetchUserBookings exampleEngine
       (always (mkResponse 200 (JObj [("current", JArr [JNull])])))
     = inr (mkBuckets [] []).
Proof.
  split.
  - apply (proj2 (proj2 (fetchUserBookings_never_throws exampleEngine
             (always_rejects
                (AxiosError None (Some "ERR_NETWORK") "Network Error"))))
             (AxiosError None (Some "ERR_NETWORK") "Network Error")).
    reflexivity.
  - apply (proj1 (proj2 (fetchUserBookings_never_throws exampleEngine
             (always (mkResponse 200 (JObj [("current", JArr [JNull])])))))
             (Error "Cannot read properties of null (reading 'garage')")).
    reflexivity.
Defined.

(** ** Ending a booking *)

(** Whatever makes [endBooking] fail, the caller catches a plain [Error]:
    the status and the body of the response do not survive the re-throw. *)
Lemma endBooking_rejects_with_Error
  (E : Engine) (api : Transport) (id : string) (err : JsError) :
  endBooking E api id = inl err -> exists message, err = Error message.
Proof.
  unfold endBooking, try_catch, rethrow, throw.
  match goal with
  | |- context [match ?body with inl _ => _ | inr _ => _ end] =>
      destruct body as [e | b]
  end; intros H; inversion H; eauto.
Qed.

(** So the handler never finds the 400 status it looks for: every failure
    of [endBooking] ends in the error display. *)
Lemma handleEndParking_failure_is_shown
  (E : Engine) (api : Transport) (booking : Booking.t) (err : JsError) :
  endBooking E api (Booking.id booking) = inl err ->
  exists shown, handleEndParking E api (Some booking) false = ShowError shown.
Proof.
  intros Hend.
  destruct (endBooking_rejects_with_Error _ _ _ _ Hend) as [message ->].
  unfold handleEndParking. rewrite Hend. cbn. eauto.
Qed.

(** C2, as the code has it: when the server answers the end-booking call
    with a client error whose message contains "already completed", the
    page does not treat the booking as ended.  [endBooking] re-throws a
    new [Error] that carries the message only, so the handler's test for a
    400 status fails, and the message is shown as an error. *)
Theorem handleEndParking_already_completed_is_shown
  (E : Engine) (api : Transport) (booking : Booking.t)
  (response : Response) (code : option string) (message m : string) :
  api (end_request (Booking.id booking))
  = inl (AxiosError (Some response) code message) ->
  400 <= status response < 500 ->
  data response @? "message" = JStr m ->
  includes (toLowerCase m) "already completed" = true ->
  handleEndParking E api (Some booking) false = ShowError (JStr m).
Proof.
  intros Hapi _ Hmsg Hinc.
  assert (Hm : m <> "").
  { intros ->. discriminate Hinc. }
  unfold handleEndParking, endBooking, end_request in *.
  rewrite Hapi.
  cbn [bind try_catch rethrow throw formatError].
  rewrite Hmsg.
  assert (Ht : truthy (JStr m) = true).
  { cbn. destruct (String.eqb_spec m ""); [contradiction | reflexivity]. }
  rewrite Ht.
  cbn [ToString err_response_status err_status err_response_message
       err_message is_400 orb].
  unfold js_or. rewrite Ht. reflexivity.
Qed.

Lemma handleEndParking_already_completed_is_shown_witness :
  handleEndParking exampleEngine (always_rejects already_completed)
    (Some a_booking) false
  = ShowError (JStr "Booking already completed").
Proof.
  apply (handleEndParking_already_completed_is_shown exampleEngine
           (always_rejects already_completed) a_booking
           (mkResponse 400
              (JObj [("message", JStr "Booking already completed")]))
           (Some "ERR_BAD_REQUEST") "Request failed with status code 400"
           "Booking already completed").
  - reflexivity.
  - cbn; lia.
  - reflexivity.
  - reflexivity.
Defined.

(** ** Slots and floors *)

(** C10: a 2xx answer to the slots-for-garage call whose payload is neither
    an array nor an object with an array under [slots], [data], [parking]
    or [parkingSlots] gives the empty slot list, not an error. *)
Theorem fetchParkingSlots_unrecognized_payload
  (E : Engine) (api : Transport) (placeId : string) (response : Response) :
  api (parking_request placeId) = inr response ->
  isArray (extractData response) = false ->
  (forall k, In k ["slots"; "data"; "parking"; "parkingSlots"] ->
             isArray (extractData response @. k) = false) ->
  fetchParkingSlots E api placeId = inr [].
Proof.
  intros Hapi Harr Hkeys.
  unfold fetchParkingSlots, parking_request in *.
  rewrite Hapi. cbn [bind try_catch].
  assert (Hnone : slotsArray_of (extractData response) = []).
  { unfold slotsArray_of. rewrite Harr.
    rewrite !Hkeys by (cbn; tauto).
    destruct (truthy (extractData response) && is_object (extractData response));
      reflexivity. }
  rewrite Hnone. reflexivity.
Qed.

Lemma fetchParkingSlots_unrecognized_payload_witness :
  fetchParkingSlots exampleEngine
    (always (mkResponse 200 (JObj [("message", JStr "no parking here")])))
    "7"
  = inr [].
Proof.
  apply (fetchParkingSlots_unrecognized_payload exampleEngine
           (always (mkResponse 200 (JObj [("message", JStr "no parking here")])))
           "7"
           (mkResponse 200 (JObj [("message", JStr "no parking here")]))).
  - reflexivity.
  - reflexivity.
  - intros k Hk. cbn in Hk.
    destruct Hk as [<- | [<- | [<- | [<- | []]]]]; reflexivity.
Defined.

(** C9: when the garage has zero slots, [fetchFloors] returns exactly one
    synthetic floor, with no capacity and nothing available. *)
Theorem fetchFloors_no_slots
  (E : Engine) (api : Transport) (garageId : string) :
  fetchParkingSlots E api garageId = inr [] ->
  exists floor,
    fetchFloors E api garageId = inr [floor]
    /\ Floor.totalSlots floor = 0
    /\ Floor.availableSlots floor = 0
    /\ Floor.layout floor = []
    /\ Floor.id floor = "general-parking".
Proof.
  intros Hslots. exists general_parking.
  unfold fetchFloors. rewrite Hslots. cbn. repeat split; reflexivity.
Qed.

Lemma fetchFloors_no_slots_witness :
  exists floor,
    fetchFloors exampleEngine (always (mkResponse 200 (JArr []))) "7"
    = inr [floor]
    /\ Floor.totalSlots floor = 0
    /\ Floor.availableSlots floor = 0
    /\ Floor.layout floor = []
    /\ Floor.id floor = "general-parking".
Proof.
  apply (fetchFloors_no_slots exampleEngine
           (always (mkResponse 200 (JArr []))) "7").
  reflexivity.
Defined.

(** ** Login *)

Lemma login_rawUser_nested (u t : JsVal) :
  login_rawUser (JObj [("data", JObj [("user", u); ("token", t)])])
  = login_rawUser (flat_login_body u t).
Proof.
  unfold login_rawUser, flat_login_body. cbn.
  destruct (is_user_object u); reflexivity.
Qed.

Lemma login_token_nested (u t : JsVal) :
  login_token (JObj [("data", JObj [("user", u); ("token", t)])])
  = login_token (flat_login_body u t).
Proof.
  unfold login_token, flat_login_body. cbn.
  destruct (truthy t); reflexivity.
Qed.

(** C7: a login response body [{data:{data:{user:u, token:t}}}] gives
    exactly what the body [{user:u, token:t}] gives: the same user and
    token, or the same error, and the same stored session. *)
Theorem login_nested_same_as_flat
  (E : Engine) (api_nested api_flat : Transport) (payload : JsVal)
  (s : Session) (status_nested status_flat : Z) (u t : JsVal) :
  api_nested (login_request payload)
  = inr (mkResponse status_nested (nested_login_body u t)) ->
  api_flat (login_request payload)
  = inr (mkResponse status_flat (flat_login_body u t)) ->
  login E api_nested payload s = login E api_flat payload s.
Proof.
  intros Hnested Hflat.
  unfold login, login_try, login_request in *.
  rewrite Hnested, Hflat.
  cbn [bind extractData data nested_login_body].
  replace (extractData (mkResponse status_nested (nested_login_body u t)))
    with (JObj [("data", JObj [("user", u); ("token", t)])]) by reflexivity.
  replace (extractData (mkResponse status_flat (flat_login_body u t)))
    with (flat_login_body u t) by reflexivity.
  rewrite login_rawUser_nested, login_token_nested.
  reflexivity.
Qed.

Lemma login_nested_same_as_flat_witness :
  login exampleEngine
    (always (mkResponse 200 (nested_login_body a_raw_user (JStr "abc"))))
    JNull anonymous
  = login exampleEngine
      (always (mkResponse 200 (flat_login_body a_raw_user (JStr "abc"))))
      JNull anonymous
  /\ snd (login exampleEngine
            (always (mkResponse 200 (flat_login_body a_raw_user (JStr "abc"))))
            JNull anonymous)
     = inr ({| User.id := "4";
               User.name := "Mona";
               User.email := "mona@example.org";
               User.phone := JUndefined;
               User.avatarUrl := JUndefined;
               User.role := JStr "user" |}, "abc").
Proof.
  split.
  - apply (login_nested_same_as_flat exampleEngine
             (always (mkResponse 200 (nested_login_body a_raw_user (JStr "abc"))))
             (always (mkResponse 200 (flat_login_body a_raw_user (JStr "abc"))))
             JNull anonymous 200 200 a_raw_user (JStr "abc"));
      reflexivity.
  - reflexivity.
Defined.

(** ** Payment *)

(** C8: when the pay button sends a request, its body carries
    [payment_method = "credit_card"] if the chosen method is ["card"], and
    the chosen method itself otherwise.  The request is a POST to
    [/bookings/pay], and it is the only thing [handlePayment] asks of the
    backend. *)
Theorem handlePayment_payment_method
  (E : Engine) (page : PaymentPage) (request : Request) :
  handlePayment_request E page = Some request ->
  method request = POST
  /\ url request = "/bookings/pay"
  /\ (method_ page = "card" ->
      body request @. "payment_method" = JStr "credit_card")
  /\ (method_ page <> "card" ->
      body request @. "payment_method" = JStr (method_ page))
  /\ (forall api api', api request = api' request ->
        handlePayment E api page = handlePayment E api' page).
Proof.
  unfold handlePayment_request, handlePayment, processPayment.
  destruct (handlePayment_payload E page) as [refused | payload] eqn:Hpayload;
    [discriminate |].
  intros [= <-].
  assert (Hmethod :
            paymentMethod payload
            = if (method_ page =? "card")%string then "credit_card"
              else method_ page).
  { unfold handlePayment_payload in Hpayload.
    repeat match type of Hpayload with
           | match ?x with _ => _ end = _ => destruct x; try discriminate
           | (if ?c then _ else _) = _ => destruct c; try discriminate
           end;
      injection Hpayload as <-; reflexivity. }
  repeat split.
  - intros Hcard. cbn. rewrite Hmethod, Hcard. reflexivity.
  - intros Hother. cbn. rewrite Hmethod.
    destruct (String.eqb_spec (method_ page) "card");
      [contradiction | reflexivity].
  - intros api api' Hsame. rewrite Hsame. reflexivity.
Qed.

Lemma handlePayment_payment_method_witness :
  handlePayment_request exampleEngine (a_payment_page "card")
  = Some (a_payment_request "credit_card")
  /\ body (a_payment_request "credit_card") @. "payment_method"
     = JStr "credit_card"
  /\ handlePayment_request exampleEngine (a_payment_page "wallet")
     = Some (a_payment_request "wallet")
  /\ body (a_payment_request "wallet") @. "payment_method" = JStr "wallet".
Proof.
  split; [reflexivity |].
  split.
  - apply (proj1 (proj2 (proj2
             (handlePayment_payment_method exampleEngine
                (a_payment_page "card") (a_payment_request "credit_card")
                eq_refl)))).
    reflexivity.
  - split; [reflexivity |].
    apply (proj1 (proj2 (proj2 (proj2
             (handlePayment_payment_method exampleEngine
                (a_payment_page "wallet") (a_payment_request "wallet")
                eq_refl))))).
    discriminate.
Defined.

(** ** Slot status *)

Lemma normalizeSlot_inv (E : Engine) (slot : JsVal) (index : Z) (s : Slot.t) :
  normalizeSlot E slot index = inr s ->
  nullish slot = false
  /\ Slot.status s = slot_status slot
  /\ Slot.level s = slot_level E slot
  /\ Slot.id s
     = ToString (slot @. "id" <||> slot @. "slot_id"
                 <||> JStr ("slot-" ++ string_of_Z (index + 1))%string).
Proof.
  unfold normalizeSlot, read.
  destruct (nullish slot); cbn; [discriminate |].
  destruct (slot_sizeField E slot); cbn; [discriminate |].
  intros [= <-]. repeat split.
Qed.

(** C4 as it is stated fails in its second part: with [is_booked] present
    and false, [is_available = false] is not looked at, and the slot is
    available. *)
Lemma slot_status_is_available_counterexample :
  ~ (forall (E : Engine) (slot : JsVal) (index : Z) (s : Slot.t),
        normalizeSlot E slot index = inr s ->
        (slot @. "is_booked" = JBool true -> Slot.status s = Slot.occupied)
        /\ (slot @. "is_available" = JBool false ->
            typeof (slot @. "status") <> TString ->
            Slot.status s = Slot.occupied)
        /\ (slot @. "status" = JStr "reserved" ->
            Slot.status s = Slot.reserved)).
Proof.
  intros claim.
  destruct (claim exampleEngine
              (JObj [("is_booked", JBool false); ("is_available", JBool false)])
              0 _ eq_refl) as (_ & Havailable & _).
  cbn in Havailable.
  assert (Hocc : Slot.available = Slot.occupied).
  { apply Havailable; [reflexivity | discriminate]. }
  discriminate Hocc.
Qed.

(** C4, amended: the three representations are read in a fixed order.
    With no status (absent or empty), [is_booked = true] gives occupied;
    with no status and no [is_booked], [is_available = false] gives
    occupied; and the string status ["reserved"] gives reserved whatever
    the two booleans are. *)
Theorem slot_status_priority
  (E : Engine) (slot : JsVal) (index : Z) (s : Slot.t) :
  normalizeSlot E slot index = inr s ->
  (truthy (slot @. "status") = false ->
   slot @. "is_booked" = JBool true ->
   Slot.status s = Slot.occupied)
  /\ (truthy (slot @. "status") = false ->
      slot @. "is_booked" = JUndefined ->
      slot @. "is_available" = JBool false ->
      Slot.status s = Slot.occupied)
  /\ (slot @. "status" = JStr "reserved" ->
      Slot.status s = Slot.reserved).
Proof.
  intros Hs. apply normalizeSlot_inv in Hs as (_ & -> & _).
  unfold slot_status. repeat split.
  - intros -> ->. reflexivity.
  - intros -> -> ->. reflexivity.
  - intros ->. reflexivity.
Qed.

Lemma slot_status_priority_witness :
  normalizeSlot exampleEngine (JObj [("is_booked", JBool true)]) 0
  = inr (slot_of_status Slot.occupied)
  /\ normalizeSlot exampleEngine (JObj [("is_available", JBool false)]) 0
     = inr (slot_of_status Slot.occupied)
  /\ normalizeSlot exampleEngine
       (JObj [("status", JStr "reserved"); ("is_booked", JBool true);
              ("is_available", JBool true)]) 0
     = inr (slot_of_status Slot.reserved)
  /\ Slot.status (slot_of_status Slot.occupied) = Slot.occupied
  /\ Slot.status (slot_of_status Slot.reserved) = Slot.reserved.
Proof.
  split; [reflexivity |].
  split; [reflexivity |].
  split; [reflexivity |].
  split.
  - apply (proj1 (slot_status_priority exampleEngine
                    (JObj [("is_booked", JBool true)]) 0
                    (slot_of_status Slot.occupied) eq_refl));
      reflexivity.
  - apply (proj2 (proj2 (slot_status_priority exampleEngine
                    (JObj [("status", JStr "reserved"); ("is_booked", JBool true);
                           ("is_available", JBool true)]) 0
                    (slot_of_status Slot.reserved) eq_refl)));
      reflexivity.
Defined.

(** ** Identity fields *)

Lemma js_or_falsy (a b : JsVal) :
  truthy (a <||> b) = false -> truthy a = false /\ truthy b = false.
Proof.
  unfold js_or. destruct (truthy a) eqn:Ha; intros H; split; congruence.
Qed.

Lemma js_or_default (a b d : JsVal) :
  truthy (a <||> b) = false -> a <||> b <||> d = d.
Proof.
  intros H. apply js_or_falsy in H as [Ha Hb].
  unfold js_or. rewrite Ha, Hb. reflexivity.
Qed.

(** C3 as it is stated fails for slots: a slot with no [id] and no
    [slot_id] is not an error. *)
Lemma slot_without_id_counterexample :
  ~ (forall (E : Engine) (api : Transport) (placeId : string)
            (response : Response) (slots : list JsVal) (slot : JsVal)
            (i : nat),
        api (parking_request placeId) = inr response ->
        extractData response = JArr slots ->
        nth_error slots i = Some slot ->
        truthy (slot @. "id" <||> slot @. "slot_id") = false ->
        exists error, fetchParkingSlots E api placeId = inl error).
Proof.
  intros claim.
  destruct (claim exampleEngine
              (always (mkResponse 200 (JArr [JObj [("number", JStr "A1")]])))
              "7" (mkResponse 200 (JArr [JObj [("number", JStr "A1")]]))
              [JObj [("number", JStr "A1")]] (JObj [("number", JStr "A1")])
              0%nat eq_refl eq_refl eq_refl eq_refl) as [error Herror].
  discriminate Herror.
Qed.

(** C3, amended: what a missing identity field leads to depends on the
    entity.  At login, a user whose [id] and [user_id] are both missing
    makes the login fail, with an error that reaches the caller.  A single
    booking fetched by id makes the fetch fail when no booking is found in
    the payload or when its garage id cannot be resolved.  A slot with no
    [id] and no [slot_id] is normalized all the same, under the synthetic
    id [slot-<index + 1>]; and a booking of the listing with no [id] is
    normalized with the empty id. *)
Theorem identity_resolution (E : Engine) :
  (forall (api : Transport) (payload : JsVal) (s : Session)
          (response : Response),
      api (login_request payload) = inr response ->
      truthy (login_rawUser (extractData response) @. "id"
              <||> login_rawUser (extractData response) @. "user_id") = false ->
      exists message,
        login E api payload s = (anonymous, inl (Error message)))
  /\ (forall (api : Transport) (id : string) (response : Response),
         api (booking_request id) = inr response ->
         truthy (fetchBookingById_rawBooking (extractData response)) = false
         \/ booking_garageId (fetchBookingById_rawBooking (extractData response))
            = "" ->
         exists message, fetchBookingById E api id = inl (Error message))
  /\ (forall (slot : JsVal) (index : Z) (size : string),
         nullish slot = false ->
         truthy (slot @. "id" <||> slot @. "slot_id") = false ->
         slot @. "vehicleSize" <||> slot @. "vehicle_size"
         <||> slot @. "size" <||> JStr "standard" = JStr size ->
         exists s,
           normalizeSlot E slot index = inr s
           /\ Slot.id s = ("slot-" ++ string_of_Z (index + 1))%string)
  /\ (forall rawBooking : JsVal,
         nullish rawBooking = false ->
         truthy (rawBooking @. "id") = false ->
         exists b,
           normalizeBooking E rawBooking = inr b /\ Booking.id b = "").
Proof.
  repeat split.
  - intros api payload s response Hapi Hid.
    unfold login, login_try, login_request in *.
    rewrite Hapi. cbn [bind].
    destruct (read E (extractData response) "user") as [e | ?];
      cbn [bind]; [unfold rethrow, throw; eauto |].
    destruct (negb (truthy (login_rawUser (extractData response))));
      [unfold rethrow, throw; eauto |].
    unfold login_normalizedUser at 1. cbn [User.id].
    rewrite (js_or_default _ _ _ Hid). cbn [ToString String.eqb orb].
    unfold rethrow, throw; eauto.
  - intros api id response Hapi Hbad.
    unfold fetchBookingById, booking_request in *.
    rewrite Hapi. cbn [bind].
    destruct Hbad as [Hnone | Hgarage].
    + rewrite Hnone. cbn. unfold rethrow, throw; eauto.
    + destruct (negb (truthy (fetchBookingById_rawBooking (extractData response))));
        [cbn; unfold rethrow, throw; eauto |].
      cbn [Booking.id Booking.garageId].
      rewrite Hgarage.
      destruct (ToString _ =? "")%string;
        cbn; unfold rethrow, throw; eauto.
  - intros slot index size Hslot Hid Hsize.
    unfold normalizeSlot, read, slot_sizeField.
    rewrite Hslot, Hsize. cbn [bind ret].
    eexists; split; [reflexivity |].
    cbn [Slot.id]. rewrite (js_or_default _ _ _ Hid). reflexivity.
  - intros rawBooking Hraw Hid.
    unfold normalizeBooking, read. rewrite Hraw. cbn [bind ret].
    eexists; split; [reflexivity |].
    cbn [Booking.id]. unfold js_or. rewrite Hid. reflexivity.
Qed.

Lemma identity_resolution_witness :
  (exists message,
      login exampleEngine (always a_user_without_id) JNull anonymous
      = (anonymous, inl (Error message)))
  /\ (exists message,
         fetchBookingById exampleEngine (always a_booking_without_garage) "5"
         = inl (Error message))
  /\ (exists s,
         normalizeSlot exampleEngine (JObj [("number", JStr "A1")]) 0 = inr s
         /\ Slot.id s = "slot-1")
  /\ (exists b,
         normalizeBooking exampleEngine (JObj [("status", JStr "active")])
         = inr b
         /\ Booking.id b = "").
Proof.
  destruct (identity_resolution exampleEngine)
    as (Hlogin & Hbooking & Hslot & Hlisted).
  split; [| split; [| split]].
  - apply (Hlogin (always a_user_without_id) JNull anonymous a_user_without_id);
      reflexivity.
  - apply (Hbooking (always a_booking_without_garage) "5"
             a_booking_without_garage);
      [reflexivity | right; reflexivity].
  - apply (Hslot (JObj [("number", JStr "A1")]) 0 "standard"); reflexivity.
  - apply (Hlisted (JObj [("status", JStr "active")])); reflexivity.
Defined.

(** ** Floors *)

Lemma JsNum_eqb_eq (a b : JsNum) : JsNum_eqb a b = true <-> a = b.
Proof.
  destruct a as [| x], b as [| y]; cbn; split; try congruence.
  - intros H. apply Z.eqb_eq in H. congruence.
  - intros [= ->]. apply Z.eqb_refl.
Qed.

Lemma JsNum_eqb_neq (a b : JsNum) : JsNum_eqb a b = false <-> a <> b.
Proof.
  rewrite <- JsNum_eqb_eq. destruct (JsNum_eqb a b); split; congruence.
Qed.

Lemma JsNum_eq_dec (a b : JsNum) : {a = b} + {a <> b}.
Proof.
  destruct (JsNum_eqb a b) eqn:H.
  - left. now apply JsNum_eqb_eq.
  - right. now apply JsNum_eqb_neq.
Qed.

Lemma JsNum_lt_irrefl (a : JsNum) : ~ JsNum_lt a a.
Proof. destruct a; cbn; lia. Qed.

Lemma JsNum_lt_trans (a b c : JsNum) :
  JsNum_lt a b -> JsNum_lt b c -> JsNum_lt a c.
Proof. destruct a, b, c; cbn; lia. Qed.

Lemma filter_none {A} (f : A -> bool) (l : list A) :
  (forall x, In x l -> f x = false) -> filter f l = [].
Proof.
  induction l as [| x l IH]; cbn; intros H; [reflexivity |].
  rewrite (H x) by now left. apply IH. intros y Hy. apply H. now right.
Qed.

(** *** The map built by the [forEach] *)

Lemma floorMap_push_keys (k : JsNum) (s : Slot.t) (m : FloorMap) :
  (In k (map fst m) -> map fst (floorMap_push k s m) = map fst m)
  /\ (~ In k (map fst m) -> map fst (floorMap_push k s m) = map fst m ++ [k]).
Proof.
  induction m as [| [l ss] rest [IHin IHout]]; cbn.
  - split; [intros [] | reflexivity].
  - destruct (JsNum_eqb l k) eqn:Hlk; cbn.
    + apply JsNum_eqb_eq in Hlk. split; [reflexivity | tauto].
    + apply JsNum_eqb_neq in Hlk. split.
      * intros [Heq | Hin]; [contradiction |]. now rewrite IHin.
      * intros Hout. rewrite IHout; tauto.
Qed.

Lemma floorMap_push_keys_incl (k : JsNum) (s : Slot.t) (m : FloorMap) :
  In k (map fst (floorMap_push k s m))
  /\ forall x, In x (map fst m) -> In x (map fst (floorMap_push k s m)).
Proof.
  destruct (floorMap_push_keys k s m) as [Hin Hout].
  destruct (in_dec JsNum_eq_dec k (map fst m)) as [Hk | Hk].
  - rewrite (Hin Hk). tauto.
  - rewrite (Hout Hk). split.
    + apply in_or_app. right. now left.
    + intros x Hx. apply in_or_app. now left.
Qed.

Lemma floorMap_push_NoDup (k : JsNum) (s : Slot.t) (m : FloorMap) :
  NoDup (map fst m) -> NoDup (map fst (floorMap_push k s m)).
Proof.
  intros Hnodup.
  destruct (floorMap_push_keys k s m) as [Hin Hout].
  destruct (in_dec JsNum_eq_dec k (map fst m)) as [Hk | Hk].
  - now rewrite (Hin Hk).
  - rewrite (Hout Hk). apply NoDup_app; auto.
    + repeat constructor. intros [].
    + intros a Ha [<- | []]. contradiction.
Qed.

Lemma floorMap_push_entries (k : JsNum) (s : Slot.t) (m : FloorMap)
      (l : JsNum) (ss : list Slot.t) :
  NoDup (map fst m) ->
  In (l, ss) (floorMap_push k s m) ->
  (l <> k /\ In (l, ss) m)
  \/ (l = k /\ exists ss0, In (k, ss0) m /\ ss = ss0 ++ [s])
  \/ (l = k /\ ~ In k (map fst m) /\ ss = [s]).
Proof.
  induction m as [| [l0 ss0] rest IH]; cbn; intros Hnodup Hin.
  - destruct Hin as [[= <- <-] | []]. right; right; tauto.
  - inversion Hnodup as [| ? ? Hfresh Hrest]; subst.
    destruct (JsNum_eqb l0 k) eqn:Hlk.
    + apply JsNum_eqb_eq in Hlk; subst l0.
      destruct Hin as [[= <- <-] | Hin].
      * right; left. split; [reflexivity |]. exists ss0. tauto.
      * left. split; [| tauto].
        intros ->. apply Hfresh.
        change k with (fst (k, ss)). now apply in_map.
    + apply JsNum_eqb_neq in Hlk.
      destruct Hin as [[= <- <-] | Hin].
      * left. tauto.
      * destruct (IH Hrest Hin)
          as [[Hne Hold] | [[-> (ss1 & Hold & ->)] | [-> [Hnew ->]]]].
        -- left. tauto.
        -- right; left. split; [reflexivity |]. exists ss1. tauto.
        -- right; right. split; [reflexivity |]. split; [| reflexivity].
           intros [Heq | Hold]; [contradiction | tauto].
Qed.

Lemma floorMap_of_snoc (slots : list Slot.t) (s : Slot.t) :
  floorMap_of (slots ++ [s])
  = floorMap_push (Slot.level s) s (floorMap_of slots).
Proof. unfold floorMap_of. now rewrite fold_left_app. Qed.

Lemma filter_at_level_snoc (l : JsNum) (slots : list Slot.t) (s : Slot.t) :
  filter (at_level l) (slots ++ [s])
  = filter (at_level l) slots
    ++ (if JsNum_eqb l (Slot.level s) then [s] else []).
Proof. rewrite filter_app. reflexivity. Qed.

(** The map has one entry per level that occurs, and the entry of a level
    holds the slots of that level, in the order of the list. *)
Lemma floorMap_of_spec (slots : list Slot.t) :
  NoDup (map fst (floorMap_of slots))
  /\ (forall l ss, In (l, ss) (floorMap_of slots) ->
        ss = filter (at_level l) slots /\ ss <> [])
  /\ (forall s, In s slots -> In (Slot.level s) (map fst (floorMap_of slots))).
Proof.
  induction slots as [| s slots (IHnodup & IHentries & IHcover)] using rev_ind.
  - cbn. repeat split; try constructor; contradiction.
  - rewrite floorMap_of_snoc.
    set (m := floorMap_of slots) in *.
    destruct (floorMap_push_keys_incl (Slot.level s) s m) as [Hnew Hold].
    split; [now apply floorMap_push_NoDup |].
    split.
    + intros l ss Hin.
      rewrite filter_at_level_snoc.
      apply floorMap_push_entries in Hin; [| assumption].
      destruct Hin as [[Hne Hin] | [[-> (ss0 & Hin & ->)] | [-> [Hfresh ->]]]].
      * destruct (IHentries _ _ Hin) as [<- Hnonempty].
        apply JsNum_eqb_neq in Hne. rewrite Hne, app_nil_r. tauto.
      * destruct (IHentries _ _ Hin) as [<- _].
        rewrite (proj2 (JsNum_eqb_eq _ _) eq_refl).
        split; [reflexivity | now destruct ss0].
      * rewrite (proj2 (JsNum_eqb_eq _ _) eq_refl).
        rewrite filter_none; [split; [reflexivity | discriminate] |].
        intros x Hx. apply JsNum_eqb_neq. intros Heq.
        apply Hfresh. rewrite Heq. now apply IHcover.
    + intros s' Hs'. apply in_app_or in Hs' as [Hs' | [<- | []]].
      * apply Hold. now apply IHcover.
      * exact Hnew.
Qed.

(** *** The sort *)

Lemma sort_insert_perm (x : JsNum * list Slot.t) (l : FloorMap) :
  Permutation (sort_insert x l) (x :: l).
Proof.
  induction l as [| y rest IH]; cbn; [reflexivity |].
  destruct (level_compare (fst x) (fst y) <=? 0); [reflexivity |].
  rewrite IH. apply perm_swap.
Qed.

Lemma sort_consistent_perm (l : FloorMap) : Permutation (sort_consistent l) l.
Proof.
  induction l as [| x rest IH]; cbn; [reflexivity |].
  rewrite sort_insert_perm. now constructor.
Qed.

Lemma rank_insert_perm (x : Z * (JsNum * list Slot.t))
                       (l : list (Z * (JsNum * list Slot.t))) :
  Permutation (rank_insert x l) (x :: l).
Proof.
  induction l as [| y rest IH]; cbn; [reflexivity |].
  destruct (fst x <=? fst y); [reflexivity |].
  rewrite IH. apply perm_swap.
Qed.

Lemma snd_combine {A B} (l : list B) (keys : list A) :
  (List.length l <= List.length keys)%nat -> map snd (combine keys l) = l.
Proof.
  revert keys. induction l as [| x l IH]; intros [| k keys] Hlen; cbn in *;
    try reflexivity; try lia.
  f_equal. apply IH. lia.
Qed.

(** Whatever the ranks, the engine's order is a rearrangement. *)
Lemma arrange_perm (ranks : list Z) (l : FloorMap) :
  Permutation (arrange ranks l) l.
Proof.
  unfold arrange.
  set (ranked := combine (ranks ++ repeat 0 (List.length l)) l).
  assert (Hsorted : Permutation (fold_right rank_insert [] ranked) ranked).
  { induction ranked as [| x rest IH]; cbn; [reflexivity |].
    rewrite rank_insert_perm. now constructor. }
  rewrite (Permutation_map snd Hsorted). unfold ranked.
  rewrite snd_combine; [reflexivity |].
  rewrite length_app, repeat_length. lia.
Qed.

Lemma sort_by_level_perm (E : Engine) (l : FloorMap) :
  Permutation (sort_by_level E l) l.
Proof.
  unfold sort_by_level.
  destruct (existsb is_NaN (map fst l));
    [apply arrange_perm | apply sort_consistent_perm].
Qed.

Lemma level_compare_le (a b : JsNum) :
  a <> NaN -> b <> NaN -> a <> b ->
  ((level_compare a b <=? 0) = true -> JsNum_lt a b)
  /\ ((level_compare a b <=? 0) = false -> JsNum_lt b a).
Proof.
  destruct a as [| x], b as [| y]; try congruence; cbn.
  intros _ _ Hne.
  assert (Hxy : x <> y) by congruence.
  split; intros Hcmp; [apply Z.leb_le in Hcmp | apply Z.leb_gt in Hcmp]; lia.
Qed.

Lemma sort_insert_sorted (x : JsNum * list Slot.t) (l : FloorMap) :
  fst x <> NaN ->
  Forall (fun k => k <> NaN) (map fst l) ->
  ~ In (fst x) (map fst l) ->
  StronglySorted JsNum_lt (map fst l) ->
  StronglySorted JsNum_lt (map fst (sort_insert x l)).
Proof.
  intros Hx.
  induction l as [| y rest IH]; cbn; intros Hfin Hfresh Hsorted.
  - repeat constructor.
  - inversion Hfin as [| ? ? Hy Hrest]; subst.
    apply StronglySorted_inv in Hsorted as [Hsorted Hbelow].
    assert (Hne : fst x <> fst y).
    { intros Heq. apply Hfresh. left. now symmetry. }
    destruct (level_compare_le (fst x) (fst y) Hx Hy Hne) as [Hle Hgt].
    destruct (level_compare (fst x) (fst y) <=? 0); cbn.
    + constructor; [constructor; assumption |].
      constructor; [now apply Hle |].
      eapply Forall_impl; [| exact Hbelow].
      intros k Hk. eapply JsNum_lt_trans; [now apply Hle | exact Hk].
    + constructor; [apply IH; tauto |].
      apply Forall_forall. intros k Hk.
      apply (Permutation_in _ (Permutation_map fst (sort_insert_perm x rest)))
        in Hk.
      destruct Hk as [<- | Hk]; [now apply Hgt |].
      now apply (proj1 (Forall_forall _ _) Hbelow).
Qed.

Lemma sort_consistent_sorted (l : FloorMap) :
  Forall (fun k => k <> NaN) (map fst l) ->
  NoDup (map fst l) ->
  StronglySorted JsNum_lt (map fst (sort_consistent l)).
Proof.
  induction l as [| x rest IH]; cbn; intros Hfin Hnodup; [constructor |].
  inversion Hfin; inversion Hnodup; subst.
  assert (Hperm : Permutation (map fst (sort_consistent rest)) (map fst rest))
    by apply Permutation_map, sort_consistent_perm.
  apply sort_insert_sorted; auto.
  - eapply Permutation_Forall; [symmetry; exact Hperm | assumption].
  - intros Hin. eapply Permutation_in in Hin; [| exact Hperm]. contradiction.
Qed.

Lemma no_NaN_among (keys : list JsNum) :
  Forall (fun k => k <> NaN) keys -> existsb is_NaN keys = false.
Proof.
  induction 1 as [| k keys Hk _ IH]; cbn; [reflexivity |].
  rewrite IH. destruct k; [contradiction | reflexivity].
Qed.

(** With numbers for levels the engine has no say. *)
Lemma sort_by_level_sorted (E : Engine) (l : FloorMap) :
  Forall (fun k => k <> NaN) (map fst l) ->
  NoDup (map fst l) ->
  StronglySorted JsNum_lt (map fst (sort_by_level E l)).
Proof.
  intros Hfin Hnodup. unfold sort_by_level.
  rewrite (no_NaN_among _ Hfin). now apply sort_consistent_sorted.
Qed.

(** Two strictly ascending lists with the same elements are the same
    list. *)
Lemma ascending_unique (l1 l2 : list JsNum) :
  StronglySorted JsNum_lt l1 ->
  StronglySorted JsNum_lt l2 ->
  (forall x, In x l1 <-> In x l2) ->
  l1 = l2.
Proof.
  revert l2.
  induction l1 as [| a l1 IH]; intros [| b l2] H1 H2 Hsame.
  - reflexivity.
  - exfalso. apply (proj2 (Hsame b)). now left.
  - exfalso. apply (proj1 (Hsame a)). now left.
  - apply StronglySorted_inv in H1 as [H1 Ha].
    apply StronglySorted_inv in H2 as [H2 Hb].
    rewrite Forall_forall in Ha, Hb.
    assert (Hab : a = b).
    { destruct (proj1 (Hsame a) (or_introl eq_refl)) as [Heq | Hin1];
        [congruence |].
      destruct (proj2 (Hsame b) (or_introl eq_refl)) as [Heq | Hin2];
        [congruence |].
      exfalso. apply (JsNum_lt_irrefl a).
      eapply JsNum_lt_trans; [apply Ha, Hin2 | apply Hb, Hin1]. }
    subst b. f_equal. apply IH; auto.
    intros x. split; intros Hx.
    + destruct (proj1 (Hsame x) (or_intror Hx)) as [<- | Hin]; [| assumption].
      exfalso. apply (JsNum_lt_irrefl a). now apply Ha.
    + destruct (proj2 (Hsame x) (or_intror Hx)) as [<- | Hin]; [| assumption].
      exfalso. apply (JsNum_lt_irrefl a). now apply Hb.
Qed.

(** *** From the map to the floors *)

Lemma floor_levels (l : FloorMap) :
  map Floor.level (map floor_of_entry l) = map fst l.
Proof. induction l as [| [k ss] rest IH]; cbn; congruence. Qed.

Lemma floors_of_nonempty (E : Engine) (slots : list Slot.t) :
  slots <> [] ->
  floors_of E slots
  = map floor_of_entry (sort_by_level E (floorMap_of slots)).
Proof. destruct slots; [contradiction | reflexivity]. Qed.

(** Every level of the map is the level of some slot. *)
Lemma floorMap_keys_occur (slots : list Slot.t) (k : JsNum) :
  In k (map fst (floorMap_of slots)) ->
  exists s, In s slots /\ Slot.level s = k.
Proof.
  intros Hk. apply in_map_iff in Hk as [[k' ss] [Hfst Hin]].
  cbn in Hfst; subst k'.
  destruct (floorMap_of_spec slots) as (_ & Hentries & _).
  destruct (Hentries _ _ Hin) as [Hss Hnonempty].
  destruct ss as [| s ss]; [contradiction |].
  assert (Hs : In s (filter (at_level k) slots)) by (rewrite <- Hss; now left).
  apply filter_In in Hs as [Hs Hat].
  exists s. split; [assumption |].
  symmetry. now apply JsNum_eqb_eq.
Qed.

Lemma floor_keys_perm (E : Engine) (slots : list Slot.t) :
  Permutation (map fst (sort_by_level E (floorMap_of slots)))
              (map fst (floorMap_of slots)).
Proof. apply Permutation_map, sort_by_level_perm. Qed.

(** What [floors_of] makes of a non-empty list of slots. *)
Lemma floors_of_spec (E : Engine) (slots : list Slot.t) :
  slots <> [] ->
  (forall s, In s slots ->
     exists f, In f (floors_of E slots) /\ Floor.level f = Slot.level s)
  /\ NoDup (map Floor.level (floors_of E slots))
  /\ (forall f, In f (floors_of E slots) ->
        Floor.layout f = filter (at_level (Floor.level f)) slots
        /\ Floor.layout f <> []
        /\ Floor.totalSlots f = Z.of_nat (List.length (Floor.layout f))
        /\ Floor.availableSlots f
           = Z.of_nat (List.length (filter Slot.is_available (Floor.layout f))))
  /\ ((forall s, In s slots -> Slot.level s <> NaN) ->
      StronglySorted JsNum_lt (map Floor.level (floors_of E slots))).
Proof.
  intros Hnonempty. rewrite (floors_of_nonempty E _ Hnonempty).
  destruct (floorMap_of_spec slots) as (Hnodup & Hentries & Hcover).
  pose proof (floor_keys_perm E slots) as Hperm.
  rewrite floor_levels.
  split; [| split; [| split]].
  - intros s Hs.
    assert (Hk : In (Slot.level s) (map fst (sort_by_level E (floorMap_of slots)))).
    { eapply Permutation_in; [symmetry; exact Hperm | now apply Hcover]. }
    rewrite <- floor_levels in Hk.
    apply in_map_iff in Hk as (f & Hlevel & Hf). eauto.
  - eapply Permutation_NoDup; [symmetry; exact Hperm | assumption].
  - intros f Hf. apply in_map_iff in Hf as ([k ss] & <- & Hin).
    apply (Permutation_in _ (sort_by_level_perm E _)) in Hin.
    destruct (Hentries _ _ Hin) as [Hss Hne].
    cbn. rewrite <- Hss. tauto.
  - intros Hfinite. apply sort_by_level_sorted; [| assumption].
    apply Forall_forall. intros k Hk.
    destruct (floorMap_keys_occur _ _ Hk) as (s & Hs & <-). now apply Hfinite.
Qed.

(** C5 as it is stated fails in its order.  A level that is not the text
    of a number, such as "B1", is normalized to [NaN]; the comparator then
    answers [NaN] wherever that level is an argument, and slots at the
    levels 2, "B1" and 1 give the floors of levels 2, [NaN] and 1 in this
    order: the floor of level 2 comes before the floor of level 1. *)
Lemma floor_without_a_number_counterexample :
  ~ (forall (E : Engine) (api : Transport) (garageId : string)
            (slots : list Slot.t),
        fetchParkingSlots E api garageId = inr slots ->
        slots <> [] ->
        exists floors,
          fetchFloors E api garageId = inr floors
          /\ (forall s, In s slots ->
                exists f, In f floors /\ Floor.level f = Slot.level s)
          /\ NoDup (map Floor.level floors)
          /\ (forall f, In f floors ->
                Floor.layout f = filter (at_level (Floor.level f)) slots
                /\ Floor.layout f <> []
                /\ Floor.totalSlots f = Z.of_nat (List.length (Floor.layout f))
                /\ Floor.availableSlots f
                   = Z.of_nat (List.length
                                 (filter Slot.is_available (Floor.layout f))))
          /\ StronglySorted JsNum_lt (map Floor.level floors)).
Proof.
  intros claim.
  destruct (claim exampleEngine (always slots_with_a_named_level) "7" _ eq_refl)
    as (floors & Hfloors & _ & _ & _ & Hsorted).
  - discriminate.
  - vm_compute in Hfloors. injection Hfloors as <-.
    cbn [map Floor.level] in Hsorted.
    apply StronglySorted_inv in Hsorted as [_ Hbelow].
    apply Forall_inv_tail, Forall_inv in Hbelow.
    cbn in Hbelow. lia.
Qed.

(** C5, amended: for a non-empty list of fetched slots, [fetchFloors]
    groups the slots by level: every level that occurs has exactly one
    floor, whose layout is the slots of that level, whose [totalSlots] is
    their number and whose [availableSlots] is the number of those with
    status available; and when the level of every slot is a number the
    floors come in ascending order of level.  In particular slots at
    levels 0, 0, 1 and 2 give three floors, of levels 0, 1 and 2 in this
    order, and the [availableSlots] of the first is the number of
    available slots of level 0. *)
Theorem fetchFloors_groups_by_level
  (E : Engine) (api : Transport) (garageId : string) (slots : list Slot.t) :
  fetchParkingSlots E api garageId = inr slots ->
  slots <> [] ->
  exists floors,
    fetchFloors E api garageId = inr floors
    /\ (forall s, In s slots ->
          exists f, In f floors /\ Floor.level f = Slot.level s)
    /\ NoDup (map Floor.level floors)
    /\ (forall f, In f floors ->
          Floor.layout f = filter (at_level (Floor.level f)) slots
          /\ Floor.layout f <> []
          /\ Floor.totalSlots f = Z.of_nat (List.length (Floor.layout f))
          /\ Floor.availableSlots f
             = Z.of_nat (List.length (filter Slot.is_available (Floor.layout f))))
    /\ ((forall s, In s slots -> Slot.level s <> NaN) ->
        StronglySorted JsNum_lt (map Floor.level floors))
    /\ (Permutation (map Slot.level slots) [Fin 0; Fin 0; Fin 1; Fin 2] ->
        exists f0 f1 f2,
          floors = [f0; f1; f2]
          /\ Floor.level f0 = Fin 0
          /\ Floor.level f1 = Fin 1
          /\ Floor.level f2 = Fin 2
          /\ Floor.availableSlots f0
             = Z.of_nat (List.length
                           (filter Slot.is_available
                                   (filter (at_level (Fin 0)) slots)))).
Proof.
  intros Hfetch Hnonempty.
  exists (floors_of E slots).
  split; [unfold fetchFloors; rewrite Hfetch; reflexivity |].
  destruct (floors_of_spec E slots Hnonempty)
    as (Hcover & Hnodup & Hfloors & Hsorted).
  repeat (split; [assumption |]).
  intros Hlevels.
  assert (Hin : forall k, In k (map Slot.level slots)
                          <-> In k [Fin 0; Fin 1; Fin 2]).
  { intros k. split; intros Hk.
    - apply (Permutation_in _ Hlevels) in Hk. cbn in *. tauto.
    - apply (Permutation_in _ (Permutation_sym Hlevels)). cbn in *. tauto. }
  assert (Hfinite : forall s, In s slots -> Slot.level s <> NaN).
  { intros s Hs.
    assert (Hk : In (Slot.level s) [Fin 0; Fin 1; Fin 2])
      by (apply Hin; now apply in_map).
    cbn in Hk. destruct Hk as [<- | [<- | [<- | []]]]; discriminate. }
  assert (Hthree : map Floor.level (floors_of E slots) = [Fin 0; Fin 1; Fin 2]).
  { apply ascending_unique.
    - now apply Hsorted.
    - repeat constructor.
    - intros k. rewrite <- Hin. split; intros Hk.
      + apply in_map_iff in Hk as (f & <- & Hf).
        destruct (Hfloors f Hf) as (Hlayout & Hne & _).
        destruct (Floor.layout f) as [| s ss] eqn:Hl; [contradiction |].
        assert (Hs : In s (filter (at_level (Floor.level f)) slots))
          by (rewrite <- Hlayout; now left).
        apply filter_In in Hs as [Hs Hat].
        apply JsNum_eqb_eq in Hat. rewrite Hat. now apply in_map.
      + apply in_map_iff in Hk as (s & <- & Hs).
        destruct (Hcover s Hs) as (f & Hf & <-). now apply in_map. }
  destruct (floors_of E slots) as [| f0 [| f1 [| f2 [| f3 rest]]]] eqn:Hfs;
    try discriminate Hthree.
  injection Hthree as H0 H1 H2.
  exists f0, f1, f2. repeat (split; [assumption || reflexivity |]).
  destruct (Hfloors f0 (or_introl eq_refl)) as (Hlayout & _ & _ & Havailable).
  rewrite Havailable, Hlayout, H0. reflexivity.
Qed.

Lemma fetchFloors_groups_by_level_witness :
  exists f0 f1 f2,
    fetchFloors exampleEngine (always four_slots) "7" = inr [f0; f1; f2]
    /\ Floor.level f0 = Fin 0
    /\ Floor.level f1 = Fin 1
    /\ Floor.level f2 = Fin 2
    /\ Floor.availableSlots f0 = 1.
Proof.
  destruct (fetchFloors_groups_by_level exampleEngine (always four_slots) "7"
              four_slots_normalized eq_refl)
    as (floors & Hfloors & _ & _ & _ & _ & Hlevels).
  - discriminate.
  - destruct Hlevels as (f0 & f1 & f2 & -> & H0 & H1 & H2 & Havailable).
    + cbn.
      apply (Permutation_cons_app [Fin 0; Fin 0; Fin 1] []).
      apply perm_skip. apply perm_swap.
    + exists f0, f1, f2. repeat (split; [assumption |]).
      exact Havailable.
Defined.

(** * Properties of the code around the claims *)

(** ** Errors *)

Lemma rethrow_is_Error {A} (error : JsError) (e : JsError) :
  @rethrow A error = inl e -> exists message, e = Error message.
Proof. unfold rethrow, throw. intros [= <-]. eauto. Qed.

Lemma try_rethrow_is_Error {A} (body : Exc A) (e : JsError) :
  try_catch body rethrow = inl e -> exists message, e = Error message.
Proof.
  destruct body as [error | x]; cbn; [apply rethrow_is_Error | discriminate].
Qed.

Lemma try_rethrow_twice {A} (body : Exc A) :
  try_catch (try_catch body rethrow) rethrow = try_catch body rethrow.
Proof. destruct body; reflexivity. Qed.

Lemma fetchParkingSlots_is_Error
  (E : Engine) (api : Transport) (placeId : string) (e : JsError) :
  fetchParkingSlots E api placeId = inl e -> exists message, e = Error message.
Proof. apply try_rethrow_is_Error. Qed.

Lemma fetchBookingById_is_Error
  (E : Engine) (api : Transport) (id : string) (e : JsError) :
  fetchBookingById E api id = inl e -> exists message, e = Error message.
Proof. apply try_rethrow_is_Error. Qed.

Lemma status_message_nonempty (s : Z) (m : string) :
  status_message s = Some m -> m <> "".
Proof.
  unfold status_message.
  repeat match goal with
         | |- context [if ?c then _ else _] => destruct c
         end; intros [= <-]; discriminate.
Qed.

(** X2: how a transport failure is worded.  A [message] of the response
    body, when it is truthy, is returned as it is, whatever the status;
    without a [message] and without an [error] in the body the result is a
    non-empty text; and in that case a client-error status other than 401,
    403 and 404 reads "Invalid request", and a server-error status other
    than 500 reads "Server error". *)
Theorem formatError_wording
  (response : option Response) (code : option string) (message : string) :
  let d := match response with Some r => data r | None => JUndefined end in
  (truthy (d @? "message") = true ->
   formatError (AxiosError response code message) = d @? "message")
  /\ (truthy (d @? "message") = false ->
      truthy (d @? "error") = false ->
      (exists text,
          formatError (AxiosError response code message) = JStr text
          /\ text <> "")
      /\ (forall r, response = Some r ->
            400 <= status r < 500 ->
            status r <> 401 -> status r <> 403 -> status r <> 404 ->
            formatError (AxiosError response code message)
            = JStr "Invalid request")
      /\ (forall r, response = Some r ->
            500 < status r ->
            formatError (AxiosError response code message)
            = JStr "Server error")).
Proof.
  intros d. split.
  - intros H. cbn. fold d. now rewrite H.
  - intros Hm He. cbn [formatError]. fold d. rewrite Hm, He.
    split; [| split].
    + destruct (match response with
                | Some r => if status r =? 0 then None else status_message (status r)
                | None => None
                end) as [m |] eqn:Hs.
      * exists m. split; [reflexivity |].
        destruct response as [r |]; [| discriminate].
        destruct (status r =? 0); [discriminate |].
        now apply status_message_nonempty in Hs.
      * destruct (code_is code "ECONNABORTED");
          [eexists; split; [reflexivity | discriminate] |].
        destruct (code_is code "ERR_NETWORK");
          [eexists; split; [reflexivity | discriminate] |].
        unfold js_or. cbn [truthy].
        destruct (String.eqb_spec message ""); cbn.
        -- eexists; split; [reflexivity | discriminate].
        -- eexists; split; [reflexivity | assumption].
    + intros r -> Hrange H401 H403 H404.
      unfold status_message.
      repeat match goal with
             | |- context [?a =? ?b] =>
                 destruct (Z.eqb_spec a b); [lia |]
             end.
      destruct (Z.leb_spec 400 (status r)); [| lia].
      destruct (Z.ltb_spec (status r) 500); [| lia].
      reflexivity.
    + intros r -> Hrange.
      unfold status_message.
      repeat match goal with
             | |- context [?a =? ?b] =>
                 destruct (Z.eqb_spec a b); [lia |]
             end.
      destruct (Z.leb_spec 400 (status r)); [| lia].
      destruct (Z.ltb_spec (status r) 500); [lia |].
      destruct (Z.leb_spec 500 (status r)); [| lia].
      reflexivity.
Qed.

Lemma formatError_wording_witness :
  formatError (AxiosError
                 (Some (mkResponse 422 (JObj [("errors", JArr [])])))
                 (Some "ERR_BAD_REQUEST") "Request failed with status code 422")
  = JStr "Invalid request"
  /\ formatError a_timeout = JStr "Request timeout. Please try again".
Proof.
  split; [| reflexivity].
  apply (proj1 (proj2 (proj2 (formatError_wording
           (Some (mkResponse 422 (JObj [("errors", JArr [])])))
           (Some "ERR_BAD_REQUEST") "Request failed with status code 422")
           eq_refl eq_refl))
           (mkResponse 422 (JObj [("errors", JArr [])])) eq_refl);
    cbn; lia.
Defined.

(** ** Floors, again *)

Lemma floors_of_not_empty (E : Engine) (slots : list Slot.t) :
  floors_of E slots <> [].
Proof.
  destruct slots as [| s rest]; [discriminate |].
  destruct (floors_of_spec E (s :: rest)) as (Hcover & _); [discriminate |].
  destruct (Hcover s (or_introl eq_refl)) as (f & Hf & _).
  intros Hempty. rewrite Hempty in Hf. contradiction.
Qed.

(** X3: [fetchFloors] fails exactly when the fetch of the slots fails, and
    with the same error; when the slots are fetched it resolves, and never
    with an empty list of floors. *)
Theorem fetchFloors_follows_fetchParkingSlots
  (E : Engine) (api : Transport) (garageId : string) :
  (forall e, fetchParkingSlots E api garageId = inl e ->
             fetchFloors E api garageId = inl e)
  /\ (forall slots, fetchParkingSlots E api garageId = inr slots ->
        exists floors,
          fetchFloors E api garageId = inr floors /\ floors <> []).
Proof.
  split.
  - intros e He.
    destruct (fetchParkingSlots_is_Error _ _ _ _ He) as [message ->].
    unfold fetchFloors. rewrite He. reflexivity.
  - intros slots Hs. exists (floors_of E slots).
    unfold fetchFloors. rewrite Hs. split; [reflexivity |].
    apply floors_of_not_empty.
Qed.

Lemma fetchFloors_follows_fetchParkingSlots_witness :
  fetchFloors exampleEngine (always_rejects a_timeout) "7"
  = inl (Error "Request timeout. Please try again")
  /\ exists floors,
       fetchFloors exampleEngine (always four_slots) "7" = inr floors
       /\ floors <> [].
Proof.
  destruct (fetchFloors_follows_fetchParkingSlots exampleEngine
              (always_rejects a_timeout) "7") as [Hfail _].
  destruct (fetchFloors_follows_fetchParkingSlots exampleEngine
              (always four_slots) "7") as [_ Hok].
  split.
  - apply Hfail. reflexivity.
  - apply (Hok four_slots_normalized). reflexivity.
Defined.

Lemma concat_floorMap_push (k : JsNum) (s : Slot.t) (m : FloorMap) :
  Permutation (List.concat (map snd (floorMap_push k s m)))
              (List.concat (map snd m) ++ [s]).
Proof.
  induction m as [| [l ss] rest IH]; cbn; [reflexivity |].
  destruct (JsNum_eqb l k); cbn.
  - rewrite <- !app_assoc. apply Permutation_app_head, Permutation_app_comm.
  - rewrite IH, app_assoc. reflexivity.
Qed.

Lemma concat_floorMap_of (slots : list Slot.t) :
  Permutation (List.concat (map snd (floorMap_of slots))) slots.
Proof.
  induction slots as [| s slots IH] using rev_ind; [reflexivity |].
  rewrite floorMap_of_snoc, concat_floorMap_push.
  now apply Permutation_app_tail.
Qed.

Lemma concat_perm {A} (l l' : list (list A)) :
  Permutation l l' -> Permutation (List.concat l) (List.concat l').
Proof.
  induction 1; cbn.
  - reflexivity.
  - now apply Permutation_app_head.
  - rewrite !app_assoc. apply Permutation_app_tail, Permutation_app_comm.
  - etransitivity; eassumption.
Qed.

Lemma filter_perm {A} (p : A -> bool) (l l' : list A) :
  Permutation l l' -> Permutation (filter p l) (filter p l').
Proof.
  induction 1; cbn.
  - reflexivity.
  - destruct (p x); [now constructor | assumption].
  - destruct (p x), (p y); try reflexivity. apply perm_swap.
  - etransitivity; eassumption.
Qed.

Lemma floor_layouts (l : FloorMap) :
  map Floor.layout (map floor_of_entry l) = map snd l.
Proof. induction l as [| [k ss] rest IH]; cbn; congruence. Qed.

Lemma floors_of_layouts (E : Engine) (slots : list Slot.t) :
  Permutation (List.concat (map Floor.layout (floors_of E slots))) slots.
Proof.
  destruct slots as [| s rest]; [reflexivity |].
  rewrite floors_of_nonempty by discriminate.
  rewrite floor_layouts.
  etransitivity; [| apply concat_floorMap_of].
  apply concat_perm, Permutation_map, sort_by_level_perm.
Qed.

Lemma floors_of_counts (E : Engine) (slots : list Slot.t) (f : Floor.t) :
  In f (floors_of E slots) ->
  Floor.totalSlots f = Z.of_nat (List.length (Floor.layout f))
  /\ Floor.availableSlots f
     = Z.of_nat (List.length (filter Slot.is_available (Floor.layout f))).
Proof.
  destruct slots as [| s rest].
  - intros [<- | []]. split; reflexivity.
  - intros Hf.
    destruct (floors_of_spec E (s :: rest)) as (_ & _ & Hfloors & _);
      [discriminate |].
    destruct (Hfloors f Hf) as (_ & _ & Htotal & Havailable). tauto.
Qed.

Lemma sum_of_lengths {A B} (f : A -> Z) (g : A -> list B) (l : list A) :
  (forall x, In x l -> f x = Z.of_nat (List.length (g x))) ->
  sum_Z (map f l) = Z.of_nat (List.length (List.concat (map g l))).
Proof.
  induction l as [| x l IH]; intros H; [reflexivity |].
  cbn [map List.concat]. unfold sum_Z. cbn [fold_right].
  fold (sum_Z (map f l)).
  rewrite length_app, Nat2Z.inj_add, (H x) by now left.
  rewrite IH; [reflexivity |]. intros y Hy. apply H. now right.
Qed.

Lemma filter_concat {A} (p : A -> bool) (l : list (list A)) :
  filter p (List.concat l) = List.concat (map (filter p) l).
Proof.
  induction l as [| x l IH]; cbn; [reflexivity |].
  now rewrite filter_app, IH.
Qed.

Lemma filter_length_le {A} (p : A -> bool) (l : list A) :
  (List.length (filter p l) <= List.length l)%nat.
Proof.
  induction l as [| x l IH]; cbn; [lia |]. destruct (p x); cbn; lia.
Qed.

(** X4: the floors that [fetchFloors] returns account for every fetched
    slot exactly once: their layouts together are the fetched slots, their
    [totalSlots] add up to the number of slots, their [availableSlots] add
    up to the number of available slots, and on each floor
    [0 <= availableSlots <= totalSlots]. *)
Theorem fetchFloors_accounts_for_every_slot
  (E : Engine) (api : Transport) (garageId : string) (slots : list Slot.t) :
  fetchParkingSlots E api garageId = inr slots ->
  exists floors,
    fetchFloors E api garageId = inr floors
    /\ Permutation (List.concat (map Floor.layout floors)) slots
    /\ sum_Z (map Floor.totalSlots floors) = Z.of_nat (List.length slots)
    /\ sum_Z (map Floor.availableSlots floors)
       = Z.of_nat (List.length (filter Slot.is_available slots))
    /\ (forall f, In f floors ->
          0 <= Floor.availableSlots f <= Floor.totalSlots f).
Proof.
  intros Hs. exists (floors_of E slots).
  split; [unfold fetchFloors; rewrite Hs; reflexivity |].
  pose proof (floors_of_layouts E slots) as Hperm.
  split; [assumption |].
  split; [| split].
  - rewrite (sum_of_lengths _ Floor.layout).
    + now rewrite (Permutation_length Hperm).
    + intros f Hf. now destruct (floors_of_counts E _ _ Hf).
  - rewrite (sum_of_lengths _ (fun f => filter Slot.is_available (Floor.layout f))).
    + rewrite <- (map_map Floor.layout (filter Slot.is_available)).
      rewrite <- filter_concat.
      now rewrite (Permutation_length (filter_perm _ _ _ Hperm)).
    + intros f Hf. now destruct (floors_of_counts E _ _ Hf).
  - intros f Hf. destruct (floors_of_counts E _ _ Hf) as [-> ->].
    pose proof (filter_length_le Slot.is_available (Floor.layout f)). lia.
Qed.

Lemma fetchFloors_accounts_for_every_slot_witness :
  exists floors,
    fetchFloors exampleEngine (always four_slots) "7" = inr floors
    /\ Permutation (List.concat (map Floor.layout floors)) four_slots_normalized
    /\ sum_Z (map Floor.totalSlots floors) = 4
    /\ sum_Z (map Floor.availableSlots floors) = 2
    /\ (forall f, In f floors ->
          0 <= Floor.availableSlots f <= Floor.totalSlots f).
Proof.
  apply (fetchFloors_accounts_for_every_slot exampleEngine (always four_slots)
           "7" four_slots_normalized).
  reflexivity.
Defined.

(** ** Slots, again *)

Lemma mapM_index_spec {A B} (f : A -> Z -> Exc B) (l : list A) :
  forall (i : Z) (out : list B),
    mapM_index f i l = inr out ->
    List.length out = List.length l
    /\ forall n x, nth_error l n = Some x ->
         exists y, nth_error out n = Some y /\ f x (i + Z.of_nat n) = inr y.
Proof.
  induction l as [| a l IH]; cbn; intros i out H.
  - injection H as <-. split; [reflexivity |]. intros [| n] x; discriminate.
  - destruct (f a i) as [e | y] eqn:Hfa; cbn in H; [discriminate |].
    destruct (mapM_index f (i + 1) l) as [e | ys] eqn:Hrest; cbn in H;
      [discriminate |].
    injection H as <-.
    destruct (IH _ _ Hrest) as [Hlen Hnth].
    split; [cbn; congruence |].
    intros [| n] x Hx; cbn in *.
    + injection Hx as <-. exists y. rewrite Z.add_0_r. tauto.
    + destruct (Hnth n x Hx) as (y' & Hy' & Hf).
      exists y'. split; [assumption |].
      rewrite <- Hf. f_equal. lia.
Qed.

Lemma fetchParkingSlots_resolved
  (E : Engine) (api : Transport) (placeId : string) (response : Response)
  (slots : list Slot.t) :
  api (parking_request placeId) = inr response ->
  fetchParkingSlots E api placeId = inr slots ->
  mapM_index (normalizeSlot E) 0 (slotsArray_of (extractData response))
  = inr slots.
Proof.
  intros Hapi. unfold fetchParkingSlots. rewrite Hapi. cbn [bind].
  destruct (slotsArray_of (extractData response)) as [| raw rest] eqn:Harr.
  - cbn. auto.
  - cbn [List.length Nat.eqb].
    destruct (mapM_index (normalizeSlot E) 0 (raw :: rest)); cbn;
      [discriminate | auto].
Qed.

(** X5: when [fetchParkingSlots] resolves, it resolves with one slot per
    element of the raw array, in the order of the array: the slot at
    position [i] is the normalization of the element at position [i].  So
    a single element that cannot be normalized makes the whole fetch
    fail. *)
Theorem fetchParkingSlots_one_slot_per_element
  (E : Engine) (api : Transport) (placeId : string) (response : Response) :
  api (parking_request placeId) = inr response ->
  (forall slots,
      fetchParkingSlots E api placeId = inr slots ->
      List.length slots = List.length (slotsArray_of (extractData response))
      /\ forall i raw,
           nth_error (slotsArray_of (extractData response)) i = Some raw ->
           exists s, nth_error slots i = Some s
                     /\ normalizeSlot E raw (Z.of_nat i) = inr s)
  /\ (forall i raw e,
         nth_error (slotsArray_of (extractData response)) i = Some raw ->
         normalizeSlot E raw (Z.of_nat i) = inl e ->
         exists message,
           fetchParkingSlots E api placeId = inl (Error message)).
Proof.
  intros Hapi.
  assert (Hok : forall slots,
             fetchParkingSlots E api placeId = inr slots ->
             List.length slots
             = List.length (slotsArray_of (extractData response))
             /\ forall i raw,
                  nth_error (slotsArray_of (extractData response)) i = Some raw ->
                  exists s, nth_error slots i = Some s
                            /\ normalizeSlot E raw (Z.of_nat i) = inr s).
  { intros slots Hs.
    apply (fetchParkingSlots_resolved _ _ _ _ _ Hapi) in Hs.
    apply mapM_index_spec in Hs. exact Hs. }
  split; [exact Hok |].
  intros i raw e Hraw Hfail.
  destruct (fetchParkingSlots E api placeId) as [err | slots] eqn:Hfetch.
  - destruct (fetchParkingSlots_is_Error _ _ _ _ Hfetch) as [message ->]. eauto.
  - destruct (Hok slots eq_refl) as [_ Hnth].
    destruct (Hnth i raw Hraw) as (s & _ & Hs). congruence.
Qed.

Lemma fetchParkingSlots_one_slot_per_element_witness :
  List.length slots_without_ids = 3%nat
  /\ exists message,
       fetchParkingSlots exampleEngine
         (always (mkResponse 200 (JArr [JObj [("id", JNum 1)]; JNull])))
         "7"
       = inl (Error message).
Proof.
  split.
  - apply (proj1 (fetchParkingSlots_one_slot_per_element exampleEngine
                    (always raw_slots_without_ids) "7" raw_slots_without_ids
                    eq_refl)
                 slots_without_ids eq_refl).
  - apply (proj2 (fetchParkingSlots_one_slot_per_element exampleEngine
                    (always (mkResponse 200 (JArr [JObj [("id", JNum 1)]; JNull])))
                    "7" (mkResponse 200 (JArr [JObj [("id", JNum 1)]; JNull]))
                    eq_refl)
                 1%nat JNull
                 (Error "Cannot read properties of null (reading 'status')"));
      reflexivity.
Defined.

Lemma to_int_not_nil (z : Z) :
  Z.to_int z <> Decimal.Pos Decimal.Nil /\ Z.to_int z <> Decimal.Neg Decimal.Nil.
Proof.
  pose proof (DecimalZ.to_of (Z.to_int z)) as H.
  rewrite DecimalZ.of_to in H.
  split; intros Hnil; rewrite Hnil in H; discriminate H.
Qed.

Lemma string_of_Z_inj (a b : Z) : string_of_Z a = string_of_Z b -> a = b.
Proof.
  unfold string_of_Z. intros H.
  apply DecimalZ.to_int_inj.
  destruct (to_int_not_nil a) as [Ha1 Ha2].
  destruct (to_int_not_nil b) as [Hb1 Hb2].
  pose proof (NilZero.isi _ Ha1 Ha2) as Hia.
  pose proof (NilZero.isi _ Hb1 Hb2) as Hib.
  rewrite H in Hia. congruence.
Qed.

(** X6: when no element of the raw array has an [id] or a [slot_id], the
    slots that [fetchParkingSlots] resolves with carry the ids [slot-1],
    [slot-2], ... in the order of the array, and no two of them carry the
    same id. *)
Theorem fetchParkingSlots_synthetic_ids
  (E : Engine) (api : Transport) (placeId : string) (response : Response)
  (slots : list Slot.t) :
  api (parking_request placeId) = inr response ->
  fetchParkingSlots E api placeId = inr slots ->
  (forall raw, In raw (slotsArray_of (extractData response)) ->
               truthy (raw @. "id" <||> raw @. "slot_id") = false) ->
  (forall i s, nth_error slots i = Some s ->
               Slot.id s = ("slot-" ++ string_of_Z (Z.of_nat i + 1))%string)
  /\ NoDup (map Slot.id slots).
Proof.
  intros Hapi Hs Hnoid.
  apply (fetchParkingSlots_resolved _ _ _ _ _ Hapi) in Hs.
  apply mapM_index_spec in Hs as [Hlen Hnth].
  assert (Hids : forall i s, nth_error slots i = Some s ->
                   Slot.id s = ("slot-" ++ string_of_Z (Z.of_nat i + 1))%string).
  { intros i s Hi.
    assert (Hlt : (i < List.length (slotsArray_of (extractData response)))%nat).
    { rewrite <- Hlen. apply nth_error_Some. congruence. }
    destruct (nth_error (slotsArray_of (extractData response)) i)
      as [raw |] eqn:Hraw; [| apply nth_error_None in Hraw; lia].
    destruct (Hnth i raw Hraw) as (s' & Hs' & Hnorm).
    assert (s' = s) by congruence; subst s'.
    apply normalizeSlot_inv in Hnorm as (_ & _ & _ & ->).
    rewrite js_or_default by (apply Hnoid; eapply nth_error_In; eassumption).
    reflexivity. }
  split; [exact Hids |].
  apply NoDup_nth_error. intros i j Hi Hij.
  rewrite length_map in Hi.
  rewrite !nth_error_map in Hij.
  destruct (nth_error slots i) as [si |] eqn:Hsi;
    [| apply nth_error_None in Hsi; lia].
  destruct (nth_error slots j) as [sj |] eqn:Hsj; [| discriminate].
  cbn in Hij. injection Hij as Hij.
  rewrite (Hids _ _ Hsi), (Hids _ _ Hsj) in Hij.
  cbn in Hij. injection Hij as Hij.
  apply string_of_Z_inj in Hij. lia.
Qed.

Lemma fetchParkingSlots_synthetic_ids_witness :
  map Slot.id slots_without_ids = ["slot-1"; "slot-2"; "slot-3"]
  /\ NoDup (map Slot.id slots_without_ids).
Proof.
  split; [reflexivity |].
  apply (fetchParkingSlots_synthetic_ids exampleEngine
           (always raw_slots_without_ids) "7" raw_slots_without_ids
           slots_without_ids eq_refl eq_refl).
  intros raw Hraw. cbn in Hraw.
  destruct Hraw as [<- | [<- | [<- | []]]]; reflexivity.
Defined.

Lemma normalizeSlot_fields
  (E : Engine) (slot : JsVal) (index : Z) (s : Slot.t) :
  normalizeSlot E slot index = inr s ->
  Slot.status s = slot_status slot
  /\ Slot.level s = slot_level E slot
  /\ Slot.pricePerHour s
     = ToNumber E (slot @. "pricePerHour" <||> slot @. "price_per_hour"
                   <||> slot @. "price" <||> JNum 5).
Proof.
  unfold normalizeSlot, read.
  destruct (nullish slot); cbn; [discriminate |].
  destruct (slot_sizeField E slot); cbn; [discriminate |].
  intros [= <-]. repeat split.
Qed.

(** X7: a truthy [status] decides the status of a slot alone.  The slot is
    reserved exactly when its [status] reads "reserved" in any letter
    case, so the two booleans never make a slot reserved; and a [status]
    that is none of the six known words makes the slot available, whatever
    [is_booked] and [is_available] say. *)
Theorem slot_status_from_text
  (E : Engine) (slot : JsVal) (index : Z) (s : Slot.t) :
  normalizeSlot E slot index = inr s ->
  (Slot.status s = Slot.reserved
   <-> truthy (slot @. "status") = true
       /\ toLowerCase (ToString (slot @. "status")) = "reserved")
  /\ (truthy (slot @. "status") = true ->
      ~ In (toLowerCase (ToString (slot @. "status")))
           ["available"; "free"; "occupied"; "booked"; "taken"; "reserved"] ->
      Slot.status s = Slot.available).
Proof.
  intros Hs. apply normalizeSlot_fields in Hs as (-> & _).
  unfold slot_status.
  destruct (truthy (slot @. "status")) eqn:Ht.
  - set (w := toLowerCase (ToString (slot @. "status"))).
    destruct (String.eqb_spec w "available") as [-> | Hn1];
      [cbn; split; [split; [intros [=] | intros [_ [=]]] | intros _ H; exfalso; apply H; cbn; tauto] |].
    destruct (String.eqb_spec w "free") as [-> | Hn2];
      [cbn; split; [split; [intros [=] | intros [_ [=]]] | intros _ H; exfalso; apply H; cbn; tauto] |].
    destruct (String.eqb_spec w "occupied") as [-> | Hn3];
      [cbn; split; [split; [intros [=] | intros [_ [=]]] | intros _ H; exfalso; apply H; cbn; tauto] |].
    destruct (String.eqb_spec w "booked") as [-> | Hn4];
      [cbn; split; [split; [intros [=] | intros [_ [=]]] | intros _ H; exfalso; apply H; cbn; tauto] |].
    destruct (String.eqb_spec w "taken") as [-> | Hn5];
      [cbn; split; [split; [intros [=] | intros [_ [=]]] | intros _ H; exfalso; apply H; cbn; tauto] |].
    destruct (String.eqb_spec w "reserved") as [-> | Hn6]; cbn.
    + split; [tauto | intros _ H; exfalso; apply H; cbn; tauto].
    + split; [split; [intros [=] | intros [_ Hw]; contradiction] | reflexivity].
  - split; [| discriminate].
    split; [| intros [[=] _]].
    repeat match goal with
           | |- context [if ?c then _ else _] => destruct c
           end; discriminate.
Qed.

Lemma slot_status_from_text_witness :
  normalizeSlot exampleEngine a_free_slot_payload 0
  = inr (Slot.mk "12" "12" Slot.available (Fin 0) Slot.standard (Fin 5))
  /\ Slot.status (Slot.mk "12" "12" Slot.available (Fin 0) Slot.standard (Fin 5))
     = Slot.available.
Proof.
  split; [reflexivity |].
  apply (proj2 (slot_status_from_text exampleEngine a_free_slot_payload 0
                  (Slot.mk "12" "12" Slot.available (Fin 0) Slot.standard (Fin 5))
                  eq_refl)).
  - reflexivity.
  - cbn. intros [H | [H | [H | [H | [H | [H | []]]]]]]; discriminate H.
Defined.

(** X8: zero among the numbers of a slot.  A price that is missing, empty
    or zero under each of [pricePerHour], [price_per_hour] and [price] is
    replaced by 5; a [level] of 0 is kept, and the other names of the level
    are read only when [level] is [null] or missing. *)
Theorem slot_zero_price_and_level
  (E : Engine) (slot : JsVal) (index : Z) (s : Slot.t) :
  normalizeSlot E slot index = inr s ->
  (truthy (slot @. "pricePerHour") = false ->
   truthy (slot @. "price_per_hour") = false ->
   truthy (slot @. "price") = false ->
   Slot.pricePerHour s = Fin 5)
  /\ (forall z, slot @. "level" = JNum z -> Slot.level s = Fin z)
  /\ (nullish (slot @. "level") = true ->
      forall z, slot @. "floor" = JNum z -> Slot.level s = Fin z).
Proof.
  intros Hs. apply normalizeSlot_fields in Hs as (_ & -> & ->).
  unfold slot_level, js_or, js_coalesce.
  repeat split.
  - intros -> -> ->. reflexivity.
  - intros z ->. reflexivity.
  - intros -> z ->. reflexivity.
Qed.

Lemma slot_zero_price_and_level_witness :
  Slot.pricePerHour (Slot.mk "12" "12" Slot.available (Fin 0) Slot.standard (Fin 5))
  = Fin 5
  /\ Slot.level (Slot.mk "12" "12" Slot.available (Fin 0) Slot.standard (Fin 5))
     = Fin 0.
Proof.
  destruct (slot_zero_price_and_level exampleEngine a_free_slot_payload 0
              (Slot.mk "12" "12" Slot.available (Fin 0) Slot.standard (Fin 5))
              eq_refl) as (Hprice & Hlevel & _).
  split.
  - apply Hprice; reflexivity.
  - apply (Hlevel 0). reflexivity.
Defined.

(** X9: [fetchParkingSlot] resolves with a slot of the garage that has the
    id asked for, and does so whenever the garage has one; when the slots
    are fetched and none has the id, it rejects with "Slot not found"; and
    when the fetch of the slots fails, it fails with the same error. *)
Theorem fetchParkingSlot_by_id
  (E : Engine) (api : Transport) (placeId slotId : string) :
  (forall slots s,
      fetchParkingSlots E api placeId = inr slots ->
      fetchParkingSlot E api placeId slotId = inr s ->
      In s slots /\ Slot.id s = slotId)
  /\ (forall slots s,
         fetchParkingSlots E api placeId = inr slots ->
         In s slots -> Slot.id s = slotId ->
         exists found, fetchParkingSlot E api placeId slotId = inr found)
  /\ (forall slots,
         fetchParkingSlots E api placeId = inr slots ->
         (forall s, In s slots -> Slot.id s <> slotId) ->
         fetchParkingSlot E api placeId slotId = inl (Error "Slot not found"))
  /\ (forall e,
         fetchParkingSlots E api placeId = inl e ->
         fetchParkingSlot E api placeId slotId = inl e).
Proof.
  unfold fetchParkingSlot.
  split; [| split; [| split]].
  - intros slots s -> . cbn [bind].
    destruct (find _ slots) as [found |] eqn:Hfind; cbn; [| discriminate].
    intros [= <-]. apply find_some in Hfind as [Hin Hid].
    split; [assumption | now apply String.eqb_eq].
  - intros slots s -> Hin Hid. cbn [bind].
    destruct (find _ slots) as [found |] eqn:Hfind; cbn; [eauto |].
    apply (find_none _ _ Hfind) in Hin. cbn in Hin.
    apply String.eqb_neq in Hin. contradiction.
  - intros slots -> Hnone. cbn [bind].
    destruct (find _ slots) as [found |] eqn:Hfind; cbn; [| reflexivity].
    apply find_some in Hfind as [Hin Hid].
    apply String.eqb_eq in Hid. now apply Hnone in Hin.
  - intros e He.
    destruct (fetchParkingSlots_is_Error _ _ _ _ He) as [message ->].
    rewrite He. reflexivity.
Qed.

Lemma fetchParkingSlot_by_id_witness :
  (exists found,
      fetchParkingSlot exampleEngine (always raw_slots_without_ids) "7" "slot-2"
      = inr found)
  /\ fetchParkingSlot exampleEngine (always raw_slots_without_ids) "7" "A2"
     = inl (Error "Slot not found").
Proof.
  destruct (fetchParkingSlot_by_id exampleEngine (always raw_slots_without_ids)
              "7" "slot-2") as (_ & Hfound & _).
  destruct (fetchParkingSlot_by_id exampleEngine (always raw_slots_without_ids)
              "7" "A2") as (_ & _ & Hnone & _).
  split.
  - apply (Hfound slots_without_ids
             (Slot.mk "slot-2" "A2" Slot.occupied (Fin 0) Slot.standard (Fin 5)));
      [reflexivity | cbn; tauto | reflexivity].
  - apply (Hnone slots_without_ids); [reflexivity |].
    intros s Hs. cbn in Hs.
    destruct Hs as [<- | [<- | [<- | []]]]; discriminate.
Defined.

(** ** Reserving and cancelling *)

(** X10: [createBooking] without a garage id or without a slot id rejects
    with "Garage ID and Slot ID are required", whatever the backend is, so
    without asking it anything; with both, it is [reserveSlot] on those two
    ids, with a payload of the plate and the duration only, and the second
    [catch] changes neither the result nor the error. *)
Theorem createBooking_is_reserveSlot (api : Transport) (payload : Draft.t) :
  (missing (Draft.garageId payload) = true
   \/ missing (Draft.slotId payload) = true ->
   createBooking api payload
   = inl (Error "Garage ID and Slot ID are required"))
  /\ (forall garageId slotId,
         Draft.garageId payload = Some garageId -> garageId <> "" ->
         Draft.slotId payload = Some slotId -> slotId <> "" ->
         createBooking api payload
         = reserveSlot api garageId slotId
             (JObj [("vehiclePlate",
                     json_of_optional (Draft.vehiclePlate payload));
                    ("durationHours",
                     match Draft.time payload with
                     | Some t => json_of_JsNum (Booking.durationHours t)
                     | None => JUndefined
                     end)])).
Proof.
  unfold createBooking. split.
  - intros Hmissing.
    assert (Hor : missing (Draft.garageId payload)
                  || missing (Draft.slotId payload) = true).
    { apply orb_true_iff. exact Hmissing. }
    rewrite Hor. reflexivity.
  - intros garageId slotId Hg Hgne Hs Hsne.
    rewrite Hg, Hs. cbn [missing text_or_empty].
    apply String.eqb_neq in Hgne, Hsne. rewrite Hgne, Hsne. cbn [orb].
    unfold reserveSlot. apply try_rethrow_twice.
Qed.

Lemma createBooking_is_reserveSlot_witness :
  createBooking (always (mkResponse 200 (JObj [("id", JNum 9)])))
                a_draft_without_slot
  = inl (Error "Garage ID and Slot ID are required")
  /\ createBooking (always (mkResponse 200 (JObj [("id", JNum 9)]))) a_draft
     = reserveSlot (always (mkResponse 200 (JObj [("id", JNum 9)]))) "G1" "S1"
         (JObj [("vehiclePlate", JStr "ABC 123"); ("durationHours", JNum 2)]).
Proof.
  split.
  - apply (proj1 (createBooking_is_reserveSlot
                    (always (mkResponse 200 (JObj [("id", JNum 9)])))
                    a_draft_without_slot)).
    right. reflexivity.
  - apply (proj2 (createBooking_is_reserveSlot
                    (always (mkResponse 200 (JObj [("id", JNum 9)])))
                    a_draft) "G1" "S1");
      (reflexivity || discriminate).
Defined.

Lemma fetchBookingById_garageId
  (E : Engine) (api : Transport) (id : string) (b : Booking.t) :
  fetchBookingById E api id = inr b ->
  Booking.id b <> "" /\ Booking.garageId b <> ""
  /\ Booking.place b = None /\ Booking.garage b = None.
Proof.
  unfold fetchBookingById.
  destruct (api (booking_request id)) as [e | response]; cbn [bind try_catch];
    [discriminate |].
  destruct (negb (truthy (fetchBookingById_rawBooking (extractData response))));
    cbn [try_catch]; [discriminate |].
  cbn [Booking.id Booking.garageId].
  destruct (String.eqb_spec
              (ToString (fetchBookingById_rawBooking (extractData response) @. "id"))
              "") as [| Hid]; cbn [try_catch]; [discriminate |].
  destruct (String.eqb_spec
              (booking_garageId
                 (fetchBookingById_rawBooking (extractData response)))
              "") as [| Hgarage]; cbn [try_catch]; [discriminate |].
  intros [= <-]. cbn. tauto.
Qed.

(** X11: [cancelBooking] is a fetch of the booking followed by the release
    of its slot.  It resolves exactly when both succeed, with the fetched
    booking and the status "cancelled", every other field as fetched; the
    release is asked for the garage and the slot of the fetched booking,
    and the garage id is never empty; when the fetch of the booking fails,
    the error is the one of the fetch, whatever the release would have
    answered. *)
Theorem cancelBooking_is_fetch_then_release
  (E : Engine) (api : Transport) (id : string) :
  (forall cancelled,
      cancelBooking E api id = inr cancelled ->
      exists booking response,
        fetchBookingById E api id = inr booking
        /\ Booking.garageId booking <> ""
        /\ api (release_request (Booking.garageId booking)
                                (Booking.slotId booking)) = inr response
        /\ cancelled = set_status booking (JStr "cancelled"))
  /\ (forall booking response,
         fetchBookingById E api id = inr booking ->
         api (release_request (Booking.garageId booking)
                              (Booking.slotId booking)) = inr response ->
         cancelBooking E api id = inr (set_status booking (JStr "cancelled")))
  /\ (forall e,
         fetchBookingById E api id = inl e ->
         cancelBooking E api id = inl e).
Proof.
  unfold cancelBooking, fetchActiveBooking, releaseSlot.
  split; [| split].
  - intros cancelled H.
    destruct (fetchBookingById E api id) as [e | booking] eqn:Hfetch;
      cbn [bind try_catch] in H; [discriminate |].
    destruct (api (release_request (Booking.garageId booking)
                                   (Booking.slotId booking)))
      as [e | response] eqn:Hrelease; cbn in H; [discriminate |].
    injection H as <-.
    exists booking, response.
    destruct (fetchBookingById_garageId _ _ _ _ Hfetch) as (_ & Hg & _).
    tauto.
  - intros booking response -> Hrelease. cbn [bind].
    rewrite Hrelease. reflexivity.
  - intros e He.
    destruct (fetchBookingById_is_Error _ _ _ _ He) as [message ->].
    rewrite He. reflexivity.
Qed.

Lemma cancelBooking_is_fetch_then_release_witness :
  cancelBooking exampleEngine a_backend_with_a_booking "9"
  = inr (set_status the_booking_of_the_backend (JStr "cancelled"))
  /\ cancelBooking exampleEngine a_backend_with_a_booking "10"
     = inl (Error "Resource not found").
Proof.
  destruct (cancelBooking_is_fetch_then_release exampleEngine
              a_backend_with_a_booking "9") as (_ & Hok & _).
  destruct (cancelBooking_is_fetch_then_release exampleEngine
              a_backend_with_a_booking "10") as (_ & _ & Hfail).
  split.
  - apply (Hok the_booking_of_the_backend
             (mkResponse 200 (JObj [("message", JStr "released")])));
      reflexivity.
  - apply Hfail. reflexivity.
Defined.

(** ** The session *)

Lemma usable_spec (token : option string) :
  usable token = true <->
  exists t, token = Some t /\ t <> "" /\ t <> "undefined" /\ t <> "null".
Proof.
  unfold usable. destruct token as [t |].
  - split.
    + intros H. exists t.
      destruct (String.eqb_spec t ""), (String.eqb_spec t "undefined"),
        (String.eqb_spec t "null"); cbn in H; try discriminate H.
      tauto.
    + intros (t' & Ht & H1 & H2 & H3). injection Ht as <-.
      apply String.eqb_neq in H1, H2, H3. now rewrite H1, H2, H3.
  - split; [discriminate | intros (t & Ht & _); discriminate Ht].
Qed.

Lemma usable_not_missing (token : option string) :
  usable token = true -> missing token = false.
Proof.
  intros H. apply usable_spec in H as (t & -> & Hne & _).
  cbn. now apply String.eqb_neq.
Qed.

(** X12: [logout] never fails and always ends anonymous: whatever the
    backend answers, no token is left in either storage, no user, no
    default header; no later call carries a credential, before or after
    the page is loaded again. *)
Theorem logout_always_clears (api : Transport) (b : Browser) :
  snd (logout api b) = inr tt
  /\ local (fst (logout api b)) = anonymous
  /\ session_token (fst (logout api b)) = None
  /\ outgoing_authorization (fst (logout api b)) = None
  /\ outgoing_authorization (page_load (fst (logout api b))) = None.
Proof.
  unfold logout.
  destruct (api_call api (logout_request (auth_token (local b))) b)
    as [b' result].
  cbn. repeat split.
Qed.

(** X13: [deleteProfile] clears the session only once the server has
    accepted the deletion.  When the call is rejected with anything but a
    401, the browser is left exactly as it was and the error is passed on;
    when it is accepted, nothing of the session remains. *)
Theorem deleteProfile_clears_on_success
  (api : Transport) (userId : string) (b : Browser) :
  (forall error,
      api (delete_profile_request userId) = inl error ->
      is_401 error = false ->
      deleteProfile api userId b
      = (b, inl (Error (ToString (formatError error)))))
  /\ (forall response,
         api (delete_profile_request userId) = inr response ->
         deleteProfile api userId b = (cleared b, inr tt)
         /\ outgoing_authorization (cleared b) = None
         /\ outgoing_authorization (page_load (cleared b)) = None).
Proof.
  unfold deleteProfile, api_call. split.
  - intros error -> Hnot. unfold responseInterceptor. rewrite Hnot. reflexivity.
  - intros response ->. repeat split.
Qed.

Lemma deleteProfile_clears_on_success_witness :
  deleteProfile (always_rejects a_500) "4" a_logged_in_browser
  = (a_logged_in_browser, inl (Error "Server error. Please try again later"))
  /\ deleteProfile (always (mkResponse 204 JNull)) "4" a_logged_in_browser
     = (a_fresh_browser, inr tt).
Proof.
  split.
  - apply (proj1 (deleteProfile_clears_on_success (always_rejects a_500) "4"
                    a_logged_in_browser) a_500);
      reflexivity.
  - apply (proj2 (deleteProfile_clears_on_success
                    (always (mkResponse 204 JNull)) "4" a_logged_in_browser)
                 (mkResponse 204 JNull)).
    reflexivity.
Defined.

(** X14: the credential that the request interceptor attaches.  When it
    sets the header, the header is [Bearer t] for a token [t] that is not
    empty and is neither of the texts "undefined" and "null"; [t] is the
    token of [localStorage], or the one of [sessionStorage] when
    [localStorage] has none.  A placeholder in [localStorage] hides a good
    token in [sessionStorage]: the header is then left as it was. *)
Theorem requestInterceptor_credential (b : Browser) :
  (forall header, requestInterceptor b None = Some header ->
     exists t,
       header = bearer t
       /\ t <> "" /\ t <> "undefined" /\ t <> "null"
       /\ (auth_token (local b) = Some t
           \/ (missing (auth_token (local b)) = true
               /\ session_token b = Some t)))
  /\ (forall header,
         auth_token (local b) = Some "undefined"
         \/ auth_token (local b) = Some "null" ->
         requestInterceptor b header = header).
Proof.
  unfold requestInterceptor. split.
  - intros header.
    destruct (usable (stored_token b)) eqn:Hu; [| discriminate].
    apply usable_spec in Hu as (t & Ht & H1 & H2 & H3).
    rewrite Ht. cbn. intros [= <-].
    exists t. repeat (split; [assumption || reflexivity |]).
    unfold stored_token in Ht.
    destruct (missing (auth_token (local b))) eqn:Hm; [right | left]; tauto.
  - intros header [Hp | Hp]; unfold stored_token; rewrite Hp; reflexivity.
Qed.

Lemma requestInterceptor_credential_witness :
  (exists t,
      "Bearer abc" = bearer t
      /\ t <> "" /\ t <> "undefined" /\ t <> "null"
      /\ (auth_token (local a_logged_in_browser) = Some t
          \/ (missing (auth_token (local a_logged_in_browser)) = true
              /\ session_token a_logged_in_browser = Some t)))
  /\ requestInterceptor a_browser_with_a_placeholder None = None.
Proof.
  split.
  - apply (proj1 (requestInterceptor_credential a_logged_in_browser)).
    reflexivity.
  - apply (proj2 (requestInterceptor_credential a_browser_with_a_placeholder)).
    left. reflexivity.
Defined.

Lemma login_success
  (E : Engine) (api : Transport) (payload : JsVal) (s s' : Session)
  (u : User.t) (t : string) :
  login E api payload s = (s', inr (u, t)) ->
  s' = mkSession (Some t) (Some u) (Some (bearer t))
  /\ usable (Some t) = true
  /\ User.id u <> "" /\ User.email u <> "".
Proof.
  unfold login.
  destruct (login_try E api payload) as [e | [user token]] eqn:Htry;
    [discriminate |].
  intros [= <- <- <-]. split; [reflexivity |].
  unfold login_try in Htry.
  destruct (api (login_request payload)) as [e | response];
    cbn [bind] in Htry; [discriminate |].
  destruct (read E (extractData response) "user"); cbn [bind] in Htry;
    [discriminate |].
  destruct (negb (truthy (login_rawUser (extractData response))));
    [discriminate |].
  destruct (String.eqb_spec
              (User.id (login_normalizedUser (login_rawUser (extractData response))))
              "") as [| Hid]; [discriminate |].
  destruct (String.eqb_spec
              (User.email (login_normalizedUser (login_rawUser (extractData response))))
              "") as [| Hemail]; [discriminate |].
  cbn [orb] in Htry.
  destruct (login_token (extractData response)) as [tok |]; [| discriminate].
  destruct (String.eqb_spec tok "") as [| H1]; [discriminate |].
  destruct (String.eqb_spec tok "undefined") as [| H2]; [discriminate |].
  destruct (String.eqb_spec tok "null") as [| H3]; [discriminate |].
  cbn [orb] in Htry. injection Htry as <- <-.
  split; [| tauto].
  apply usable_spec. exists tok. tauto.
Qed.

(** X15: what a successful login leaves.  The user has an id and an
    email; the token is not empty and is neither "undefined" nor "null";
    the token and the user are stored; every later call carries
    [Bearer token], and still does after the page is loaded again. *)
Theorem login_is_kept_across_page_loads
  (E : Engine) (api : Transport) (payload : JsVal) (b b' : Browser)
  (u : User.t) (t : string) :
  login_in E api payload b = (b', inr (u, t)) ->
  User.id u <> "" /\ User.email u <> ""
  /\ t <> "" /\ t <> "undefined" /\ t <> "null"
  /\ auth_token (local b') = Some t
  /\ stored_user (local b') = Some u
  /\ outgoing_authorization b' = Some (bearer t)
  /\ outgoing_authorization (page_load b') = Some (bearer t).
Proof.
  unfold login_in.
  set (b1 := fst (api_call api (login_request payload) b)).
  destruct (login E api payload (local b1)) as [s result] eqn:Hlogin.
  intros [= <- ->].
  apply login_success in Hlogin as (-> & Hu & Hid & Hemail).
  pose proof Hu as Hu'. apply usable_spec in Hu' as (t' & [= <-] & H1 & H2 & H3).
  repeat (split; [assumption || reflexivity |]).
  assert (Hm : missing (Some t) = false) by now apply usable_not_missing.
  split.
  - unfold outgoing_authorization, requestInterceptor, stored_token.
    cbn [local auth_token]. rewrite Hm, Hu. reflexivity.
  - unfold page_load, hydrateAuthToken, stored_token.
    cbn [local auth_token set_authorization]. rewrite Hm, Hu.
    unfold outgoing_authorization, requestInterceptor, stored_token.
    cbn [local auth_token set_authorization]. rewrite Hm, Hu. reflexivity.
Qed.

Lemma login_is_kept_across_page_loads_witness :
  login_in exampleEngine
    (always (mkResponse 200 (flat_login_body a_raw_user (JStr "abc"))))
    JNull a_fresh_browser
  = (a_logged_in_browser, inr (mona, "abc"))
  /\ outgoing_authorization (page_load a_logged_in_browser)
     = Some (bearer "abc").
Proof.
  split; [reflexivity |].
  apply (login_is_kept_across_page_loads exampleEngine
           (always (mkResponse 200 (flat_login_body a_raw_user (JStr "abc"))))
           JNull a_fresh_browser a_logged_in_browser mona "abc").
  reflexivity.
Defined.

(** X16: a 401 on any call, as the response interceptor handles it.  Both
    copies of the token and the user are removed and the window is sent to
    [/login]; once the page has loaded again no call carries a
    credential.  Any other rejection leaves the browser as it was.  In both
    cases the caller is given the rejection. *)
Theorem unauthorized_resets_the_session
  (api : Transport) (request : Request) (error : JsError) (b : Browser) :
  api request = inl error ->
  snd (api_call api request b) = inl error
  /\ (is_401 error = true ->
      auth_token (local (fst (api_call api request b))) = None
      /\ session_token (fst (api_call api request b)) = None
      /\ stored_user (local (fst (api_call api request b))) = None
      /\ location_href (fst (api_call api request b)) = Some "/login"
      /\ outgoing_authorization (page_load (fst (api_call api request b)))
         = None)
  /\ (is_401 error = false -> fst (api_call api request b) = b).
Proof.
  intros Hapi. unfold api_call, responseInterceptor. rewrite Hapi.
  split; [reflexivity |]. split.
  - intros ->. cbn. repeat split.
  - intros ->. reflexivity.
Qed.

Lemma unauthorized_resets_the_session_witness :
  fst (api_call (always_rejects a_401) bookings_request a_logged_in_browser)
  = mkBrowser (mkSession None None (Some "Bearer abc")) None (Some "/login")
  /\ outgoing_authorization
       (page_load (fst (api_call (always_rejects a_401) bookings_request
                                 a_logged_in_browser)))
     = None
  /\ fst (api_call (always_rejects a_500) bookings_request a_logged_in_browser)
     = a_logged_in_browser.
Proof.
  split; [reflexivity |].
  split.
  - apply (proj1 (proj2 (unauthorized_resets_the_session (always_rejects a_401)
                           bookings_request a_401 a_logged_in_browser eq_refl))
                 eq_refl).
  - apply (proj2 (proj2 (unauthorized_resets_the_session (always_rejects a_500)
                           bookings_request a_500 a_logged_in_browser eq_refl))
                 eq_refl).
Defined.

(** X17: what [register] stores.  When it resolves, the browser is either
    exactly as the call left it, or holds a token that is not empty and is
    neither "undefined" nor "null", together with the returned user and the
    header of that token.  The returned user takes the submitted name and
    email when the answer has none; and nothing asks for an id: a user
    without one is returned with the empty id. *)
Theorem register_stores_usable_tokens_only
  (E : Engine) (api : Transport) (payload : Registration) (b b' : Browser)
  (response : Response) (u : User.t) :
  api (register_request payload) = inr response ->
  register E api payload b = (b', inr u) ->
  (b' = b
   \/ exists t,
        t <> "" /\ t <> "undefined" /\ t <> "null"
        /\ local b' = mkSession (Some t) (Some u) (Some (bearer t))
        /\ session_token b' = session_token b)
  /\ (truthy (register_rawUser (extractData response) @. "email") = false ->
      User.email u = reg_email payload)
  /\ (truthy (register_rawUser (extractData response) @. "name"
              <||> register_rawUser (extractData response) @. "full_name"
              <||> register_rawUser (extractData response) @. "username")
      = false ->
      User.name u = reg_name payload)
  /\ (truthy (register_rawUser (extractData response) @. "id"
              <||> register_rawUser (extractData response) @. "user_id")
      = false ->
      User.id u = "").
Proof.
  intros Hapi. unfold register, api_call. rewrite Hapi.
  unfold register_response.
  destruct (read E (extractData response) "user"); cbn [bind];
    [discriminate |].
  destruct (negb (truthy (register_rawUser (extractData response))));
    [discriminate |].
  cbn [ret].
  intros [= <- <-].
  split; [| split; [| split]].
  - destruct (usable (register_token (extractData response))) eqn:Hu;
      [right | left; reflexivity].
    apply usable_spec in Hu as (t & -> & H1 & H2 & H3).
    exists t. cbn. tauto.
  - intros He. cbn [User.email register_normalizedUser].
    unfold js_or. rewrite He. reflexivity.
  - intros Hn. cbn [User.name register_normalizedUser].
    apply js_or_falsy in Hn as [Hn1 Hn2].
    apply js_or_falsy in Hn2 as [Hn2 Hn3].
    unfold js_or. rewrite Hn1, Hn2, Hn3. reflexivity.
  - intros Hi. cbn [User.id register_normalizedUser].
    rewrite (js_or_default _ _ _ Hi). reflexivity.
Qed.

Lemma register_stores_usable_tokens_only_witness :
  register exampleEngine (always a_registered_answer) a_registration
           a_fresh_browser
  = (a_fresh_browser, inr mona)
  /\ User.email mona = "mona@example.org"
  /\ User.name mona = "Mona".
Proof.
  split; [reflexivity |].
  destruct (register_stores_usable_tokens_only exampleEngine
              (always a_registered_answer) a_registration
              a_fresh_browser a_fresh_browser a_registered_answer mona
              eq_refl eq_refl) as (_ & Hemail & Hname & _).
  split; [apply Hemail | apply Hname]; reflexivity.
Defined.

(** X18: [refresh] checks nothing of the token it stores.  When the
    payload of the answer has no [token], the text "undefined" takes the
    place of the stored token and [Bearer undefined] becomes the default
    header: every call carries it until the page is loaded again, and after
    that no call carries a credential. *)
Theorem refresh_stores_what_it_is_given
  (E : Engine) (api : Transport) (b : Browser) (response : Response) :
  api refresh_request = inr response ->
  nullish (extractData response) = false ->
  extractData response @. "token" = JUndefined ->
  exists b',
    refresh E api b = (b', inr (extractData response))
    /\ auth_token (local b') = Some "undefined"
    /\ outgoing_authorization b' = Some "Bearer undefined"
    /\ outgoing_authorization (page_load b') = None.
Proof.
  intros Hapi Hdata Htoken.
  unfold refresh, api_call, read. rewrite Hapi, Hdata, Htoken. cbn [ret].
  eexists. split; [reflexivity |].
  split; [reflexivity |].
  split; reflexivity.
Qed.

Lemma refresh_stores_what_it_is_given_witness :
  exists b',
    refresh exampleEngine (always (mkResponse 200 (JObj [])))
            a_logged_in_browser
    = (b', inr (JObj []))
    /\ auth_token (local b') = Some "undefined"
    /\ outgoing_authorization b' = Some "Bearer undefined"
    /\ outgoing_authorization (page_load b') = None.
Proof.
  apply (refresh_stores_what_it_is_given exampleEngine
           (always (mkResponse 200 (JObj []))) a_logged_in_browser
           (mkResponse 200 (JObj [])));
    reflexivity.
Defined.

(** ** Garages *)

Lemma normalizeGarage_inv (E : Engine) (raw : JsVal) (g : GarageData.t) :
  normalizeGarage E raw = inr g -> g = garage_of E raw (garage_image raw).
Proof.
  unfold normalizeGarage, read. destruct (nullish raw); cbn; [discriminate |].
  now intros [= <-].
Qed.

Lemma normalizeGarage_search_inv (E : Engine) (raw : JsVal) (g : GarageData.t) :
  normalizeGarage_search E raw = inr g ->
  g = garage_of E raw (garage_image_search raw).
Proof.
  unfold normalizeGarage_search, read.
  destruct (nullish raw); cbn; [discriminate |].
  now intros [= <-].
Qed.

(** A chain of [||] gives its first truthy operand, and its last operand
    when none is truthy. *)
Lemma js_or_chain (operands : list JsVal) (last : JsVal) :
  fold_right js_or last operands
  = match find truthy operands with Some v => v | None => last end.
Proof.
  induction operands as [| a operands IH]; cbn [fold_right find];
    [reflexivity |].
  unfold js_or at 1. destruct (truthy a); [reflexivity | exact IH].
Qed.

(** X19: the image of a garage, in [fetchGarage].  It is the value of the
    first of the nine field names, in the order of the code, that holds a
    truthy value, and [null] when none does.  So it is truthy as soon as
    one of the nine fields is, and it is never an empty text and never
    [undefined]. *)
Theorem fetchGarage_image
  (E : Engine) (api : Transport) (id : string) (response : Response)
  (g : GarageData.t) :
  api (garage_request id) = inr response ->
  fetchGarage E api id = inr g ->
  let names := ["image"; "image_url"; "imageUrl"; "photo"; "photo_url";
                "photoUrl"; "picture"; "picture_url"; "img"] in
  GarageData.image g
  = match find truthy (map (field (extractData response)) names) with
    | Some v => v
    | None => JNull
    end
  /\ (GarageData.image g = JNull \/ truthy (GarageData.image g) = true)
  /\ ((exists k, In k names /\ truthy (extractData response @. k) = true) ->
      truthy (GarageData.image g) = true)
  /\ ((forall k, In k names -> truthy (extractData response @. k) = false) ->
      GarageData.image g = JNull).
Proof.
  intros Hapi Hfetch names.
  unfold fetchGarage in Hfetch. rewrite Hapi in Hfetch. cbn [bind] in Hfetch.
  destruct (normalizeGarage E (extractData response)) as [e | g'] eqn:Hnorm;
    cbn in Hfetch; [discriminate |].
  injection Hfetch as <-. apply normalizeGarage_inv in Hnorm as ->.
  cbn [GarageData.image garage_of].
  set (raw := extractData response).
  assert (Himage : garage_image raw
                   = match find truthy (map (field raw) names) with
                     | Some v => v
                     | None => JNull
                     end)
    by apply (js_or_chain (map (field raw) names) JNull).
  rewrite Himage.
  destruct (find truthy (map (field raw) names)) as [v |] eqn:Hfind.
  - apply find_some in Hfind as [Hin Hv].
    split; [reflexivity |]. split; [now right |]. split; [now intros _ |].
    intros Hnone. exfalso.
    apply in_map_iff in Hin as (k & <- & Hk).
    rewrite (Hnone k Hk) in Hv. discriminate.
  - split; [reflexivity |]. split; [now left |]. split; [| reflexivity].
    intros (k & Hk & Htruthy). exfalso.
    rewrite (find_none _ _ Hfind (raw @. k)) in Htruthy; [discriminate |].
    apply in_map_iff. eauto.
Qed.

Lemma fetchGarage_image_witness :
  exists g,
    fetchGarage exampleEngine (always (mkResponse 200 a_raw_garage)) "7" = inr g
    /\ truthy (GarageData.image g) = true.
Proof.
  eexists. split; [reflexivity |].
  apply (proj1 (proj2 (proj2
           (fetchGarage_image exampleEngine (always (mkResponse 200 a_raw_garage))
              "7" (mkResponse 200 a_raw_garage) _ eq_refl eq_refl)))).
  exists "photoUrl". split; [cbn; tauto | reflexivity].
Defined.

Lemma mapM_spec {A B} (f : A -> Exc B) (l : list A) (out : list B) :
  mapM f l = inr out -> Forall2 (fun x y => f x = inr y) l out.
Proof.
  revert out. induction l as [| a l IH]; cbn; intros out H.
  - injection H as <-. constructor.
  - destruct (f a) as [e | y] eqn:Hfa; cbn in H; [discriminate |].
    destruct (mapM f l) as [e | ys]; cbn in H; [discriminate |].
    injection H as <-. constructor; auto.
Qed.

Lemma mapM_total {A B} (f : A -> Exc B) (g : A -> B) (l : list A) :
  (forall x, In x l -> f x = inr (g x)) -> mapM f l = inr (map g l).
Proof.
  induction l as [| a l IH]; cbn; intros H; [reflexivity |].
  rewrite (H a) by now left. cbn.
  rewrite IH; [reflexivity |]. intros x Hx. apply H. now right.
Qed.

(** X20: [fetchGarages] asks for an array.  A payload that is not an
    array makes it reject, unlike the fetch of the slots and the listing of
    the bookings, which answer with nothing; a payload that is an array
    gives one garage per element, in order, each the normalization of its
    element. *)
Theorem fetchGarages_wants_an_array
  (E : Engine) (api : Transport) (params : JsVal) (response : Response) :
  api (garages_request params) = inr response ->
  (isArray (extractData response) = false ->
   exists message, fetchGarages E api params = inl (Error message))
  /\ (forall garages,
         fetchGarages E api params = inr garages ->
         Forall2 (fun raw g => nullish raw = false
                               /\ g = garage_of E raw (garage_image raw))
                 (items_of (extractData response)) garages).
Proof.
  intros Hapi. unfold fetchGarages. rewrite Hapi. cbn [bind]. split.
  - intros Hnot.
    destruct (extractData response); try discriminate Hnot;
      cbn; unfold rethrow, throw; eauto.
  - intros garages.
    destruct (extractData response) as [| | | | | l |]; cbn;
      try discriminate.
    destruct (mapM (normalizeGarage E) l) as [e | out] eqn:Hmap; cbn;
      [discriminate |].
    intros [= <-]. apply mapM_spec in Hmap.
    eapply Forall2_impl; [| exact Hmap].
    intros raw g Hg. split; [| now apply normalizeGarage_inv].
    unfold normalizeGarage, read in Hg.
    destruct (nullish raw); [discriminate | reflexivity].
Qed.

Lemma fetchGarages_wants_an_array_witness :
  (exists message,
      fetchGarages exampleEngine
        (always (mkResponse 200 (JObj [("garages", JArr [a_raw_garage])])))
        JUndefined
      = inl (Error message))
  /\ Forall2 (fun raw g => nullish raw = false
                           /\ g = garage_of exampleEngine raw (garage_image raw))
             [a_raw_garage]
             [garage_of exampleEngine a_raw_garage (JStr "/img/central.png")].
Proof.
  split.
  - apply (proj1 (fetchGarages_wants_an_array exampleEngine
                    (always (mkResponse 200 (JObj [("garages", JArr [a_raw_garage])])))
                    JUndefined
                    (mkResponse 200 (JObj [("garages", JArr [a_raw_garage])]))
                    eq_refl)).
    reflexivity.
  - apply (proj2 (fetchGarages_wants_an_array exampleEngine
                    (always (mkResponse 200 (JArr [a_raw_garage])))
                    JUndefined (mkResponse 200 (JArr [a_raw_garage]))
                    eq_refl)).
    reflexivity.
Defined.

(** X21: [searchPlaces] and [fetchGarages] build the same garage from the
    same raw garage, but for the image: the search does not look at
    [photoUrl] and [picture_url], and ends with [undefined] where the
    listing ends with [null].  With neither of the two fields the images
    are the same, or both absent; a garage whose only image is under
    [photoUrl] has it in the listing and has none in the search. *)
Theorem searchPlaces_image
  (E : Engine) (raw : JsVal) (listed found : GarageData.t) :
  normalizeGarage E raw = inr listed ->
  normalizeGarage_search E raw = inr found ->
  found = garage_of E raw (GarageData.image found)
  /\ listed = garage_of E raw (GarageData.image listed)
  /\ (truthy (raw @. "photoUrl") = false ->
      truthy (raw @. "picture_url") = false ->
      GarageData.image found = GarageData.image listed
      \/ (GarageData.image found = JUndefined
          /\ GarageData.image listed = JNull))
  /\ (truthy (raw @. "photoUrl") = true ->
      (forall k, In k ["image"; "image_url"; "imageUrl"; "photo"; "photo_url";
                       "picture"; "img"] ->
                 truthy (raw @. k) = false) ->
      GarageData.image listed = raw @. "photoUrl"
      /\ GarageData.image found = JUndefined).
Proof.
  intros Hl Hf.
  apply normalizeGarage_inv in Hl as ->.
  apply normalizeGarage_search_inv in Hf as ->.
  cbn [GarageData.image garage_of].
  split; [reflexivity |]. split; [reflexivity |]. split.
  - intros Hp1 Hp2. unfold garage_image, garage_image_search, js_or.
    rewrite Hp1, Hp2.
    repeat match goal with
           | |- context [if truthy ?v then _ else _] => destruct (truthy v)
           end; tauto.
  - intros Hphoto Hnone. split.
    + unfold garage_image, js_or.
      rewrite !Hnone by (cbn; tauto). now rewrite Hphoto.
    + unfold garage_image_search, js_or.
      rewrite !Hnone by (cbn; tauto). reflexivity.
Qed.

Lemma searchPlaces_image_witness :
  searchPlaces exampleEngine (always (mkResponse 200 (JArr [a_raw_garage])))
               "central"
  = inr [garage_of exampleEngine a_raw_garage JUndefined]
  /\ fetchGarages exampleEngine (always (mkResponse 200 (JArr [a_raw_garage])))
                  JUndefined
     = inr [garage_of exampleEngine a_raw_garage (JStr "/img/central.png")]
  /\ GarageData.image (garage_of exampleEngine a_raw_garage JUndefined)
     = JUndefined.
Proof.
  split; [reflexivity |].
  split; [reflexivity |].
  destruct (searchPlaces_image exampleEngine a_raw_garage
              (garage_of exampleEngine a_raw_garage (JStr "/img/central.png"))
              (garage_of exampleEngine a_raw_garage JUndefined)
              eq_refl eq_refl) as (_ & _ & _ & Honly).
  apply Honly; [reflexivity |].
  intros k Hk. cbn in Hk.
  repeat (destruct Hk as [<- | Hk]; [reflexivity |]). contradiction.
Defined.

(** ** Bookings, again *)

(** X22: when the payload of the bookings listing is an object for
    [typeof], [fetchUserBookings] keeps the partition of the backend: the
    bookings of [current] are the normalized elements of its [current]
    array, in order, and likewise for [past], whatever their statuses; a
    bucket that is missing or is not an array is empty. *)
Theorem fetchUserBookings_keeps_the_buckets
  (E : Engine) (api : Transport) (response : Response) :
  api bookings_request = inr response ->
  truthy (extractData response) && is_object (extractData response) = true ->
  forall buckets,
    fetchUserBookings_try E api = inr buckets ->
    fetchUserBookings E api = inr buckets
    /\ Forall2 (fun raw b => normalizeBooking E raw = inr b)
               (items_of (extractData response @. "current"))
               (current buckets)
    /\ Forall2 (fun raw b => normalizeBooking E raw = inr b)
               (items_of (extractData response @. "past"))
               (past buckets).
Proof.
  intros Hapi Hobj buckets Htry.
  split; [unfold fetchUserBookings; rewrite Htry; reflexivity |].
  unfold fetchUserBookings_try in Htry.
  rewrite Hapi in Htry. cbn [bind] in Htry. rewrite Hobj in Htry.
  assert (Hitems : forall v, (if isArray v then items_of v else []) = items_of v).
  { intros v. destruct v; reflexivity. }
  rewrite !Hitems in Htry.
  destruct (mapM (normalizeBooking E)
                 (items_of (extractData response @. "current")))
    as [e | cs] eqn:Hc; cbn [bind] in Htry; [discriminate |].
  destruct (mapM (normalizeBooking E)
                 (items_of (extractData response @. "past")))
    as [e | ps] eqn:Hp; cbn [bind] in Htry; [discriminate |].
  injection Htry as <-. cbn.
  split; now apply mapM_spec.
Qed.

Lemma fetchUserBookings_keeps_the_buckets_witness :
  exists b,
    fetchUserBookings exampleEngine (always a_bucketed_answer)
    = inr (mkBuckets [b] [])
    /\ Booking.status b = JStr "completed".
Proof.
  eexists. split.
  - apply (proj1 (fetchUserBookings_keeps_the_buckets exampleEngine
                    (always a_bucketed_answer) a_bucketed_answer
                    eq_refl eq_refl _ eq_refl)).
  - reflexivity.
Defined.

(** X23: what [fetchBookingById] guarantees of the booking it resolves
    with: its id and its garage id are not empty, and it carries neither
    the [place] nor the [garage] object of the payload. *)
Theorem fetchBookingById_resolved
  (E : Engine) (api : Transport) (id : string) (b : Booking.t) :
  fetchBookingById E api id = inr b ->
  Booking.id b <> "" /\ Booking.garageId b <> ""
  /\ Booking.place b = None /\ Booking.garage b = None.
Proof.
  unfold fetchBookingById.
  destruct (api (booking_request id)) as [e | response];
    cbn [bind try_catch]; [discriminate |].
  set (rawBooking := fetchBookingById_rawBooking (extractData response)).
  destruct (truthy rawBooking); cbn [negb try_catch]; [| discriminate].
  cbn [Booking.id Booking.garageId].
  destruct (String.eqb_spec (ToString (rawBooking @. "id")) "") as [| Hid];
    cbn [try_catch]; [discriminate |].
  destruct (String.eqb_spec (booking_garageId rawBooking) "") as [| Hgarage];
    cbn [try_catch]; [discriminate |].
  intros Hb. injection Hb as <-. cbn. tauto.
Qed.

Lemma fetchBookingById_resolved_witness :
  Booking.id the_booking_of_the_backend <> ""
  /\ Booking.garageId the_booking_of_the_backend <> ""
  /\ Booking.place the_booking_of_the_backend = None
  /\ Booking.garage the_booking_of_the_backend = None.
Proof.
  apply (fetchBookingById_resolved exampleEngine a_backend_with_a_booking "9").
  reflexivity.
Defined.

(** X24: the id of a booking fetched by id is the text that [String]
    makes of the [id] of the payload.  When the booking found in the
    payload has a garage id and no [id] at all, the fetch resolves, and the
    id of the booking is the text "undefined". *)
Theorem fetchBookingById_without_id
  (E : Engine) (api : Transport) (id : string) (response : Response) :
  api (booking_request id) = inr response ->
  truthy (fetchBookingById_rawBooking (extractData response)) = true ->
  booking_garageId (fetchBookingById_rawBooking (extractData response)) <> "" ->
  (forall b, fetchBookingById E api id = inr b ->
             Booking.id b
             = ToString (fetchBookingById_rawBooking (extractData response)
                         @. "id"))
  /\ (fetchBookingById_rawBooking (extractData response) @. "id" = JUndefined ->
      exists b, fetchBookingById E api id = inr b
                /\ Booking.id b = "undefined").
Proof.
  intros Hapi Hfound Hgarage.
  unfold fetchBookingById. rewrite Hapi. cbn [bind]. rewrite Hfound.
  cbn [negb Booking.id Booking.garageId].
  apply String.eqb_neq in Hgarage. rewrite Hgarage.
  split.
  - intros b.
    destruct (ToString _ =? "")%string; cbn; [discriminate |].
    now intros [= <-].
  - intros ->. cbn. eexists. split; reflexivity.
Qed.

Lemma fetchBookingById_without_id_witness :
  exists b,
    fetchBookingById exampleEngine (always a_booking_without_id) "5" = inr b
    /\ Booking.id b = "undefined".
Proof.
  apply (proj2 (fetchBookingById_without_id exampleEngine
                  (always a_booking_without_id) "5" a_booking_without_id
                  eq_refl eq_refl
                  (fun H : "3" = "" => match H with eq_refl => I end)));
    reflexivity.
Defined.

(** ** The payment page, again *)

Lemma strip_white_length (back : bool) (l : list ascii) :
  (List.length (strip_white back l) <= List.length l)%nat.
Proof.
  assert (H : forall n l, (List.length l <= n)%nat ->
                          (List.length (strip_white back l) <= List.length l)%nat).
  { clear l. induction n as [| n IH]; intros [| c rest] Hn;
      cbn [List.length] in *; try (cbn; lia).
    assert (IH' : forall l' k, (List.length l' <= n)%nat ->
                               (List.length l' <= k)%nat ->
                               (List.length (strip_white back l') <= k)%nat).
    { intros l' k Hl' Hk. specialize (IH l' Hl'). lia. }
    cbn [strip_white].
    destruct (is_whitespace c); [apply IH'; lia |].
    destruct rest as [| d rest2]; [cbn; lia |].
    destruct (if back then is_whitespace2 d c else is_whitespace2 c d);
      [apply IH'; cbn [List.length] in *; lia |].
    destruct rest2 as [| e rest3]; [cbn; lia |].
    destruct (if back then is_whitespace3 e d c else is_whitespace3 c d e);
      [apply IH'; cbn [List.length] in *; lia | cbn; lia]. }
  now apply (H (List.length l)).
Qed.

Lemma strip_white_idem (back : bool) (l : list ascii) :
  strip_white back (strip_white back l) = strip_white back l.
Proof.
  assert (H : forall n l, (List.length l <= n)%nat ->
                          strip_white back (strip_white back l)
                          = strip_white back l).
  { clear l. induction n as [| n IH]; intros [| c rest] Hn;
      cbn [List.length] in *; try reflexivity; try lia.
    cbn [strip_white].
    destruct (is_whitespace c) eqn:Hc; [apply IH; lia |].
    destruct rest as [| d rest2];
      [cbn [strip_white]; now rewrite Hc |].
    destruct (if back then is_whitespace2 d c else is_whitespace2 c d) eqn:Hd;
      [apply IH; cbn [List.length] in *; lia |].
    destruct rest2 as [| e rest3];
      [cbn [strip_white]; now rewrite Hc, Hd |].
    destruct (if back then is_whitespace3 e d c else is_whitespace3 c d e)
      eqn:He; [apply IH; cbn [List.length] in *; lia |].
    cbn [strip_white]. now rewrite Hc, Hd, He. }
  now apply (H (List.length l)).
Qed.

(** A text that does not start with white space has no prefix that
    does. *)
Lemma strip_white_fixed (back : bool) (l rest : list ascii) :
  strip_white back (l ++ rest) = l ++ rest ->
  strip_white back l = l.
Proof.
  assert (Hshort : forall (whole tail : list ascii),
             strip_white back tail = whole ->
             (List.length tail < List.length whole)%nat -> False).
  { intros whole tail <- Hlt.
    pose proof (strip_white_length back tail). lia. }
  intros H.
  destruct l as [| c l]; [reflexivity |].
  cbn [app strip_white] in *.
  destruct (is_whitespace c).
  { exfalso. apply (Hshort _ _ H). cbn [List.length]. lia. }
  destruct l as [| d l]; [reflexivity |].
  cbn [app] in *.
  destruct (if back then is_whitespace2 d c else is_whitespace2 c d).
  { exfalso. apply (Hshort _ _ H). cbn [List.length]. lia. }
  destruct l as [| e l]; [reflexivity |].
  cbn [app] in *.
  destruct (if back then is_whitespace3 e d c else is_whitespace3 c d e);
    [| reflexivity].
  exfalso. apply (Hshort _ _ H). cbn [List.length]. lia.
Qed.

(** What is left of a text is the end of the text. *)
Lemma strip_white_suffix (back : bool) (l : list ascii) :
  exists pre, l = pre ++ strip_white back l.
Proof.
  assert (H : forall n l, (List.length l <= n)%nat ->
                          exists pre, l = pre ++ strip_white back l).
  { clear l. induction n as [| n IH]; intros [| c rest] Hn;
      cbn [List.length] in *; try (now exists []); try lia.
    cbn [strip_white].
    destruct (is_whitespace c).
    { destruct (IH rest) as [pre Hpre]; [lia |].
      exists (c :: pre). cbn. now f_equal. }
    destruct rest as [| d rest2]; [now exists [] |].
    destruct (if back then is_whitespace2 d c else is_whitespace2 c d).
    { destruct (IH rest2) as [pre Hpre]; [cbn [List.length] in *; lia |].
      exists (c :: d :: pre). cbn. now do 2 f_equal. }
    destruct rest2 as [| e rest3]; [now exists [] |].
    destruct (if back then is_whitespace3 e d c else is_whitespace3 c d e);
      [| now exists []].
    destruct (IH rest3) as [pre Hpre]; [cbn [List.length] in *; lia |].
    exists (c :: d :: e :: pre). cbn. now do 3 f_equal. }
  now apply (H (List.length l)).
Qed.

(** Trimming a trimmed text changes nothing. *)
Lemma trim_idem (s : string) : trim (trim s) = trim s.
Proof.
  unfold trim at 1 2. rewrite list_ascii_of_string_of_list_ascii.
  set (L := strip_white false (list_ascii_of_string s)).
  set (M := rev (strip_white true (rev L))).
  assert (HrevM : strip_white true (rev M) = rev M).
  { unfold M. rewrite rev_involutive. apply strip_white_idem. }
  assert (HM : strip_white false M = M).
  { destruct (strip_white_suffix true (rev L)) as [pre Hpre].
    assert (HL : L = M ++ rev pre).
    { rewrite <- (rev_involutive L), Hpre, rev_app_distr. reflexivity. }
    apply (strip_white_fixed false M (rev pre)).
    rewrite <- HL. apply strip_white_idem. }
  rewrite HM, HrevM, rev_involutive. reflexivity.
Qed.

Lemma handlePayment_payload_inv
  (E : Engine) (page : PaymentPage) (payload : PaymentPayload) :
  handlePayment_payload E page = inr payload ->
  pay_vehiclePlate payload = Some (trim (vehiclePlate page))
  /\ (3 <= js_length (trim (vehiclePlate page)))%nat
  /\ parkingSpotId payload <> ""
  /\ pay_garageId payload <> ""
  /\ pay_userId payload <> ""
  /\ startTime payload = formatMySQLTimestamp E (Fin (nowTime E)).
Proof.
  unfold handlePayment_payload.
  destruct (apiBooking page); [| discriminate].
  destruct (locationState page); [| discriminate].
  destruct (ls_garage l); [| discriminate].
  destruct (ls_slot l); [| discriminate].
  destruct (currentUser page); [| discriminate].
  destruct (String.eqb_spec (User.id t2) ""); [discriminate |].
  destruct (String.eqb_spec (trim (vehiclePlate page)) ""); [discriminate |].
  destruct (Nat.ltb_spec (js_length (trim (vehiclePlate page))) 3);
    [discriminate |].
  destruct (String.eqb_spec (Slot.id t1) ""); [discriminate |].
  destruct (String.eqb_spec (Garage.id t0) ""); [discriminate |].
  intros [= <-]. cbn. tauto.
Qed.

(** X25: what every pay request carries.  The plate is the plate of the
    form with the white space at both ends removed, trimming it again
    changes nothing, and its length, counted as [.length] counts it in
    UTF-16 code units, is at least three; and the ids of the slot, of the
    garage and of the user are not empty. *)
Theorem handlePayment_request_is_checked
  (E : Engine) (page : PaymentPage) (request : Request) :
  handlePayment_request E page = Some request ->
  exists plate spot garage user,
    body request @. "vehicle_plate" = JStr plate
    /\ plate = trim (vehiclePlate page)
    /\ trim plate = plate
    /\ (3 <= js_length plate)%nat
    /\ body request @. "parking_spot_id" = JStr spot /\ spot <> ""
    /\ body request @. "garage_id" = JStr garage /\ garage <> ""
    /\ body request @. "user_id" = JStr user /\ user <> "".
Proof.
  unfold handlePayment_request.
  destruct (handlePayment_payload E page) as [refused | payload] eqn:Hp;
    [discriminate |].
  intros [= <-].
  apply handlePayment_payload_inv in Hp
    as (Hplate & Hlen & Hspot & Hgarage & Huser & _).
  exists (trim (vehiclePlate page)), (parkingSpotId payload),
    (pay_garageId payload), (pay_userId payload).
  cbn. rewrite Hplate. cbn.
  repeat (split; [reflexivity || assumption || apply trim_idem |]).
  assumption.
Qed.

Lemma handlePayment_request_is_checked_witness :
  exists plate spot garage user,
    body (a_payment_request "credit_card") @. "vehicle_plate" = JStr plate
    /\ plate = trim (vehiclePlate (a_payment_page "card"))
    /\ trim plate = plate
    /\ (3 <= js_length plate)%nat
    /\ body (a_payment_request "credit_card") @. "parking_spot_id" = JStr spot
    /\ spot <> ""
    /\ body (a_payment_request "credit_card") @. "garage_id" = JStr garage
    /\ garage <> ""
    /\ body (a_payment_request "credit_card") @. "user_id" = JStr user
    /\ user <> "".
Proof.
  apply (handlePayment_request_is_checked exampleEngine (a_payment_page "card")
           (a_payment_request "credit_card")).
  reflexivity.
Defined.

Lemma string_length_append (a b : string) :
  String.length (a ++ b) = (String.length a + String.length b)%nat.
Proof. induction a as [| c a IH]; cbn; congruence. Qed.

Lemma all_from_spec (P : Z -> bool) (n : nat) :
  forall lo, all_from P lo n = true ->
             forall z, lo <= z < lo + Z.of_nat n -> P z = true.
Proof.
  induction n as [| n IH]; intros lo H z Hz; [lia |].
  cbn [all_from] in H. apply andb_true_iff in H as [Hlo Hrest].
  destruct (Z.eq_dec z lo) as [-> | Hne]; [assumption |].
  apply (IH (lo + 1) Hrest). lia.
Qed.

Lemma pad_two_digits (n : Z) :
  0 <= n <= 99 -> digits_of_length 2 (pad (Fin n)) = true.
Proof.
  intros Hn.
  apply (all_from_spec (fun n => digits_of_length 2 (pad (Fin n)))
                       (Z.to_nat 100) 0).
  - vm_compute. reflexivity.
  - rewrite Z2Nat.id; lia.
Qed.

Lemma year_four_digits (y : Z) :
  1000 <= y <= 9999 -> digits_of_length 4 (string_of_Z y) = true.
Proof.
  intros Hy.
  apply (all_from_spec (fun y => digits_of_length 4 (string_of_Z y))
                       (Z.to_nat 9000) 1000).
  - vm_compute. reflexivity.
  - rewrite Z2Nat.id; lia.
Qed.

Lemma digits_of_length_length (n : nat) (s : string) :
  digits_of_length n s = true -> String.length s = n.
Proof.
  unfold digits_of_length. intros H. apply andb_true_iff in H as [H _].
  now apply Nat.eqb_eq.
Qed.

(** X26: the timestamps of a pay request.  When the calendar of the engine
    gives a year of four digits and a month, a day, an hour, a minute and a
    second in their ranges, [formatMySQLTimestamp] gives the nineteen
    characters [YYYY-MM-DD HH:MM:SS], every field of digits only and padded
    with zeros to its width; and the [start_time] of a pay request is that
    text for the time of the click. *)
Theorem formatMySQLTimestamp_shape
  (E : Engine) (t : JsNum) (y mo d h mi s : Z) :
  getFullYear E t = Fin y -> 1000 <= y <= 9999 ->
  getMonth E t = Fin mo -> 0 <= mo <= 11 ->
  getDate E t = Fin d -> 1 <= d <= 31 ->
  getHours E t = Fin h -> 0 <= h <= 23 ->
  getMinutes E t = Fin mi -> 0 <= mi <= 59 ->
  getSeconds E t = Fin s -> 0 <= s <= 59 ->
  (exists YYYY MM DD HH MI SS,
      formatMySQLTimestamp E t
      = (YYYY ++ "-" ++ MM ++ "-" ++ DD ++ " " ++ HH ++ ":" ++ MI ++ ":" ++ SS)%string
      /\ digits_of_length 4 YYYY = true
      /\ digits_of_length 2 MM = true
      /\ digits_of_length 2 DD = true
      /\ digits_of_length 2 HH = true
      /\ digits_of_length 2 MI = true
      /\ digits_of_length 2 SS = true)
  /\ String.length (formatMySQLTimestamp E t) = 19%nat
  /\ (forall page request,
         t = Fin (nowTime E) ->
         handlePayment_request E page = Some request ->
         body request @. "start_time" = JStr (formatMySQLTimestamp E t)).
Proof.
  intros Hy Hyr Hmo Hmor Hd Hdr Hh Hhr Hmi Hmir Hs Hsr.
  assert (HY := year_four_digits y Hyr).
  assert (HM : digits_of_length 2 (pad (Fin (mo + 1))) = true)
    by (apply pad_two_digits; lia).
  assert (HD : digits_of_length 2 (pad (Fin d)) = true)
    by (apply pad_two_digits; lia).
  assert (HH : digits_of_length 2 (pad (Fin h)) = true)
    by (apply pad_two_digits; lia).
  assert (HMI : digits_of_length 2 (pad (Fin mi)) = true)
    by (apply pad_two_digits; lia).
  assert (HS : digits_of_length 2 (pad (Fin s)) = true)
    by (apply pad_two_digits; lia).
  assert (Heq : formatMySQLTimestamp E t
                = (string_of_Z y ++ "-" ++ pad (Fin (mo + 1)) ++ "-"
                   ++ pad (Fin d) ++ " " ++ pad (Fin h) ++ ":"
                   ++ pad (Fin mi) ++ ":" ++ pad (Fin s))%string).
  { unfold formatMySQLTimestamp. rewrite Hy, Hmo, Hd, Hh, Hmi, Hs. reflexivity. }
  split; [| split].
  - do 6 eexists. split; [exact Heq |]. tauto.
  - rewrite Heq. rewrite !string_length_append.
    rewrite (digits_of_length_length _ _ HY), (digits_of_length_length _ _ HM),
      (digits_of_length_length _ _ HD), (digits_of_length_length _ _ HH),
      (digits_of_length_length _ _ HMI), (digits_of_length_length _ _ HS).
    reflexivity.
  - intros page request -> Hrequest.
    unfold handlePayment_request in Hrequest.
    destruct (handlePayment_payload E page) as [refused | payload] eqn:Hp;
      [discriminate |].
    injection Hrequest as <-.
    apply handlePayment_payload_inv in Hp as (_ & _ & _ & _ & _ & Hstart).
    cbn. now rewrite Hstart.
Qed.

Lemma formatMySQLTimestamp_shape_witness :
  formatMySQLTimestamp exampleEngine (Fin 1709211661000) = "2024-02-29 13:01:01"
  /\ String.length (formatMySQLTimestamp exampleEngine (Fin 1709211661000))
     = 19%nat.
Proof.
  split; [reflexivity |].
  refine (proj1 (proj2 (formatMySQLTimestamp_shape exampleEngine
                          (Fin 1709211661000) 2024 1 29 13 1 1
                          _ _ _ _ _ _ _ _ _ _ _ _)));
    (reflexivity || lia).
Defined.

(** ** The listing pages *)

Lemma filter_all {A} (p : A -> bool) (l : list A) :
  (forall x, In x l -> p x = true) -> filter p l = l.
Proof.
  induction l as [| x l IH]; cbn; intros H; [reflexivity |].
  rewrite (H x) by now left. f_equal. apply IH. intros y Hy. apply H. now right.
Qed.

Lemma find_absent {A} (p : A -> bool) (l : list A) :
  (forall x, In x l -> p x = false) -> find p l = None.
Proof.
  induction l as [| x l IH]; cbn; intros H; [reflexivity |].
  rewrite (H x) by now left. apply IH. intros y Hy. apply H. now right.
Qed.

Lemma cancel_unique (id : string) (l : list Booking.t) (b : Booking.t) :
  NoDup (map Booking.id l) -> In b l -> Booking.id b = id ->
  find (fun x => (Booking.id x =? id)%string) l = Some b
  /\ S (List.length (filter (fun x => negb (Booking.id x =? id)%string) l))
     = List.length l.
Proof.
  induction l as [| x l IH]; cbn; intros Hnodup Hin Hid; [contradiction |].
  inversion Hnodup as [| ? ? Hfresh Hrest]; subst.
  destruct Hin as [-> | Hin].
  - rewrite String.eqb_refl. cbn. split; [reflexivity |]. f_equal.
    rewrite filter_all; [reflexivity |].
    intros y Hy. apply negb_true_iff, String.eqb_neq. intros Heq.
    apply Hfresh. rewrite <- Heq. now apply in_map.
  - destruct (String.eqb_spec (Booking.id x) (Booking.id b)) as [Heq | Hne].
    + exfalso. apply Hfresh. rewrite Heq. now apply in_map.
    + cbn. destruct (IH Hrest Hin eq_refl) as [Hfind Hlen].
      split; [assumption | now f_equal].
Qed.

(** X27: [handleCancel] on the bookings page.  After it no current booking
    has the given id.  When no current booking has the id, the page is
    left as it was; when the ids of the current bookings are distinct and
    one of them is the id, that booking leaves the current bookings and
    joins the end of the past ones with the status "cancelled", every
    other booking stays where it was, and no booking is lost. *)
Theorem handleCancel_moves_the_booking (id : string) (page : BookingsPage) :
  (forall b, In b (currentBookings (handleCancel id page)) ->
             Booking.id b <> id)
  /\ ((forall b, In b (currentBookings page) -> Booking.id b <> id) ->
      handleCancel id page = page)
  /\ (forall b,
         NoDup (map Booking.id (currentBookings page)) ->
         In b (currentBookings page) -> Booking.id b = id ->
         currentBookings (handleCancel id page)
         = filter (fun x => negb (Booking.id x =? id)%string)
                  (currentBookings page)
         /\ pastBookings (handleCancel id page)
            = pastBookings page ++ [set_status b (JStr "cancelled")]
         /\ (List.length (currentBookings (handleCancel id page))
             + List.length (pastBookings (handleCancel id page))
             = List.length (currentBookings page)
               + List.length (pastBookings page))%nat).
Proof.
  unfold handleCancel. cbn [currentBookings pastBookings].
  split; [| split].
  - intros b Hb. apply filter_In in Hb as [_ Hb].
    apply negb_true_iff in Hb. now apply String.eqb_neq.
  - intros Hnone. destruct page as [cur pst loading error]. cbn in *.
    rewrite filter_all, find_absent; [reflexivity | |].
    + intros x Hx. apply String.eqb_neq. now apply Hnone.
    + intros x Hx. apply negb_true_iff, String.eqb_neq. now apply Hnone.
  - intros b Hnodup Hin Hid.
    destruct (cancel_unique id _ b Hnodup Hin Hid) as [Hfind Hlen].
    rewrite Hfind. split; [reflexivity |]. split; [reflexivity |].
    rewrite length_app. cbn. lia.
Qed.

Lemma handleCancel_moves_the_booking_witness :
  handleCancel "9" (mkBookingsPage [the_booking_of_the_backend] [] false None)
  = mkBookingsPage []
      [set_status the_booking_of_the_backend (JStr "cancelled")] false None
  /\ handleCancel "77" a_bookings_page = a_bookings_page.
Proof.
  destruct (handleCancel_moves_the_booking "9"
              (mkBookingsPage [the_booking_of_the_backend] [] false None))
    as (_ & _ & Hmove).
  destruct (handleCancel_moves_the_booking "77" a_bookings_page)
    as (_ & Hsame & _).
  split.
  - destruct (Hmove the_booking_of_the_backend) as (Hcur & Hpast & _).
    + cbn. repeat constructor. intros [].
    + cbn. tauto.
    + reflexivity.
    + reflexivity.
  - apply Hsame. intros b Hb. cbn in Hb.
    destruct Hb as [<- | [<- | []]]; discriminate.
Defined.

(** X28: the bookings page never shows its error.  [fetchUserBookings]
    does not reject, so whatever the backend does, [loadBookings] ends with
    no error and not loading; when the listing fails, the page shows two
    empty lists. *)
Theorem loadBookings_never_fails
  (E : Engine) (api : Transport) (page : BookingsPage) :
  bookings_error (loadBookings E api page) = None
  /\ bookings_loading (loadBookings E api page) = false
  /\ (forall error, fetchUserBookings_try E api = inl error ->
        currentBookings (loadBookings E api page) = []
        /\ pastBookings (loadBookings E api page) = []).
Proof.
  unfold loadBookings, fetchUserBookings.
  destruct (fetchUserBookings_try E api) as [e | buckets]; cbn.
  - repeat split.
  - repeat split; discriminate.
Qed.

Lemma loadBookings_never_fails_witness :
  loadBookings exampleEngine (always_rejects a_500) a_bookings_page
  = mkBookingsPage [] [] false None.
Proof.
  destruct (loadBookings_never_fails exampleEngine (always_rejects a_500)
              a_bookings_page) as (Herror & Hloading & Hempty).
  destruct (Hempty a_500 eq_refl) as [Hcurrent Hpast].
  destruct (loadBookings exampleEngine (always_rejects a_500) a_bookings_page)
    as [cur pst loading error].
  cbn in *. now subst.
Defined.

Lemma includes_here (s sub : string) :
  String.prefix sub s = true -> includes s sub = true.
Proof. destruct s; cbn [includes]; intros ->; reflexivity. Qed.

Lemma includes_skip (c : ascii) (s sub : string) :
  includes s sub = true -> includes (String c s) sub = true.
Proof.
  intros H. cbn [includes].
  destruct (String.prefix sub (String c s)); [reflexivity | assumption].
Qed.

Lemma prefix_refl (s : string) : String.prefix s s = true.
Proof.
  induction s as [| c s IH]; cbn; [reflexivity |].
  destruct (ascii_dec c c); [assumption | contradiction].
Qed.

Lemma includes_suffix (before s : string) :
  includes (before ++ s) s = true.
Proof.
  induction before as [| c p IH]; cbn [append].
  - apply includes_here, prefix_refl.
  - now apply includes_skip.
Qed.

Lemma append_assoc (a b c : string) :
  ((a ++ b) ++ c)%string = (a ++ b ++ c)%string.
Proof. induction a as [| x a IH]; cbn; congruence. Qed.

(** X29: what the active-booking page shows after [load].  When the
    booking is fetched, the page shows it with no error, whether or not the
    garage and the slot could be fetched.  When the fetch of the booking
    fails, the page keeps the booking it had and shows an error; and when
    the backend answers 404 with no message of its own, or answers with a
    payload in which no booking is found, the error is the page's own
    not-found text. *)
Theorem load_active_booking
  (E : Engine) (api : Transport) (id : string) (page : ActiveBookingPage) :
  id <> "" ->
  (forall active,
      fetchBookingById E api id = inr active ->
      ab_booking (load E api (Some id) page) = Some active
      /\ ab_error (load E api (Some id) page) = None
      /\ ab_loading (load E api (Some id) page) = false
      /\ ab_statusMessage (load E api (Some id) page)
         = ("Booking Status: " ++ ToString (Booking.status active))%string)
  /\ (forall e,
         fetchBookingById E api id = inl e ->
         ab_booking (load E api (Some id) page) = ab_booking page
         /\ ab_garage (load E api (Some id) page) = ab_garage page
         /\ exists text, ab_error (load E api (Some id) page) = Some text)
  /\ (forall response code message,
         api (booking_request id)
         = inl (AxiosError (Some response) code message) ->
         status response = 404 ->
         truthy (data response @? "message") = false ->
         truthy (data response @? "error") = false ->
         ab_error (load E api (Some id) page) = Some (not_found_text id))
  /\ (forall response,
         api (booking_request id) = inr response ->
         truthy (fetchBookingById_rawBooking (extractData response)) = false ->
         ab_error (load E api (Some id) page) = Some (not_found_text id)).
Proof.
  intros Hid. apply String.eqb_neq in Hid.
  unfold load. cbn [missing text_or_empty]. rewrite Hid.
  split; [| split; [| split]].
  - intros active ->.
    destruct (load_details E api active page) as [garage slot]. cbn. tauto.
  - intros e ->. cbn. eauto.
  - intros response code message Hapi H404 Hm He.
    assert (Hfetch : fetchBookingById E api id
                     = inl (Error "Resource not found")).
    { unfold fetchBookingById. rewrite Hapi.
      unfold bind, try_catch, rethrow, throw, formatError.
      rewrite Hm, He, H404. reflexivity. }
    rewrite Hfetch. reflexivity.
  - intros response Hapi Hnone.
    assert (Hfetch : fetchBookingById E api id
                     = inl (Error ("Booking #" ++ id ++ " not found")%string)).
    { unfold fetchBookingById. rewrite Hapi. cbn [bind]. rewrite Hnone.
      reflexivity. }
    rewrite Hfetch. cbn [message_of ab_error].
    assert (Hinc : includes ("Booking #" ++ id ++ " not found")%string
                            "not found" = true).
    { replace ("Booking #" ++ id ++ " not found")%string
        with ((("Booking #" ++ id) ++ " ") ++ "not found")%string.
      - apply includes_suffix.
      - rewrite !append_assoc. reflexivity. }
    rewrite Hinc, orb_true_r. reflexivity.
Qed.

Lemma load_active_booking_witness :
  ab_booking (load exampleEngine a_backend_with_a_booking (Some "9")
                   a_blank_active_page)
  = Some the_booking_of_the_backend
  /\ ab_error (load exampleEngine a_backend_with_a_booking (Some "9")
                    a_blank_active_page)
     = None
  /\ ab_garage (load exampleEngine a_backend_with_a_booking (Some "9")
                     a_blank_active_page)
     = None
  /\ ab_error (load exampleEngine a_backend_with_a_booking (Some "10")
                    a_blank_active_page)
     = Some (not_found_text "10").
Proof.
  destruct (load_active_booking exampleEngine a_backend_with_a_booking "9"
              a_blank_active_page) as (Hok & _); [discriminate |].
  destruct (load_active_booking exampleEngine a_backend_with_a_booking "10"
              a_blank_active_page) as (_ & _ & H404 & _); [discriminate |].
  destruct (Hok the_booking_of_the_backend eq_refl) as (Hb & He & _).
  split; [exact Hb |]. split; [exact He |]. split; [reflexivity |].
  apply (H404 (mkResponse 404 (JStr "<html>Not Found</html>"))
              (Some "ERR_BAD_REQUEST") "Request failed with status code 404");
    reflexivity.
Defined.

(** X30: what the home page shows after [loadGarages].  The page shows an
    error exactly when the listing of the garages fails.  When garages are
    listed, the first one is selected, no slot is selected, and the slots
    shown are the fetched slots of that garage, or none when their fetch
    fails: a failure of the slots never becomes an error of the page. *)
Theorem loadGarages_selects_the_first
  (E : Engine) (api : Transport) (search : option string) (page : HomePage) :
  (forall e,
      fetchGarages E api (JObj [("q", json_of_optional search)]) = inl e ->
      home_error (loadGarages E api search page) = Some (message_of e)
      /\ home_garages (loadGarages E api search page) = home_garages page
      /\ selectedGarage (loadGarages E api search page) = selectedGarage page)
  /\ (forall first rest,
         fetchGarages E api (JObj [("q", json_of_optional search)])
         = inr (first :: rest) ->
         home_error (loadGarages E api search page) = None
         /\ home_loading (loadGarages E api search page) = false
         /\ home_garages (loadGarages E api search page) = first :: rest
         /\ selectedGarage (loadGarages E api search page) = Some first
         /\ selectedSlot (loadGarages E api search page) = None
         /\ (forall slots,
               fetchParkingSlots E api (GarageData.id first) = inr slots ->
               selectedGarageSlots (loadGarages E api search page) = slots)
         /\ (forall e,
               fetchParkingSlots E api (GarageData.id first) = inl e ->
               selectedGarageSlots (loadGarages E api search page) = []))
  /\ (fetchGarages E api (JObj [("q", json_of_optional search)]) = inr [] ->
      home_error (loadGarages E api search page) = None
      /\ home_garages (loadGarages E api search page) = []
      /\ selectedGarage (loadGarages E api search page) = selectedGarage page).
Proof.
  unfold loadGarages. split; [| split].
  - intros e ->. cbn. tauto.
  - intros first rest ->. cbn.
    repeat (split; [reflexivity |]).
    split; intros ? ->; reflexivity.
  - intros ->. cbn. tauto.
Qed.

Lemma loadGarages_selects_the_first_witness :
  home_error (loadGarages exampleEngine a_backend_with_a_garage None a_blank_home)
  = None
  /\ selectedGarage (loadGarages exampleEngine a_backend_with_a_garage None
                                 a_blank_home)
     = Some (garage_of exampleEngine a_raw_garage (JStr "/img/central.png"))
  /\ selectedGarageSlots (loadGarages exampleEngine a_backend_with_a_garage None
                                      a_blank_home)
     = [].
Proof.
  destruct (loadGarages_selects_the_first exampleEngine a_backend_with_a_garage
              None a_blank_home) as (_ & Hfirst & _).
  destruct (Hfirst (garage_of exampleEngine a_raw_garage (JStr "/img/central.png"))
                   [] eq_refl)
    as (He & _ & _ & Hg & _ & _ & Hnone).
  split; [exact He |]. split; [exact Hg |].
  apply (Hnone (Error "Server error. Please try again later")).
  reflexivity.
Defined.
